(** * Journal Monitor: normalisation, merge, filter and triage pipeline

    A shallow embedding of the article pipeline of the Journal Monitor
    plugin (api.ts, utils.ts, main.ts and views/BrowseView.ts) together
    with the properties stated about it.

    Conventions of the embedding.
    - A JavaScript string is a [string]: a sequence of code units, here the
      code units below 256.
    - An optional field [x?: T] (undefined or null) is an [option T].
    - A JavaScript object used as a dictionary ([Record<string, T>]) is a
      [gmap string T]; where the enumeration order of the keys matters
      (the inverted index) it is the list of its entries instead.  Keys are
      taken not to name a property of Object.prototype.
    - Numbers that count things are [Z]; a score (a double read from JSON)
      is the rational [Q] it denotes.
    - The clock, the network adapters and the note writer are arguments of
      the functions that consult them; a call that may throw returns an
      [outcome]. *)

From Stdlib Require Import ZArith QArith Ascii String List Permutation Sorted Lia.
From stdpp Require Import base option list sorting strings gmap.

Local Open Scope Z_scope.
Local Open Scope list_scope.

(** ** JavaScript primitives *)

Module JS.

(** *** Truthiness *)

(** A possibly absent string is truthy when present and not empty. *)
Definition truthy_str (o : option string) : bool :=
  match o with
  | Some (String _ _) => true
  | _ => false
  end.

(** [a || b] on possibly absent strings. *)
Definition or_str (o : option string) (d : string) : string :=
  match o with
  | Some (String c s) => String c s
  | _ => d
  end.

(** A possibly absent number is truthy when present and not zero. *)
Definition truthy_num (o : option Z) : bool :=
  match o with
  | Some n => negb (n =? 0)
  | None => false
  end.

Definition or_num (o : option Z) (d : Z) : Z :=
  if truthy_num o then default d o else d.

(** *** Array.prototype.sort with a comparator

    The sort is stable: an element moves in front of another only when the
    comparator says it is strictly smaller.  A comparator result is a
    number; the sign alone is used. *)

Section sort.
Context {A : Type} (cmp : A -> A -> Z).

Fixpoint sort_insert (x : A) (l : list A) : list A :=
    match l with
    | [] => [x]
    | y :: l' => if cmp x y <=? 0 then x :: y :: l' else y :: sort_insert x l'
    end.

Fixpoint sort (l : list A) : list A :=
    match l with
    | [] => []
    | x :: l' => sort_insert x (sort l')
    end.
End sort.

(** The order that a comparator stands for: [x] may come before [y]. *)
Definition cmp_le {A : Type} (cmp : A -> A -> Z) (x y : A) : Prop := cmp x y <= 0.

(** *** Array.prototype.join *)

Fixpoint join (sep : string) (l : list string) : string :=
  match l with
  | [] => ""
  | [x] => x
  | x :: l' => x +:+ sep +:+ join sep l'
  end.

(** *** Array.prototype.slice(0, n) *)

Definition slice0 {A : Type} (n : nat) (l : list A) : list A := firstn n l.

(** *** String.prototype.includes *)

Fixpoint startsWith (s kw : string) {struct kw} : bool :=
  match kw, s with
  | EmptyString, _ => true
  | String _ _, EmptyString => false
  | String k kw', String c s' => if Ascii.eqb c k then startsWith s' kw' else false
  end.

Fixpoint includes (s kw : string) : bool :=
  startsWith s kw ||
  match s with
  | EmptyString => false
  | String _ s' => includes s' kw
  end.

(** *** String.prototype.toLowerCase

    On code units below 256 the Unicode lower-case mapping moves A-Z and the
    Latin-1 capitals (0xC0-0xDE, without the multiplication sign 0xD7) up by
    32 and fixes every other code unit. *)

Definition lower_unit (c : ascii) : ascii :=
  let n := nat_of_ascii c in
  if ((65 <=? n) && (n <=? 90))%nat then ascii_of_nat (n + 32)
  else if ((192 <=? n) && (n <=? 222) && negb (n =? 215))%nat then ascii_of_nat (n + 32)
  else c.

Fixpoint toLowerCase (s : string) : string :=
  match s with
  | EmptyString => EmptyString
  | String c s' => String (lower_unit c) (toLowerCase s')
  end.

(** *** String.prototype.substring(0, n) *)

Fixpoint substring0 (n : nat) (s : string) : string :=
  match n, s with
  | S n', String c s' => String c (substring0 n' s')
  | _, _ => EmptyString
  end.

(** *** String.prototype.replace with a string pattern: the first
    occurrence only. *)

Fixpoint dropUnits (n : nat) (s : string) : string :=
  match n, s with
  | S n', String _ s' => dropUnits n' s'
  | _, _ => s
  end.

Fixpoint replace (s pat rep : string) : string :=
  if startsWith s pat then rep +:+ dropUnits (String.length pat) s
  else match s with
       | EmptyString => EmptyString
       | String c s' => String c (replace s' pat rep)
       end.

(** *** The default comparison of Array.prototype.sort(): strings are
    ordered by their code units. *)

Fixpoint str_compare (s t : string) : comparison :=
  match s, t with
  | EmptyString, EmptyString => Eq
  | EmptyString, String _ _ => Lt
  | String _ _, EmptyString => Gt
  | String a s', String b t' =>
      match N.compare (N_of_ascii a) (N_of_ascii b) with
      | Eq => str_compare s' t'
      | c => c
      end
  end.

Definition default_cmp (s t : string) : Z :=
  match str_compare s t with
  | Lt => -1
  | Eq => 0
  | Gt => 1
  end.

Definition sort_default (l : list string) : list string := sort default_cmp l.

Definition str_le (s t : string) : Prop := cmp_le default_cmp s t.

(** *** Number.prototype.toString on an integer (below 10^21 in size):
    a sign and the decimal digits. *)

Definition digit10 (d : Z) : ascii := ascii_of_nat (48 + Z.to_nat d).

Fixpoint digits10 (fuel : nat) (n : Z) (acc : string) : string :=
  match fuel with
  | O => acc
  | S fuel' =>
      let acc' := String (digit10 (n mod 10)) acc in
      if n / 10 =? 0 then acc' else digits10 fuel' (n / 10) acc'
  end.

Definition numToString (n : Z) : string :=
  let m := Z.abs n in
  let ds := digits10 (S (Z.to_nat (Z.log2 m))) m "" in
  if n <? 0 then String "-"%char ds else ds.

(** *** String.prototype.padStart with a pad of one code unit *)

Fixpoint repeatUnit (n : nat) (c : ascii) (s : string) : string :=
  match n with
  | O => s
  | S n' => String c (repeatUnit n' c s)
  end.

Definition padStart (target : nat) (c : ascii) (s : string) : string :=
  repeatUnit (target - String.length s) c s.

(** *** String.prototype.split with a separator of one code unit: the
    pieces between the separators, at least one. *)

Fixpoint splitOn (sep : ascii) (s : string) : list string :=
  match s with
  | EmptyString => [EmptyString]
  | String c s' =>
      if Ascii.eqb c sep then EmptyString :: splitOn sep s'
      else match splitOn sep s' with
           | piece :: pieces => String c piece :: pieces
           | [] => [String c EmptyString]
           end
  end.

(** *** White space: what [\s] matches and what trim removes, on code units
    below 256: tab, line feed, vertical tab, form feed, carriage return,
    space and no-break space. *)

Definition isSpace (c : ascii) : bool :=
  let n := nat_of_ascii c in
  ((9 <=? n) && (n <=? 13) || (n =? 32) || (n =? 160))%nat.

(** What [\w] matches: a letter of A-Z or a-z, a digit or the underscore. *)
Definition isWord (c : ascii) : bool :=
  let n := nat_of_ascii c in
  ((65 <=? n) && (n <=? 90) || (97 <=? n) && (n <=? 122) || (48 <=? n) && (n <=? 57)
   || (n =? 95))%nat.

Fixpoint trimStart (s : string) : string :=
  match s with
  | EmptyString => EmptyString
  | String c s' => if isSpace c then trimStart s' else s
  end.

Fixpoint trimEnd (s : string) : string :=
  match s with
  | EmptyString => EmptyString
  | String c s' =>
      match trimEnd s' with
      | EmptyString => if isSpace c then EmptyString else String c EmptyString
      | t => String c t
      end
  end.

Definition trim (s : string) : string := trimEnd (trimStart s).

(** *** String.prototype.split(/\s+/): the pieces between the runs of
    white space.  [inRun] tells that the code unit before was white space. *)

Fixpoint splitSpaces (inRun : bool) (s : string) : list string :=
  match s with
  | EmptyString => [EmptyString]
  | String c s' =>
      if isSpace c
      then if inRun then splitSpaces true s' else EmptyString :: splitSpaces true s'
      else match splitSpaces false s' with
           | piece :: pieces => String c piece :: pieces
           | [] => [String c EmptyString]
           end
  end.

(** *** String.prototype.replace(/[^...]/g, ''): the code units that a test
    accepts are kept. *)

Fixpoint keepUnits (keep : ascii -> bool) (s : string) : string :=
  match s with
  | EmptyString => EmptyString
  | String c s' => if keep c then String c (keepUnits keep s') else keepUnits keep s'
  end.

(** *** Plain objects used as dictionaries

    The collection of articles and the counters of the journals are plain
    objects, made by an object literal or read from JSON, so their prototype
    is Object.prototype.  A read [o[k]] that finds no own property [k] goes
    on to the prototype, where the names below are found, each with a truthy
    value (a function, or the prototype itself for [__proto__]); for any
    other name the read gives undefined. *)

Definition objectPrototype : list string :=
  ["constructor"; "__defineGetter__"; "__defineSetter__"; "hasOwnProperty";
   "__lookupGetter__"; "__lookupSetter__"; "isPrototypeOf"; "propertyIsEnumerable";
   "toString"; "valueOf"; "__proto__"; "toLocaleString"].

Definition inherited (k : string) : bool := existsb (String.eqb k) objectPrototype.

(** Whether [o[k]] is truthy, for an object whose own values are objects. *)
Definition truthyAt {T : Type} (o : gmap string T) (k : string) : bool :=
  match o !! k with
  | Some _ => true
  | None => inherited k
  end.

(** [o[k] = v] for an object [v]: the own property [k] is written or made.
    The one exception is the name [__proto__] when [o] has no own property
    of that name: the assignment then reaches the accessor of
    Object.prototype, which makes [v] the prototype of [o] and no
    property. *)
Definition assign {T : Type} (k : string) (v : T) (o : gmap string T) : gmap string T :=
  match o !! k with
  | Some _ => <[k := v]> o
  | None => if String.eqb k "__proto__" then o else <[k := v]> o
  end.

(** *** Calls that may throw *)

Inductive outcome (A : Type) : Type :=
  | Ok (a : A)
  | Throw (e : string).
Arguments Ok {A} a.
Arguments Throw {A} e.

(** [try { body } catch (e) { handler }]. *)
Definition try_catch {A : Type} (body : outcome A) (handler : string -> outcome A) : outcome A :=
  match body with
  | Ok a => Ok a
  | Throw e => handler e
  end.

Definition bind {A B : Type} (m : outcome A) (k : A -> outcome B) : outcome B :=
  match m with
  | Ok a => k a
  | Throw e => Throw e
  end.

End JS.

#[global] Instance outcome_ret : MRet JS.outcome := fun A a => JS.Ok a.
#[global] Instance outcome_bind : MBind JS.outcome := fun A B k m => JS.bind m k.

(** ** types.ts: the data model *)

Inductive ArticleState : Type := unseen | viewed | saved | skipped.

Definition ArticleState_str (s : ArticleState) : string :=
  match s with
  | unseen => "unseen"
  | viewed => "viewed"
  | saved => "saved"
  | skipped => "skipped"
  end.

Module JournalConfig.
Record t : Type := mk {
  name : string;
  issn : string;
  issnElectronic : option string;
  publisher : string;
  enabled : bool;
  color : option string
}.
End JournalConfig.

(** The field [abstract] of the source is [abstract_] here. *)
Module Article.
Record t : Type := mk {
  doi : string;
  title : string;
  authors : list string;
  journal : string;
  journalIssn : string;
  volume : option string;
  issue : option string;
  pages : option string;
  date : string;
  year : Z;
  abstract_ : option string;
  keywords : option (list string);
  url : string;
  openAccessUrl : option string;
  state : ArticleState;
  fetchedAt : string;
  viewedAt : option string;
  savedAt : option string;
  savedPath : option string
}.

Definition set_abstract (v : option string) (a : t) : t :=
  mk (doi a) (title a) (authors a) (journal a) (journalIssn a) (volume a)
       (issue a) (pages a) (date a) (year a) v (keywords a) (url a)
       (openAccessUrl a) (state a) (fetchedAt a) (viewedAt a) (savedAt a)
       (savedPath a).

Definition set_state (v : ArticleState) (a : t) : t :=
  mk (doi a) (title a) (authors a) (journal a) (journalIssn a) (volume a)
       (issue a) (pages a) (date a) (year a) (abstract_ a) (keywords a) (url a)
       (openAccessUrl a) v (fetchedAt a) (viewedAt a) (savedAt a)
       (savedPath a).

Definition set_viewedAt (v : option string) (a : t) : t :=
  mk (doi a) (title a) (authors a) (journal a) (journalIssn a) (volume a)
       (issue a) (pages a) (date a) (year a) (abstract_ a) (keywords a) (url a)
       (openAccessUrl a) (state a) (fetchedAt a) v (savedAt a)
       (savedPath a).

Definition set_savedAt (v : option string) (a : t) : t :=
  mk (doi a) (title a) (authors a) (journal a) (journalIssn a) (volume a)
       (issue a) (pages a) (date a) (year a) (abstract_ a) (keywords a) (url a)
       (openAccessUrl a) (state a) (fetchedAt a) (viewedAt a) v
       (savedPath a).

Definition set_savedPath (v : option string) (a : t) : t :=
  mk (doi a) (title a) (authors a) (journal a) (journalIssn a) (volume a)
       (issue a) (pages a) (date a) (year a) (abstract_ a) (keywords a) (url a)
       (openAccessUrl a) (state a) (fetchedAt a) (viewedAt a) (savedAt a)
       v.
End Article.

Inductive DateRange : Type := range_day | range_week | range_month | range_3months | range_custom.

Definition DateRange_str (r : DateRange) : string :=
  match r with
  | range_day => "day"
  | range_week => "week"
  | range_month => "month"
  | range_3months => "3months"
  | range_custom => "custom"
  end.

Inductive ShowState : Type := show_unseen | show_all | show_viewed | show_saved | show_skipped.

Definition ShowState_str (s : ShowState) : string :=
  match s with
  | show_unseen => "unseen"
  | show_all => "all"
  | show_viewed => "viewed"
  | show_saved => "saved"
  | show_skipped => "skipped"
  end.

Inductive SortBy : Type := sort_date_desc | sort_date_asc | sort_journal.

Definition SortBy_str (s : SortBy) : string :=
  match s with
  | sort_date_desc => "date-desc"
  | sort_date_asc => "date-asc"
  | sort_journal => "journal"
  end.

Module FilterConfig.
Record t : Type := mk {
  dateRange : DateRange;
  customDateFrom : option string;
  customDateTo : option string;
  journals : list string;
  keywords : list string;
  searchInAbstracts : bool;
  showState : ShowState;
  sortBy : SortBy
}.

Definition set_journals (v : list string) (f : t) : t :=
  mk (dateRange f) (customDateFrom f) (customDateTo f) v (keywords f)
       (searchInAbstracts f) (showState f) (sortBy f).

Definition set_keywords (v : list string) (f : t) : t :=
  mk (dateRange f) (customDateFrom f) (customDateTo f) (journals f) v
       (searchInAbstracts f) (showState f) (sortBy f).
End FilterConfig.

Inductive ApiProvider : Type := openalex | crossref.

Module BrowsePosition.
Record t : Type := mk {
  currentDoi : option string;
  filterHash : string;
  scrollIndex : nat
}.
End BrowsePosition.

Module JournalStats.
Record t : Type := mk { fetched : Z; saved : Z; skipped : Z }.
Definition zero : t := mk 0 0 0.
Definition incr_fetched (s : t) : t := mk (fetched s + 1) (saved s) (skipped s).
Definition incr_saved (s : t) : t := mk (fetched s) (saved s + 1) (skipped s).
Definition incr_skipped (s : t) : t := mk (fetched s) (saved s) (skipped s + 1).
End JournalStats.

Module Statistics.
Record t : Type := mk {
  totalFetched : Z;
  totalSaved : Z;
  totalSkipped : Z;
  byJournal : gmap string JournalStats.t
}.
End Statistics.

Module JournalMonitorData.
Record t : Type := mk {
  version : string;
  lastFetch : option string;
  articles : gmap string Article.t;
  browsePosition : BrowsePosition.t;
  statistics : Statistics.t
}.
End JournalMonitorData.

(** The part of the settings that the modelled functions read. *)
Module JournalMonitorSettings.
Record t : Type := mk {
  journals : list JournalConfig.t;
  apiProvider : ApiProvider;
  articlesPerFetch : Z;
  lookbackDays : Z;
  openAlexEmail : option string;
  crossRefEmail : option string;
  notifyOnNewArticles : bool;
  currentFilter : FilterConfig.t
}.
End JournalMonitorSettings.

(** An entry of [concepts] or [topics]: a display name with its score. *)
Module Scored.
Record t : Type := mk { display_name : string; score : Q }.
End Scored.

Module Authorship.
Record t : Type := mk {
  author_display_name : string;
  author_position : option string
}.
End Authorship.

Module Biblio.
Record t : Type := mk {
  volume : option string;
  issue : option string;
  first_page : option string;
  last_page : option string
}.
End Biblio.

Module OpenAlexWork.
Record t : Type := mk {
  id : string;
  doi : option string;
  title : option string;
  display_name : option string;
  publication_date : option string;
  publication_year : option Z;
  authorships : option (list Authorship.t);
  abstract_inverted_index : option (list (string * list Z));
  keywords : option (list string);
  biblio : option Biblio.t;
  open_access_oa_url : option string;
  concepts : option (list Scored.t);
  topics : option (list Scored.t)
}.
End OpenAlexWork.

(** An entry of the author list of a citation-registry work. *)
Module CrossRefAuthor.
Record t : Type := mk {
  given : option string;
  family : option string;
  name : option string
}.
End CrossRefAuthor.

(** A citation-registry work; each of the three dates is its date-parts. *)
Module CrossRefWork.
Record t : Type := mk {
  DOI : option string;
  title : option (list string);
  author : option (list CrossRefAuthor.t);
  published : option (list (list Z));
  published_print : option (list (list Z));
  published_online : option (list (list Z));
  volume : option string;
  issue : option string;
  page : option string;
  abstract_ : option string;
  subject : option (list string)
}.
End CrossRefWork.

(** What [new Date()] gives at a call: the ISO timestamp and the local year. *)
Module Clock.
Record t : Type := mk { nowISO : string; fullYear : Z }.
End Clock.

(** ** api.ts: the concept-graph adapter *)

Module Api.

(** The (word, position) pairs of an inverted index, in the order in which
    the two nested loops push them. *)
Definition flattenIndex (invertedIndex : list (string * list Z)) : list (string * Z) :=
  flat_map (fun entry => map (fun pos => (fst entry, pos)) (snd entry)) invertedIndex.

Definition reconstructAbstract (invertedIndex : option (list (string * list Z))) : option string :=
  match invertedIndex with
  | None => None
  | Some idx =>
      let words := JS.sort (fun a b => snd a - snd b) (flattenIndex idx) in
      Some (JS.join " " (map fst words))
  end.

(** The table [{ first: 0, middle: 1, last: 2 }]. *)
Definition order (tag : string) : option Z :=
  if String.eqb tag "first" then Some 0
  else if String.eqb tag "middle" then Some 1
  else if String.eqb tag "last" then Some 2
  else None.

(** [order[a.author_position] || 1]; a missing tag is looked up under the
    key "undefined". *)
Definition author_rank (a : Authorship.t) : Z :=
  JS.or_num (order (default "undefined" (Authorship.author_position a))) 1.

Definition formatOpenAlexAuthors (authorships : list Authorship.t) : list string :=
  map Authorship.author_display_name
      (JS.sort (fun a b => author_rank a - author_rank b) authorships).

(** [c.score > 0.3].  The double nearest to 0.3 lies below 3/10 and no
    double lies between the two, so on doubles the test is [3/10 < score]. *)
Definition score_above (c : Scored.t) : bool :=
  negb (Qle_bool (Scored.score c) (3 # 10)).

Definition scored_names (l : list Scored.t) : list string :=
  map Scored.display_name (JS.slice0 8 (List.filter score_above l)).

(** The constant [keywords] of openAlexToArticle: a chain of [?.] and [||].
    An array, empty or not, is truthy. *)
Definition openAlexKeywords (work : OpenAlexWork.t) : list string :=
  match OpenAlexWork.concepts work with
  | Some cs => scored_names cs
  | None =>
      match OpenAlexWork.topics work with
      | Some ts => scored_names ts
      | None =>
          match OpenAlexWork.keywords work with
          | Some ks => ks
          | None => []
          end
      end
  end.

(** [s.split('T')[0]]. *)
Fixpoint beforeT (s : string) : string :=
  match s with
  | EmptyString => EmptyString
  | String c s' => if Ascii.eqb c "T" then EmptyString else String c (beforeT s')
  end.

Definition openAlexPages (b : option Biblio.t) : option string :=
  let first := b ≫= Biblio.first_page in
  let last := b ≫= Biblio.last_page in
  if JS.truthy_str first && JS.truthy_str last
  then Some (default "" first +:+ "-" +:+ default "" last)
  else first.

Definition openAlexToArticle (clock : Clock.t) (work : OpenAlexWork.t)
    (journalName journalIssn : string) : option Article.t :=
  if negb (JS.truthy_str (OpenAlexWork.doi work)) then None
  else
    let doi := JS.replace (default "" (OpenAlexWork.doi work)) "https://doi.org/" "" in
    let keywords := openAlexKeywords work in
    Some {|
      Article.doi := doi;
      Article.title :=
        JS.or_str (OpenAlexWork.display_name work)
                  (JS.or_str (OpenAlexWork.title work) "Untitled");
      Article.authors := formatOpenAlexAuthors (default [] (OpenAlexWork.authorships work));
      Article.journal := journalName;
      Article.journalIssn := journalIssn;
      Article.volume := OpenAlexWork.biblio work ≫= Biblio.volume;
      Article.issue := OpenAlexWork.biblio work ≫= Biblio.issue;
      Article.pages := openAlexPages (OpenAlexWork.biblio work);
      Article.date :=
        JS.or_str (OpenAlexWork.publication_date work) (beforeT (Clock.nowISO clock));
      Article.year := JS.or_num (OpenAlexWork.publication_year work) (Clock.fullYear clock);
      Article.abstract_ := reconstructAbstract (OpenAlexWork.abstract_inverted_index work);
      Article.keywords := Some keywords;
      Article.url := "https://doi.org/" +:+ doi;
      Article.openAccessUrl := OpenAlexWork.open_access_oa_url work;
      Article.state := unseen;
      Article.fetchedAt := Clock.nowISO clock;
      Article.viewedAt := None;
      Article.savedAt := None;
      Article.savedPath := None
    |}.

(** backfillAbstracts on one article of the batch.  The lookup
    fetchAbstractFromCrossRef catches its own errors and answers with an
    abstract or with nothing. *)
Definition backfillOne (fetchAbstractFromCrossRef : string -> option string)
    (article : Article.t) : Article.t :=
  if JS.truthy_str (Article.abstract_ article) then article
  else
    let found := fetchAbstractFromCrossRef (Article.doi article) in
    if JS.truthy_str found then Article.set_abstract found article else article.

(** *** The citation-registry adapter *)

(** formatCrossRefAuthors. *)
Definition formatCrossRefAuthor (a : CrossRefAuthor.t) : string :=
  if JS.truthy_str (CrossRefAuthor.name a) then default "" (CrossRefAuthor.name a)
  else if JS.truthy_str (CrossRefAuthor.family a) && JS.truthy_str (CrossRefAuthor.given a)
  then default "" (CrossRefAuthor.family a) +:+ ", " +:+ default "" (CrossRefAuthor.given a)
  else JS.or_str (CrossRefAuthor.family a) (JS.or_str (CrossRefAuthor.given a) "Unknown").

Definition formatCrossRefAuthors (authors : option (list CrossRefAuthor.t)) : list string :=
  match authors with
  | None => []
  | Some l => map formatCrossRefAuthor l
  end.

(** A month or a day of parseDate: [parts[i] ? String(parts[i]).padStart(2, '0') : '01']. *)
Definition twoDigits (part : option Z) : string :=
  if JS.truthy_num part then JS.padStart 2 "0"%char (JS.numToString (default 0 part))
  else "01".

(** parseDate.  [today] is [new Date().toISOString().split('T')[0]]; a
    year that is missing is printed as "undefined". *)
Definition parseDate (today : string) (dateStr : option string)
    (dateParts : option (list (list Z))) : string :=
  if JS.truthy_str dateStr then beforeT (default "" dateStr)
  else
    match dateParts ≫= (fun l : list (list Z) => l !! 0%nat) with
    | Some parts =>
        let year := match parts !! 0%nat with
                    | Some y => JS.numToString y
                    | None => "undefined"
                    end in
        year +:+ "-" +:+ twoDigits (parts !! 1%nat) +:+ "-" +:+ twoDigits (parts !! 2%nat)
    | None => today
    end.

(** [JS.replace(/<[^>]*>/g, '')]: every stretch from a [<] to the next [>]
    is taken out.  [hasGt] tells whether a [>] lies ahead; [inTag] that the
    scan is inside such a stretch. *)
Fixpoint hasGt (s : string) : bool :=
  match s with
  | EmptyString => false
  | String c s' => Ascii.eqb c ">" || hasGt s'
  end.

Fixpoint stripTagsFrom (inTag : bool) (s : string) : string :=
  match s with
  | EmptyString => EmptyString
  | String c s' =>
      if inTag then (if Ascii.eqb c ">" then stripTagsFrom false s' else stripTagsFrom true s')
      else if Ascii.eqb c "<"
           then (if hasGt s' then stripTagsFrom true s' else String c s')
           else String c (stripTagsFrom false s')
  end.

Definition stripTags (s : string) : string := stripTagsFrom false s.

Definition crossRefDateParts (work : CrossRefWork.t) : option (list (list Z)) :=
  match CrossRefWork.published work with
  | Some parts => Some parts
  | None =>
      match CrossRefWork.published_online work with
      | Some parts => Some parts
      | None => CrossRefWork.published_print work
      end
  end.

Definition crossRefToArticle (clock : Clock.t) (work : CrossRefWork.t)
    (journalName journalIssn : string) : option Article.t :=
  if negb (JS.truthy_str (CrossRefWork.DOI work)) then None
  else
    let doi := default "" (CrossRefWork.DOI work) in
    let dateParts := crossRefDateParts work in
    let date := parseDate (beforeT (Clock.nowISO clock)) None dateParts in
    let year :=
      JS.or_num
        ((dateParts ≫= (fun l : list (list Z) => l !! 0%nat))
           ≫= (fun parts : list Z => parts !! 0%nat))
        (Clock.fullYear clock) in
    Some {|
      Article.doi := doi;
      Article.title :=
        JS.or_str (CrossRefWork.title work ≫= (fun l : list string => l !! 0%nat)) "Untitled";
      Article.authors := formatCrossRefAuthors (CrossRefWork.author work);
      Article.journal := journalName;
      Article.journalIssn := journalIssn;
      Article.volume := CrossRefWork.volume work;
      Article.issue := CrossRefWork.issue work;
      Article.pages := CrossRefWork.page work;
      Article.date := date;
      Article.year := year;
      Article.abstract_ := stripTags <$> CrossRefWork.abstract_ work;
      Article.keywords := CrossRefWork.subject work;
      Article.url := "https://doi.org/" +:+ doi;
      Article.openAccessUrl := None;
      Article.state := unseen;
      Article.fetchedAt := Clock.nowISO clock;
      Article.viewedAt := None;
      Article.savedAt := None;
      Article.savedPath := None
    |}.

(** backfillAbstracts: the count returned, and the articles of the batch as
    the loop leaves them (they are changed in place). *)
Definition backfillAbstracts (fetchAbstractFromCrossRef : string -> option string)
    (articles : list Article.t) : Z * list Article.t :=
  let missing := List.filter (fun a => negb (JS.truthy_str (Article.abstract_ a))) articles in
  if (length missing =? 0)%nat then (0, articles)
  else
    (fold_left
       (fun filled article =>
          if JS.truthy_str (fetchAbstractFromCrossRef (Article.doi article))
          then filled + 1 else filled)
       missing 0,
     map (backfillOne fetchAbstractFromCrossRef) articles).

Section adapters.

(** The request for the works of a journal: the records of the answer, or
    a failure of the network or of the decoding.  The first argument is the
    ISSN that the URL is built from. *)
Variable requestOpenAlex :
  string -> string -> string -> Z -> option string -> JS.outcome (list OpenAlexWork.t).
Variable requestCrossRef :
  string -> string -> string -> Z -> option string -> JS.outcome (list CrossRefWork.t).
Variable clock : Clock.t.

(** [journal.issnElectronic || journal.issn]. *)
Definition queryIssn (journal : JournalConfig.t) : string :=
  JS.or_str (JournalConfig.issnElectronic journal) (JournalConfig.issn journal).

(** [email] is put into the URL only when it is not empty. *)
Definition queryEmail (email : option string) : option string :=
  if JS.truthy_str email then email else None.

Definition fetchFromOpenAlex (journal : JournalConfig.t) (fromDate toDate : string)
    (perPage : Z) (email : option string) : JS.outcome (list Article.t) :=
  JS.try_catch
    (JS.bind (requestOpenAlex (queryIssn journal) fromDate toDate perPage (queryEmail email))
       (fun results =>
          JS.Ok (omap (M := list)
                   (fun work =>
                      openAlexToArticle clock work (JournalConfig.name journal)
                        (JournalConfig.issn journal)) results)))
    (fun _ => JS.Ok []).

Definition fetchFromCrossRef (journal : JournalConfig.t) (fromDate toDate : string)
    (rows : Z) (email : option string) : JS.outcome (list Article.t) :=
  JS.try_catch
    (JS.bind (requestCrossRef (queryIssn journal) fromDate toDate rows (queryEmail email))
       (fun items =>
          JS.Ok (omap (M := list)
                   (fun work =>
                      crossRefToArticle clock work (JournalConfig.name journal)
                        (JournalConfig.issn journal)) items)))
    (fun _ => JS.Ok []).

End adapters.

End Api.

(** ** utils.ts: the filter fingerprint and the filter/sort engine *)

Module Utils.

(** *** JSON.stringify on the values that hashFilterConfig serialises *)

Definition dquote : ascii := "034"%char.
Definition backslash : ascii := "092"%char.

Definition hex_digit (n : nat) : ascii :=
  match String.get n "0123456789abcdef" with
  | Some c => c
  | None => "0"%char
  end.

(** QuoteJSONString on one code unit. *)
Definition json_escape_unit (c : ascii) : string :=
  let n := nat_of_ascii c in
  if (n =? 8)%nat then String backslash "b"
  else if (n =? 9)%nat then String backslash "t"
  else if (n =? 10)%nat then String backslash "n"
  else if (n =? 12)%nat then String backslash "f"
  else if (n =? 13)%nat then String backslash "r"
  else if (n =? 34)%nat then String backslash (String dquote "")
  else if (n =? 92)%nat then String backslash (String backslash "")
  else if (n <? 32)%nat then
    String backslash ("u00" +:+ String (hex_digit (n / 16)) (String (hex_digit (n mod 16)) ""))
  else String c "".

Fixpoint json_escape (s : string) : string :=
  match s with
  | EmptyString => EmptyString
  | String c s' => json_escape_unit c +:+ json_escape s'
  end.

Definition json_string (s : string) : string :=
  String dquote (json_escape s +:+ String dquote "").

Definition json_array (l : list string) : string :=
  "[" +:+ JS.join "," (map json_string l) +:+ "]".

(** An object literal: a property whose value is undefined is left out. *)
Definition json_object (props : list (string * option string)) : string :=
  "{" +:+
  JS.join "," (omap (fun p => (fun v => json_string (fst p) +:+ ":" +:+ v) <$> snd p) props)
  +:+ "}".

(** *** The hash loop *)

(** ToInt32: the value that the bitwise operators see and return. *)
Definition toInt32 (z : Z) : Z := (z + 2 ^ 31) mod 2 ^ 32 - 2 ^ 31.

(** [hash = ((hash << 5) - hash) + char; hash = hash & hash]. *)
Definition hash_step (hash : Z) (c : ascii) : Z :=
  let h := (toInt32 (Z.shiftl (toInt32 hash) 5) - hash) + Z.of_nat (nat_of_ascii c) in
  Z.land (toInt32 h) (toInt32 h).

Definition digit36 (d : Z) : ascii :=
  match String.get (Z.to_nat d) "0123456789abcdefghijklmnopqrstuvwxyz" with
  | Some c => c
  | None => "0"%char
  end.

Fixpoint digits36 (fuel : nat) (n : Z) (acc : string) : string :=
  match fuel with
  | O => acc
  | S fuel' =>
      let acc' := String (digit36 (n mod 36)) acc in
      if n / 36 =? 0 then acc' else digits36 fuel' (n / 36) acc'
  end.

(** [n.toString(36)] on an integer: a sign and the digits.  A digit is
    produced per unit of fuel, and a number has no more digits than bits. *)
Definition toString36 (n : Z) : string :=
  let m := Z.abs n in
  let ds := digits36 (S (Z.to_nat (Z.log2 m))) m "" in
  if n <? 0 then String "-"%char ds else ds.

(** hashFilterConfig.  The two calls of [sort()] also reorder the arrays of
    the filter in place; the hash is the value returned. *)
Definition hashFilterConfig_str (filter : FilterConfig.t) : string :=
  json_object [
    ("dateRange", Some (json_string (DateRange_str (FilterConfig.dateRange filter))));
    ("customDateFrom", json_string <$> FilterConfig.customDateFrom filter);
    ("customDateTo", json_string <$> FilterConfig.customDateTo filter);
    ("journals", Some (json_array (JS.sort_default (FilterConfig.journals filter))));
    ("keywords", Some (json_array (JS.sort_default (FilterConfig.keywords filter))));
    ("showState", Some (json_string (ShowState_str (FilterConfig.showState filter))));
    ("sortBy", Some (json_string (SortBy_str (FilterConfig.sortBy filter))))
  ].

Definition hashFilterConfig (filter : FilterConfig.t) : string :=
  let str := hashFilterConfig_str filter in
  let hash := fold_left hash_step (list_ascii_of_string str) 0 in
  toString36 hash.

(** *** filterArticles *)

Section filter.

(** [new Date(s).getTime()]: a number of milliseconds, or NaN ([None]). *)
Variable getTime : string -> option Z.
(** [a.localeCompare(b)] in the locale of the host. *)
Variable localeCompare : string -> string -> Z.

(** A comparator result: a difference of two times; NaN counts as +0. *)
Definition time_diff (x y : option Z) : Z :=
  match x, y with
  | Some a, Some b => a - b
  | _, _ => 0
  end.

Definition matches_state (filter : FilterConfig.t) (a : Article.t) : bool :=
  String.eqb (ArticleState_str (Article.state a)) (ShowState_str (FilterConfig.showState filter)).

Definition enabledIssns (filter : FilterConfig.t) (allJournals : list JournalConfig.t) : list string :=
  if (0 <? length (FilterConfig.journals filter))%nat
  then FilterConfig.journals filter
  else map JournalConfig.issn allJournals.

Definition matches_journal (issns : list string) (a : Article.t) : bool :=
  existsb (String.eqb (Article.journalIssn a)) issns.

Definition searchText (filter : FilterConfig.t) (a : Article.t) : string :=
  if FilterConfig.searchInAbstracts filter
  then JS.toLowerCase
         (Article.title a +:+ " " +:+ JS.or_str (Article.abstract_ a) "" +:+ " "
          +:+ JS.join " " (default [] (Article.keywords a)))
  else JS.toLowerCase (Article.title a).

Definition matches_keywords (filter : FilterConfig.t) (lowerKeywords : list string)
    (a : Article.t) : bool :=
  existsb (fun kw => JS.includes (searchText filter a) kw) lowerKeywords.

(** The four steps of filterArticles: state, journals, keywords, sort.  A
    date that does not parse makes the comparator answer NaN, which the sort
    takes as 0. *)
Definition filterArticles (articles : list Article.t) (filter : FilterConfig.t)
    (allJournals : list JournalConfig.t) : list Article.t :=
  let filtered := articles in
  let filtered :=
    if negb (String.eqb (ShowState_str (FilterConfig.showState filter)) "all")
    then List.filter (matches_state filter) filtered
    else filtered in
  let filtered := List.filter (matches_journal (enabledIssns filter allJournals)) filtered in
  let filtered :=
    if (0 <? length (FilterConfig.keywords filter))%nat
    then
      let lowerKeywords := map JS.toLowerCase (FilterConfig.keywords filter) in
      List.filter (matches_keywords filter lowerKeywords) filtered
    else filtered in
  match FilterConfig.sortBy filter with
  | sort_date_desc =>
      JS.sort (fun a b => time_diff (getTime (Article.date b)) (getTime (Article.date a))) filtered
  | sort_date_asc =>
      JS.sort (fun a b => time_diff (getTime (Article.date a)) (getTime (Article.date b))) filtered
  | sort_journal =>
      JS.sort (fun a b => localeCompare (Article.journal a) (Article.journal b)) filtered
  end.

End filter.

(** *** File names and YAML *)

(** escapeYaml: [str.replace(/"/g, '\\"').replace(/\n/g, ' ')]. *)
Fixpoint escapeQuotes (s : string) : string :=
  match s with
  | EmptyString => EmptyString
  | String c s' =>
      if Ascii.eqb c dquote then String backslash (String dquote (escapeQuotes s'))
      else String c (escapeQuotes s')
  end.

Fixpoint newlinesToSpaces (s : string) : string :=
  match s with
  | EmptyString => EmptyString
  | String c s' =>
      String (if Ascii.eqb c "010"%char then " "%char else c) (newlinesToSpaces s')
  end.

Definition escapeYaml (str : string) : string := newlinesToSpaces (escapeQuotes str).

(** What [/[^\w\s-]/g] leaves in place. *)
Definition fileUnit (c : ascii) : bool := JS.isWord c || JS.isSpace c || Ascii.eqb c "-".

(** [article.authors[0]?.split(',')[0]?.split(' ').pop() || 'Unknown']. *)
Definition firstAuthorRaw (article : Article.t) : string :=
  JS.or_str
    (((Article.authors article !! 0%nat)
        ≫= (fun author : string => JS.splitOn "," author !! 0%nat))
       ≫= (fun family : string => last (JS.splitOn " " family)))
    "Unknown".

Definition generateFilename (article : Article.t) : string :=
  let firstAuthor := JS.keepUnits fileUnit (firstAuthorRaw article) in
  let year := JS.keepUnits fileUnit (JS.numToString (Article.year article)) in
  let titleWords :=
    JS.join "-"
      (JS.slice0 5 (JS.splitSpaces false (JS.keepUnits fileUnit (Article.title article)))) in
  JS.substring0 100 (firstAuthor +:+ year +:+ "-" +:+ titleWords).

End Utils.

(** ** Updates of the persisted data *)

Module Store.

Definition set_articles (v : gmap string Article.t) (d : JournalMonitorData.t) : JournalMonitorData.t :=
  JournalMonitorData.mk (JournalMonitorData.version d) (JournalMonitorData.lastFetch d) v
    (JournalMonitorData.browsePosition d) (JournalMonitorData.statistics d).

Definition set_lastFetch (v : option string) (d : JournalMonitorData.t) : JournalMonitorData.t :=
  JournalMonitorData.mk (JournalMonitorData.version d) v (JournalMonitorData.articles d)
    (JournalMonitorData.browsePosition d) (JournalMonitorData.statistics d).

Definition set_browsePosition (v : BrowsePosition.t) (d : JournalMonitorData.t) : JournalMonitorData.t :=
  JournalMonitorData.mk (JournalMonitorData.version d) (JournalMonitorData.lastFetch d)
    (JournalMonitorData.articles d) v (JournalMonitorData.statistics d).

Definition set_statistics (v : Statistics.t) (d : JournalMonitorData.t) : JournalMonitorData.t :=
  JournalMonitorData.mk (JournalMonitorData.version d) (JournalMonitorData.lastFetch d)
    (JournalMonitorData.articles d) (JournalMonitorData.browsePosition d) v.

Definition set_totalFetched (v : Z) (s : Statistics.t) : Statistics.t :=
  Statistics.mk v (Statistics.totalSaved s) (Statistics.totalSkipped s) (Statistics.byJournal s).

Definition set_totalSaved (v : Z) (s : Statistics.t) : Statistics.t :=
  Statistics.mk (Statistics.totalFetched s) v (Statistics.totalSkipped s) (Statistics.byJournal s).

Definition set_totalSkipped (v : Z) (s : Statistics.t) : Statistics.t :=
  Statistics.mk (Statistics.totalFetched s) (Statistics.totalSaved s) v (Statistics.byJournal s).

Definition set_byJournal (v : gmap string JournalStats.t) (s : Statistics.t) : Statistics.t :=
  Statistics.mk (Statistics.totalFetched s) (Statistics.totalSaved s) (Statistics.totalSkipped s) v.

(** [if (!byJournal[issn]) byJournal[issn] = { fetched: 0, saved: 0, skipped: 0 }]
    followed by the increment of one counter of [byJournal[issn]].  When
    [issn] is no own property but a name of Object.prototype, the test finds
    the inherited member, no entry is made, and the increment goes to a
    property of that member: the counters of the journals stay as they
    are. *)
Definition bumpJournal (issn : string) (incr : JournalStats.t -> JournalStats.t)
    (byJournal : gmap string JournalStats.t) : gmap string JournalStats.t :=
  let byJournal :=
    if negb (JS.truthyAt byJournal issn)
    then <[issn := JournalStats.zero]> byJournal
    else byJournal in
  alter incr issn byJournal.

End Store.

(** ** main.ts: the sync pass *)

Module Main.

Inductive Notice : Type :=
  | notice_no_journals
  | notice_fetching (n : nat)
  | notice_found (n : Z)
  | notice_none_found.

(** The variables of the loop of fetchArticles. *)
Record LoopState : Type := mkLoop {
  loop_data : JournalMonitorData.t;
  newArticleCount : Z;
  totalFetched : Z
}.

(** What a call of fetchArticles leaves behind: the data, the notices shown,
    and the two counters of the pass (0 when it returns before the loop). *)
Record SyncResult : Type := mkSync {
  sync_data : JournalMonitorData.t;
  sync_notices : list Notice;
  sync_newArticleCount : Z;
  sync_totalFetched : Z
}.

Section sync.

(** The two adapters: journal, from, to, page size, contact email. *)
Variable fetchFromOpenAlex :
  JournalConfig.t -> string -> string -> Z -> option string -> JS.outcome (list Article.t).
Variable fetchFromCrossRef :
  JournalConfig.t -> string -> string -> Z -> option string -> JS.outcome (list Article.t).
(** The per-identifier abstract lookup of the backfill. *)
Variable fetchAbstractFromCrossRef : string -> option string.
(** [this.getDateDaysAgo(days)]. *)
Variable getDateDaysAgo : Z -> string.
(** The clock when the pass starts and when the loop has ended. *)
Variable startClock endClock : Clock.t.

(** The body of the inner loop: one fetched article.  The test
    [!this.data.articles[article.doi]] is a read through the prototype
    chain; where it succeeds the identifier is neither an own property nor a
    name of Object.prototype, so the assignment makes an own property. *)
Definition mergeArticle (journal : JournalConfig.t) (st : LoopState) (article : Article.t) : LoopState :=
  let data := loop_data st in
  if JS.truthyAt (JournalMonitorData.articles data) (Article.doi article) then st
  else
    let articles := <[Article.doi article := article]> (JournalMonitorData.articles data) in
    let stats := JournalMonitorData.statistics data in
    let byJournal :=
      Store.bumpJournal (JournalConfig.issn journal) JournalStats.incr_fetched
        (Statistics.byJournal stats) in
    mkLoop
      (Store.set_statistics (Store.set_byJournal byJournal stats)
         (Store.set_articles articles data))
      (newArticleCount st + 1)
      (totalFetched st).

(** The call of the adapter of the selected provider. *)
Definition callAdapter (settings : JournalMonitorSettings.t) (from to : string)
    (journal : JournalConfig.t) : JS.outcome (list Article.t) :=
  match JournalMonitorSettings.apiProvider settings with
  | openalex =>
      fetchFromOpenAlex journal from to
        (JournalMonitorSettings.articlesPerFetch settings)
        (JournalMonitorSettings.openAlexEmail settings)
  | crossref =>
      fetchFromCrossRef journal from to
        (JournalMonitorSettings.articlesPerFetch settings)
        (JournalMonitorSettings.crossRefEmail settings)
  end.

(** What a journal contributes to a pass: the articles that its adapter
    answers with, and nothing when the adapter throws. *)
Definition fetchedOk (settings : JournalMonitorSettings.t) (from to : string)
    (journal : JournalConfig.t) : list Article.t :=
  match callAdapter settings from to journal with
  | JS.Ok articles => articles
  | JS.Throw _ => []
  end.

(** The body of the [try] block for one journal. *)
Definition fetchJournal (settings : JournalMonitorSettings.t) (from to : string)
    (st : LoopState) (journal : JournalConfig.t) : JS.outcome LoopState :=
  articles ← callAdapter settings from to journal;
  let st :=
    mkLoop (loop_data st) (newArticleCount st) (totalFetched st + Z.of_nat (length articles)) in
  mret (fold_left (mergeArticle journal) articles st).

(** [for (const journal of enabledJournals) { try { ... } catch (error) { console.error(...) } }].
    The call of the adapter is the first statement of the block and the only
    one that throws, so the handler goes on with the variables as they were
    when the block was entered. *)
Fixpoint syncLoop (settings : JournalMonitorSettings.t) (from to : string)
    (journals : list JournalConfig.t) (st : LoopState) : JS.outcome LoopState :=
  match journals with
  | [] => mret st
  | journal :: rest =>
      st' ← JS.try_catch (fetchJournal settings from to st journal) (fun _ => mret st);
      syncLoop settings from to rest st'
  end.

(** The window of the pass:
    [getDateRange('custom', this.getDateDaysAgo(lookbackDays), today)], which
    answers [customFrom || today] and [customTo || today]. *)
Definition syncTo : string :=
  let today := Api.beforeT (Clock.nowISO startClock) in
  JS.or_str (Some today) today.

Definition syncFrom (settings : JournalMonitorSettings.t) : string :=
  let today := Api.beforeT (Clock.nowISO startClock) in
  JS.or_str (Some (getDateDaysAgo (JournalMonitorSettings.lookbackDays settings))) today.

(** The articles that the backfill is run on: no abstract, fetched at the
    instant of [lastFetch]. *)
Definition needsBackfill (lastFetch : string) (a : Article.t) : bool :=
  negb (JS.truthy_str (Article.abstract_ a)) && String.eqb (Article.fetchedAt a) lastFetch.

(** backfillAbstracts changes the selected articles in place, and these are
    the objects of the collection. *)
Definition backfillStore (lastFetch : string) (articles : gmap string Article.t) :
    gmap string Article.t :=
  (fun a => if needsBackfill lastFetch a then Api.backfillOne fetchAbstractFromCrossRef a else a)
    <$> articles.

(** fetchArticles up to the point where the data is handed to the host for
    saving and the badge and status bar are redrawn. *)
Definition fetchArticles (settings : JournalMonitorSettings.t) (data : JournalMonitorData.t) :
    JS.outcome SyncResult :=
  let enabledJournals := List.filter JournalConfig.enabled (JournalMonitorSettings.journals settings) in
  if (length enabledJournals =? 0)%nat then
    mret (mkSync data [notice_no_journals] 0 0)
  else
    let from := syncFrom settings in
    let to := syncTo in
    st ← syncLoop settings from to enabledJournals (mkLoop data 0 0);
    let data := loop_data st in
    let lastFetch := Clock.nowISO endClock in
    let data := Store.set_lastFetch (Some lastFetch) data in
    let stats := JournalMonitorData.statistics data in
    let data :=
      Store.set_statistics
        (Store.set_totalFetched (Statistics.totalFetched stats + newArticleCount st) stats) data in
    let data :=
      if (0 <? newArticleCount st)
         && match JournalMonitorSettings.apiProvider settings with
            | openalex => true
            | crossref => false
            end
      then Store.set_articles (backfillStore lastFetch (JournalMonitorData.articles data)) data
      else data in
    let notices :=
      if JournalMonitorSettings.notifyOnNewArticles settings && (0 <? newArticleCount st)
      then [notice_found (newArticleCount st)]
      else if newArticleCount st =? 0 then [notice_none_found] else [] in
    mret (mkSync data (notice_fetching (length enabledJournals) :: notices)
            (newArticleCount st) (totalFetched st)).

End sync.

End Main.

(** ** views/BrowseView.ts: the triage actions *)

Module BrowseView.

Inductive Notice : Type :=
  | notice_saved (text : string)
  | notice_error_saving.

(** The fields of the view that the actions read and write.  An element of
    [articles] is the very object that the collection holds under its
    identifier: a field written through one is seen through the other, so
    an action writes the changed record to both places. *)
Record t : Type := mk {
  settings : JournalMonitorSettings.t;
  data : JournalMonitorData.t;
  articles : list Article.t;
  currentIndex : nat;
  notices : list Notice
}.

Definition showsUnseenOnly (v : t) : bool :=
  String.eqb
    (ShowState_str (FilterConfig.showState (JournalMonitorSettings.currentFilter (settings v))))
    "unseen".

(** [this.articles.splice(this.currentIndex, 1)] and the clamping of the
    index that follows it. *)
Definition spliceCurrent (articles : list Article.t) (currentIndex : nat) : list Article.t * nat :=
  let articles := delete currentIndex articles in
  if (length articles <=? currentIndex)%nat
  then (articles, Nat.max 0 (length articles - 1))
  else (articles, currentIndex).

Section actions.

(** The note writer: the location of the note, or a rejection. *)
Variable saveArticleNote : Article.t -> JS.outcome string.
Variable clock : Clock.t.

Definition saveArticle (v : t) : t :=
  if (length (articles v) =? 0)%nat then v
  else
    match articles v !! currentIndex v with
    | None => v
    | Some article =>
        match saveArticleNote article with
        | JS.Throw _ =>
            (* catch: console.error and a notice *)
            mk (settings v) (data v) (articles v) (currentIndex v)
               (notices v ++ [notice_error_saving])
        | JS.Ok path =>
            let article :=
              Article.set_savedPath (Some path)
                (Article.set_savedAt (Some (Clock.nowISO clock))
                   (Article.set_state saved article)) in
            let d := data v in
            let d :=
              Store.set_articles
                (JS.assign (Article.doi article) article (JournalMonitorData.articles d)) d in
            let stats := JournalMonitorData.statistics d in
            let stats := Store.set_totalSaved (Statistics.totalSaved stats + 1) stats in
            let stats :=
              Store.set_byJournal
                (Store.bumpJournal (Article.journalIssn article) JournalStats.incr_saved
                   (Statistics.byJournal stats)) stats in
            let d := Store.set_statistics stats d in
            let shown := <[currentIndex v := article]> (articles v) in
            let note := notice_saved ("Saved: " +:+ JS.substring0 50 (Article.title article) +:+ "...") in
            let (shown, index) :=
              if showsUnseenOnly v then spliceCurrent shown (currentIndex v)
              else (shown, currentIndex v) in
            mk (settings v) d shown index (notices v ++ [note])
        end
    end.

(** [this.savePosition()]. *)
Definition savePosition (d : JournalMonitorData.t) (shown : list Article.t) (index : nat) :
    JournalMonitorData.t :=
  let pos := JournalMonitorData.browsePosition d in
  let pos := BrowsePosition.mk (BrowsePosition.currentDoi pos) (BrowsePosition.filterHash pos) index in
  let pos :=
    if (0 <? length shown)%nat
    then
      BrowsePosition.mk
        (match Article.doi <$> shown !! index with
         | Some (String c s) => Some (String c s)
         | _ => None
         end)
        (BrowsePosition.filterHash pos) (BrowsePosition.scrollIndex pos)
    else pos in
  Store.set_browsePosition pos d.

Definition skipArticle (v : t) : t :=
  if (length (articles v) =? 0)%nat then v
  else
    match articles v !! currentIndex v with
    | None => v
    | Some article =>
        let article := Article.set_state skipped article in
        let d := data v in
        let d :=
          Store.set_articles
            (JS.assign (Article.doi article) article (JournalMonitorData.articles d)) d in
        let stats := JournalMonitorData.statistics d in
        let stats := Store.set_totalSkipped (Statistics.totalSkipped stats + 1) stats in
        let stats :=
          Store.set_byJournal
            (Store.bumpJournal (Article.journalIssn article) JournalStats.incr_skipped
               (Statistics.byJournal stats)) stats in
        let d := Store.set_statistics stats d in
        let shown := <[currentIndex v := article]> (articles v) in
        let (shown, index) :=
          if showsUnseenOnly v then spliceCurrent shown (currentIndex v)
          else
            let index := S (currentIndex v) in
            if (length shown <=? index)%nat then (shown, (length shown - 1)%nat)
            else (shown, index) in
        mk (settings v) (savePosition d shown index) shown index (notices v)
    end.

End actions.

Section navigation.

Variable clock : Clock.t.

(** [this.markViewed()]: the current article, when unseen, becomes viewed. *)
Definition markViewed (v : t) : t :=
  if (length (articles v) =? 0)%nat then v
  else
    match articles v !! currentIndex v with
    | None => v
    | Some article =>
        if String.eqb (ArticleState_str (Article.state article)) "unseen"
        then
          let article :=
            Article.set_viewedAt (Some (Clock.nowISO clock)) (Article.set_state viewed article) in
          let d := data v in
          let d :=
            Store.set_articles
              (JS.assign (Article.doi article) article (JournalMonitorData.articles d)) d in
          mk (settings v) d (<[currentIndex v := article]> (articles v)) (currentIndex v)
             (notices v)
        else v
    end.

(** The steps shared by nextArticle and prevArticle once the index has
    moved: the card is drawn, the article marked as viewed, the position
    saved. *)
Definition showCurrent (v : t) : t :=
  let v := markViewed v in
  mk (settings v) (savePosition (data v) (articles v) (currentIndex v)) (articles v)
     (currentIndex v) (notices v).

(** nextArticle; the second component is the text of the notice shown when
    the view does not move.  [currentIndex < articles.length - 1] is
    [currentIndex + 1 < articles.length]. *)
Definition nextArticle (v : t) : t * option string :=
  if (S (currentIndex v) <? length (articles v))%nat
  then
    (showCurrent (mk (settings v) (data v) (articles v) (S (currentIndex v)) (notices v)), None)
  else (v, Some "No more articles").

Definition prevArticle (v : t) : t * option string :=
  if (0 <? currentIndex v)%nat
  then
    (showCurrent (mk (settings v) (data v) (articles v) (currentIndex v - 1)%nat (notices v)),
     None)
  else (v, Some "Already at first article").

(** onOpen, but for the drawing: the current article is marked as viewed. *)
Definition onOpen (v : t) : t := markViewed v.

End navigation.

(** onClose: the position is saved. *)
Definition onClose (v : t) : t :=
  mk (settings v) (savePosition (data v) (articles v) (currentIndex v)) (articles v)
     (currentIndex v) (notices v).

Section construction.

Variable getTime : string -> option Z.
Variable localeCompare : string -> string -> Z.

(** The constructor.  [values] is [Object.values(data.articles)]. *)
Definition create (values : list Article.t) (settings : JournalMonitorSettings.t)
    (data : JournalMonitorData.t) : t :=
  let articles :=
    Utils.filterArticles getTime localeCompare values
      (JournalMonitorSettings.currentFilter settings)
      (List.filter JournalConfig.enabled (JournalMonitorSettings.journals settings)) in
  let index := BrowsePosition.scrollIndex (JournalMonitorData.browsePosition data) in
  mk settings data articles (if (length articles <=? index)%nat then 0%nat else index) [].

End construction.

(** What the user does in an open view; an action carries the reading of
    the clock at its time. *)
Inductive Action : Type :=
  | Next (clock : Clock.t)
  | Prev (clock : Clock.t)
  | Save (clock : Clock.t)
  | Skip.

Section session.

Variable saveArticleNote : Article.t -> JS.outcome string.

Definition step (v : t) (act : Action) : t :=
  match act with
  | Next clock => fst (nextArticle clock v)
  | Prev clock => fst (prevArticle clock v)
  | Save clock => saveArticle saveArticleNote clock v
  | Skip => skipArticle v
  end.

Definition run (acts : list Action) (v : t) : t := fold_left step acts v.

End session.

End BrowseView.

(** ** views/DiscoveryView.ts: saving a search result *)

Module DiscoveryView.

Section actions.

Variable saveArticleNote : Article.t -> JS.outcome string.
Variable clock : Clock.t.

(** saveResult on the data; the second component is the text of the notice. *)
Definition saveResult (data : JournalMonitorData.t) (article : Article.t) :
    JournalMonitorData.t * string :=
  match saveArticleNote article with
  | JS.Throw _ => (data, "Error saving article")
  | JS.Ok path =>
      let article :=
        Article.set_savedPath (Some path)
          (Article.set_savedAt (Some (Clock.nowISO clock)) (Article.set_state saved article)) in
      let d :=
        Store.set_articles
          (JS.assign (Article.doi article) article (JournalMonitorData.articles data)) data in
      let stats := JournalMonitorData.statistics d in
      let d := Store.set_statistics (Store.set_totalSaved (Statistics.totalSaved stats + 1) stats) d in
      (d, "Saved: " +:+ JS.substring0 50 (Article.title article) +:+ "...")
  end.

End actions.

End DiscoveryView.

(** ** views/FilterModal.ts: the edits of the filter *)

Module FilterModal.

(** Whether the checkbox of a journal is ticked when the dialog opens. *)
Definition isChecked (journals : list string) (issn : string) : bool :=
  (length journals =? 0)%nat || existsb (String.eqb issn) journals.

(** The change handler of the checkbox of a journal. *)
Definition toggleJournal (checked : bool) (issn : string) (journals : list string) : list string :=
  if checked
  then if negb (existsb (String.eqb issn) journals) then journals ++ [issn] else journals
  else List.filter (fun i => negb (String.eqb i issn)) journals.

(** The buttons 'Select All' and 'None'. *)
Definition selectAll (settings : JournalMonitorSettings.t) : list string :=
  map JournalConfig.issn (List.filter JournalConfig.enabled (JournalMonitorSettings.journals settings)).

Definition selectNone : list string := [].

(** The keyword field: what it shows, and what is read from it,
    [value.split(',').map(k => k.trim()).filter(k => k)]. *)
Definition showKeywords (keywords : list string) : string := JS.join ", " keywords.

Definition parseKeywords (value : string) : list string :=
  List.filter (fun k => JS.truthy_str (Some k)) (map JS.trim (JS.splitOn "," value)).

End FilterModal.

(** ** Invariants of the data and of an open view *)

Module Inv.

(** Every record is stored under its own identifier. *)
Definition keyed (articles : gmap string Article.t) : Prop :=
  forall k a, articles !! k = Some a -> Article.doi a = k.

(** The current index points at an article, or the view is empty and the
    index is 0. *)
Definition inBounds (v : BrowseView.t) : Prop :=
  (BrowseView.currentIndex v < length (BrowseView.articles v))%nat
  \/ (BrowseView.articles v = [] /\ BrowseView.currentIndex v = 0%nat).

(** The articles of the view are the records of the collection, each shown
    once. *)
Definition coherent (v : BrowseView.t) : Prop :=
  NoDup (map Article.doi (BrowseView.articles v))
  /\ forall a, In a (BrowseView.articles v) ->
               JournalMonitorData.articles (BrowseView.data v) !! Article.doi a = Some a.

(** The three tests of filterArticles on one article. *)
Definition kept (filter : FilterConfig.t) (allJournals : list JournalConfig.t) (a : Article.t) : bool :=
  (String.eqb (ShowState_str (FilterConfig.showState filter)) "all"
   || Utils.matches_state filter a)
  && Utils.matches_journal (Utils.enabledIssns filter allJournals) a
  && ((length (FilterConfig.keywords filter) =? 0)%nat
      || Utils.matches_keywords filter (map JS.toLowerCase (FilterConfig.keywords filter)) a).

(** The comparator that filterArticles sorts with. *)
Definition comparator (getTime : string -> option Z) (localeCompare : string -> string -> Z)
    (filter : FilterConfig.t) (a b : Article.t) : Z :=
  match FilterConfig.sortBy filter with
  | sort_date_desc => Utils.time_diff (getTime (Article.date b)) (getTime (Article.date a))
  | sort_date_asc => Utils.time_diff (getTime (Article.date a)) (getTime (Article.date b))
  | sort_journal => localeCompare (Article.journal a) (Article.journal b)
  end.

(** A comparator that orders the elements of a list consistently. *)
Definition consistentOn {A : Type} (cmp : A -> A -> Z) (l : list A) : Prop :=
  (forall x y, In x l -> In y l -> JS.cmp_le cmp x y \/ JS.cmp_le cmp y x)
  /\ (forall x y z, In x l -> In y l -> In z l ->
                    JS.cmp_le cmp x y -> JS.cmp_le cmp y z -> JS.cmp_le cmp x z).

(** From [v] to [v']: either the collection and the shown articles are as
    they were, or the record of one shown article is replaced, in the view
    and, by an assignment under its identifier, in the collection, by a
    record with the same identifier and the same journal, and the article
    is possibly taken off the view. *)
Definition updatesOne (v v' : BrowseView.t) : Prop :=
  (JournalMonitorData.articles (BrowseView.data v')
   = JournalMonitorData.articles (BrowseView.data v)
   /\ BrowseView.articles v' = BrowseView.articles v)
  \/ exists i a a',
       BrowseView.articles v !! i = Some a
       /\ Article.doi a' = Article.doi a
       /\ Article.journalIssn a' = Article.journalIssn a
       /\ JournalMonitorData.articles (BrowseView.data v')
          = JS.assign (Article.doi a) a' (JournalMonitorData.articles (BrowseView.data v))
       /\ (BrowseView.articles v' = <[i := a']> (BrowseView.articles v)
           \/ BrowseView.articles v' = delete i (<[i := a']> (BrowseView.articles v))).

(** The counter of a journal, 0 when the journal has no entry. *)
Definition counterOf (counter : JournalStats.t -> Z) (byJournal : gmap string JournalStats.t)
    (issn : string) : Z :=
  counter (default JournalStats.zero (byJournal !! issn)).

(** The sum of a counter over the journals. *)
Definition total (counter : JournalStats.t -> Z) (byJournal : gmap string JournalStats.t) : Z :=
  map_fold (fun _ counters acc => counter counters + acc) 0 byJournal.

(** The actions that only move through the view. *)
Definition isMove (act : BrowseView.Action) : bool :=
  match act with
  | BrowseView.Next _ | BrowseView.Prev _ => true
  | _ => false
  end.

Definition movesOnly (acts : list BrowseView.Action) : Prop := forallb isMove acts = true.

(** How often a session saves and skips. *)
Definition saves (acts : list BrowseView.Action) : Z :=
  Z.of_nat (length (List.filter (fun act => match act with
                                            | BrowseView.Save _ => true
                                            | _ => false
                                            end) acts)).

Definition skips (acts : list BrowseView.Action) : Z :=
  Z.of_nat (length (List.filter (fun act => match act with
                                            | BrowseView.Skip => true
                                            | _ => false
                                            end) acts)).

(** From [s] to [s']: nothing is fetched, [ds] articles are saved and [dk]
    skipped, in the totals as in the sums over the journals, and no counter
    of a journal goes down. *)
Definition grows (ds dk : Z) (s s' : Statistics.t) : Prop :=
  Statistics.totalFetched s' = Statistics.totalFetched s
  /\ Statistics.totalSaved s' = Statistics.totalSaved s + ds
  /\ Statistics.totalSkipped s' = Statistics.totalSkipped s + dk
  /\ total JournalStats.fetched (Statistics.byJournal s')
     = total JournalStats.fetched (Statistics.byJournal s)
  /\ total JournalStats.saved (Statistics.byJournal s')
     = total JournalStats.saved (Statistics.byJournal s) + ds
  /\ total JournalStats.skipped (Statistics.byJournal s')
     = total JournalStats.skipped (Statistics.byJournal s) + dk
  /\ forall issn,
       counterOf JournalStats.fetched (Statistics.byJournal s') issn
       = counterOf JournalStats.fetched (Statistics.byJournal s) issn
       /\ counterOf JournalStats.saved (Statistics.byJournal s) issn
          <= counterOf JournalStats.saved (Statistics.byJournal s') issn
       /\ counterOf JournalStats.skipped (Statistics.byJournal s) issn
          <= counterOf JournalStats.skipped (Statistics.byJournal s') issn.

(** What the loop of a pass keeps of the invariants of the data. *)
Definition loopKeeps (st st' : Main.LoopState) : Prop :=
  let d := Main.loop_data st in
  let d' := Main.loop_data st' in
  let bj := Statistics.byJournal (JournalMonitorData.statistics d) in
  let bj' := Statistics.byJournal (JournalMonitorData.statistics d') in
  (Inv.keyed (JournalMonitorData.articles d) -> Inv.keyed (JournalMonitorData.articles d'))
  /\ Inv.total JournalStats.fetched bj' - Main.newArticleCount st'
     = Inv.total JournalStats.fetched bj - Main.newArticleCount st
  /\ Inv.total JournalStats.saved bj' = Inv.total JournalStats.saved bj
  /\ Inv.total JournalStats.skipped bj' = Inv.total JournalStats.skipped bj
  /\ Statistics.totalFetched (JournalMonitorData.statistics d')
     = Statistics.totalFetched (JournalMonitorData.statistics d)
  /\ Statistics.totalSaved (JournalMonitorData.statistics d')
     = Statistics.totalSaved (JournalMonitorData.statistics d)
  /\ Statistics.totalSkipped (JournalMonitorData.statistics d')
     = Statistics.totalSkipped (JournalMonitorData.statistics d)
  /\ Main.newArticleCount st <= Main.newArticleCount st'.

(** The totals agree with the sums of the counters of the journals. *)
Definition consistent (stats : Statistics.t) : Prop :=
  Statistics.totalFetched stats = total JournalStats.fetched (Statistics.byJournal stats)
  /\ Statistics.totalSaved stats = total JournalStats.saved (Statistics.byJournal stats)
  /\ Statistics.totalSkipped stats = total JournalStats.skipped (Statistics.byJournal stats).

End Inv.

(** ** Notions of the specification *)

Module Spec.

(** The merge of one fetched article into the collection: inserted only
    when its identifier is not a key yet. *)
Definition insertIfAbsent (articles : gmap string Article.t) (a : Article.t) :
    gmap string Article.t :=
  match articles !! Article.doi a with
  | Some _ => articles
  | None => <[Article.doi a := a]> articles
  end.

(** The fetched articles that a pass can store: those whose identifier is
    no name of Object.prototype. *)
Definition storable (l : list Article.t) : list Article.t :=
  List.filter (fun a => negb (JS.inherited (Article.doi a))) l.

(** The identifiers of a list of articles. *)
Definition identifiers (l : list Article.t) : gset string :=
  list_to_set (map Article.doi l).

(** Two records that agree on every field but the abstract. *)
Definition sameButAbstract (a b : Article.t) : Prop :=
  a = Article.set_abstract (Article.abstract_ a) b.

(** The keyword preference chain in the words of the specification:
    concepts scoring above 0.3 (at most 8) when there are any, else topics
    scoring above 0.3 (at most 8) when there are any, else the raw keyword
    list, else nothing. *)
Definition keywordChain (work : OpenAlexWork.t) : list string :=
  match Api.scored_names (default [] (OpenAlexWork.concepts work)) with
  | c :: cs => c :: cs
  | [] =>
      match Api.scored_names (default [] (OpenAlexWork.topics work)) with
      | t :: ts => t :: ts
      | [] => default [] (OpenAlexWork.keywords work)
      end
  end.

(** A day in the form YYYY-MM-DD: ten code units, digits but for the two
    hyphens. *)
Definition isDigit (c : ascii) : bool :=
  let n := nat_of_ascii c in ((48 <=? n) && (n <=? 57))%nat.

Definition isIsoDay (s : string) : bool :=
  match list_ascii_of_string s with
  | [y1; y2; y3; y4; h1; m1; m2; h2; d1; d2] =>
      forallb isDigit [y1; y2; y3; y4; m1; m2; d1; d2]
      && Ascii.eqb h1 "-" && Ascii.eqb h2 "-"
  | _ => false
  end.

(** Two code units that are the same up to the case of a letter: equal, or
    the capital and the small form of one letter, of A-Z or of the Latin-1
    letters from A-grave to Thorn (the multiplication sign between them is
    no letter). *)
Definition isCapital (n : nat) : bool :=
  ((65 <=? n) && (n <=? 90) || (192 <=? n) && (n <=? 222) && negb (n =? 215))%nat.

Definition sameLetter (c d : ascii) : bool :=
  let m := nat_of_ascii c in
  let n := nat_of_ascii d in
  ((m =? n) || isCapital m && (n =? m + 32) || isCapital n && (m =? n + 32))%nat.

(** Two texts that are the same up to the case of their letters. *)
Fixpoint sameIgnoringCase (s t : string) : bool :=
  match s, t with
  | EmptyString, EmptyString => true
  | String c s', String d t' => sameLetter c d && sameIgnoringCase s' t'
  | _, _ => false
  end.

(** A keyword occurs in a text, case-insensitively: some stretch of the
    text is the keyword up to the case of the letters. *)
Definition occursIgnoringCase (kw text : string) : Prop :=
  exists pre mid post, text = pre +:+ mid +:+ post /\ sameIgnoringCase mid kw = true.

(** The text that the keyword filter searches, before lower-casing: the
    title alone, or the title, the abstract (empty when absent) and the
    keyword list. *)
Definition searchedText (filter : FilterConfig.t) (a : Article.t) : string :=
  if FilterConfig.searchInAbstracts filter
  then Article.title a +:+ " " +:+ default "" (Article.abstract_ a) +:+ " "
       +:+ JS.join " " (default [] (Article.keywords a))
  else Article.title a.

End Spec.

(** ** Concrete inputs used by the examples below *)

Module Sample.

Definition emptyWork : OpenAlexWork.t :=
  OpenAlexWork.mk "W1" (Some "https://doi.org/10.1000/j.1") (Some "Forest") (Some "Forest")
    (Some "2024-03-01") (Some 2024) None None None None None None None.

Definition set_concepts_topics (cs ts : option (list Scored.t)) (w : OpenAlexWork.t) : OpenAlexWork.t :=
  OpenAlexWork.mk (OpenAlexWork.id w) (OpenAlexWork.doi w) (OpenAlexWork.title w)
    (OpenAlexWork.display_name w) (OpenAlexWork.publication_date w)
    (OpenAlexWork.publication_year w) (OpenAlexWork.authorships w)
    (OpenAlexWork.abstract_inverted_index w) (OpenAlexWork.keywords w)
    (OpenAlexWork.biblio w) (OpenAlexWork.open_access_oa_url w) cs ts.

(** A work whose only concept scores 0.1 and whose only topic scores 0.9. *)
Definition weakConceptWork : OpenAlexWork.t :=
  set_concepts_topics (Some [Scored.mk "Ecology" (1 # 10)])
    (Some [Scored.mk "Lidar" (9 # 10)]) emptyWork.

Definition strongConceptWork : OpenAlexWork.t :=
  set_concepts_topics (Some [Scored.mk "Ecology" (1 # 2); Scored.mk "Botany" (3 # 10)])
    (Some [Scored.mk "Lidar" (9 # 10)]) emptyWork.

Definition clock : Clock.t := Clock.mk "2024-03-02T10:00:00.000Z" 2024.

Definition forest : Article.t :=
  Article.mk "10.1000/j.1" "Forest" ["Doe, Jane"] "Ecography" "0906-7590" None None None
    "2024-03-01" 2024 (Some "biomass lidar") (Some ["canopy"]) "https://doi.org/10.1000/j.1"
    None unseen "2024-03-02T10:00:00.000Z" None None None.

Definition meadow : Article.t :=
  Article.mk "10.1000/j.2" "Meadow" ["Roe, Rick"] "Ecography" "0906-7590" None None None
    "2024-02-01" 2024 None None "https://doi.org/10.1000/j.2"
    None unseen "2024-03-02T10:00:00.000Z" None None None.

Definition ecography : JournalConfig.t :=
  JournalConfig.mk "Ecography" "0906-7590" None "Wiley" true None.

(** Keywords ["lidar"], every enabled journal, unseen articles only. *)
Definition lidarFilter (searchInAbstracts : bool) : FilterConfig.t :=
  FilterConfig.mk range_week None None [] ["lidar"] searchInAbstracts show_unseen sort_date_desc.

Definition abFilter : FilterConfig.t :=
  FilterConfig.mk range_week None None ["A"; "B"] ["lidar"; "biomass"] true show_unseen
    sort_date_desc.

Definition grove : Article.t :=
  Article.mk "10.1000/j.3" "Grove" ["Poe, Pat"] "Oikos" "0030-1299" None None None
    "2024-02-11" 2024 (Some "") None "https://doi.org/10.1000/j.3"
    None unseen "2024-03-02T10:00:05.000Z" None None None.

(** The article [forest] after it was viewed and saved. *)
Definition savedForest : Article.t :=
  Article.set_savedPath (Some "Articles/Doe2024-Forest.md")
    (Article.set_savedAt (Some "2024-03-01T09:00:00.000Z")
       (Article.set_viewedAt (Some "2024-03-01T08:59:00.000Z")
          (Article.set_state saved forest))).

Definition oikos : JournalConfig.t :=
  JournalConfig.mk "Oikos" "0030-1299" None "Wiley" true None.

Definition ecology : JournalConfig.t :=
  JournalConfig.mk "Ecology" "0012-9658" None "ESA" true None.

Definition disabledJournal : JournalConfig.t :=
  JournalConfig.mk "Nature" "0028-0836" None "Nature" false None.

Definition noStatistics : Statistics.t := Statistics.mk 0 0 0 ∅.

(** A collection that holds the saved [forest] and nothing else. *)
Definition data : JournalMonitorData.t :=
  JournalMonitorData.mk "1.0.0" None (<[Article.doi savedForest := savedForest]> ∅)
    (BrowsePosition.mk None "" 0) noStatistics.

Definition settings : JournalMonitorSettings.t :=
  JournalMonitorSettings.mk [ecography; disabledJournal; ecology; oikos] crossref 50 30 None None
    true (lidarFilter false).

(** An adapter that answers for Ecography and Oikos and throws for Ecology. *)
Definition adapter (journal : JournalConfig.t) (from to : string) (rows : Z)
    (email : option string) : JS.outcome (list Article.t) :=
  if String.eqb (JournalConfig.issn journal) "0906-7590" then JS.Ok [forest; meadow]
  else if String.eqb (JournalConfig.issn journal) "0030-1299" then JS.Ok [meadow; grove]
  else JS.Throw "Request failed, status 503".

Definition endClock : Clock.t := Clock.mk "2024-03-02T10:00:05.000Z" 2024.

(** A collection with two unseen articles and no statistics yet, and a
    view that shows them, the first one being current. *)
Definition freshData : JournalMonitorData.t :=
  JournalMonitorData.mk "1.0.0" None
    (<[Article.doi forest := forest]> (<[Article.doi grove := grove]> ∅))
    (BrowsePosition.mk None "" 0) noStatistics.

Definition view : BrowseView.t := BrowseView.mk settings freshData [forest; grove] 0 [].

Definition writer (a : Article.t) : JS.outcome string :=
  JS.Ok ("Articles/" +:+ Article.title a +:+ ".md").

Definition failingWriter (a : Article.t) : JS.outcome string :=
  JS.Throw "ENOSPC: no space left on device".

(** A clock reading of dates: the day count of the three sample dates, and
    NaN for any other text. *)
Definition getTime (date : string) : option Z :=
  if String.eqb date "2024-03-01" then Some 1709251200000
  else if String.eqb date "2024-02-01" then Some 1706745600000
  else if String.eqb date "2024-02-11" then Some 1707609600000
  else None.

Definition localeCompare (a b : string) : Z := JS.default_cmp a b.

(** Every article, every enabled journal, oldest first. *)
Definition allFilter : FilterConfig.t :=
  FilterConfig.mk range_month None None [] [] true show_all sort_date_asc.

(** Settings that show the articles of every state. *)
Definition settingsAll : JournalMonitorSettings.t :=
  JournalMonitorSettings.mk [ecography; disabledJournal; ecology; oikos] crossref 50 30 None None
    true allFilter.

Definition viewAll : BrowseView.t := BrowseView.mk settingsAll freshData [forest; grove] 0 [].

Definition laterClock : Clock.t := Clock.mk "2024-03-02T10:05:00.000Z" 2024.

Definition crossRefWork : CrossRefWork.t :=
  CrossRefWork.mk (Some "10.1000/j.9") (Some ["Canopy height"])
    (Some [CrossRefAuthor.mk (Some "Jane") (Some "Doe") None;
           CrossRefAuthor.mk None None None])
    None (Some [[2024; 3]]) None (Some "12") None (Some "1-9")
    (Some "<jats:p>Tall <i>trees</i>.</jats:p>") None.

End Sample.

(** * Properties *)

(** ** The model on small inputs *)

Example js_sort_stable :
  JS.sort (fun a b : Z * string => fst a - fst b) [(2, "x"); (1, "a"); (2, "y"); (1, "b")]
  = [(1, "a"); (1, "b"); (2, "x"); (2, "y")].
Proof. reflexivity. Qed.

Example js_replace_first : JS.replace "https://doi.org/10.1/x" "https://doi.org/" "" = "10.1/x".
Proof. reflexivity. Qed.

Example js_lower : JS.toLowerCase "Forest LiDAR" = "forest lidar".
Proof. reflexivity. Qed.

Example reconstruct_unordered :
  Api.reconstructAbstract (Some [("fox", [2]); ("the", [0; 3]); ("quick", [1])])
  = Some "the quick fox the".
Proof. reflexivity. Qed.

Example hash_of_sample_filter : Utils.hashFilterConfig Sample.abFilter = "n8tywv".
Proof. vm_compute. reflexivity. Qed.

Example authors_last_moves_back :
  Api.formatOpenAlexAuthors
    [Authorship.mk "L" (Some "last"); Authorship.mk "A" (Some "first");
     Authorship.mk "B" None; Authorship.mk "C" (Some "middle")]
  = ["A"; "B"; "C"; "L"].
Proof. reflexivity. Qed.

Example sync_of_sample :
  Main.sync_notices
    <$> (match Main.fetchArticles Sample.adapter Sample.adapter (fun _ => None)
                 (fun _ => "2024-02-01") Sample.clock Sample.endClock Sample.settings Sample.data with
         | JS.Ok r => Some r
         | JS.Throw _ => None
         end)
  = Some [Main.notice_fetching 3; Main.notice_found 2].
Proof. vm_compute. reflexivity. Qed.

(** ** Facts about the JavaScript primitives *)

Section sort_facts.
Context {A : Type} (cmp : A -> A -> Z).

Lemma sort_insert_perm (x : A) (l : list A) :
  Permutation (JS.sort_insert cmp x l) (x :: l).
Proof.
  induction l as [|y l IH]; simpl; [reflexivity|].
  destruct (cmp x y <=? 0); [reflexivity|].
  rewrite IH. apply perm_swap.
Qed.

Lemma sort_perm (l : list A) : Permutation (JS.sort cmp l) l.
Proof.
  induction l as [|x l IH]; simpl; [reflexivity|].
  rewrite sort_insert_perm. by constructor.
Qed.

Lemma sort_In (x : A) (l : list A) : In x (JS.sort cmp l) <-> In x l.
Proof.
  split; apply Permutation_in; [|symmetry]; apply sort_perm.
Qed.

Hypothesis cmp_total : forall x y, JS.cmp_le cmp x y \/ JS.cmp_le cmp y x.
Hypothesis cmp_trans : forall x y z, JS.cmp_le cmp x y -> JS.cmp_le cmp y z -> JS.cmp_le cmp x z.

Lemma sort_insert_sorted (x : A) (l : list A) :
  StronglySorted (JS.cmp_le cmp) l -> StronglySorted (JS.cmp_le cmp) (JS.sort_insert cmp x l).
Proof.
  induction 1 as [|y l Hl IH Hy]; simpl.
  - repeat constructor.
  - destruct (Z.leb_spec (cmp x y) 0) as [Hxy|Hxy].
    + constructor; [by constructor|].
      constructor; [exact Hxy|].
      eapply Forall_impl; [exact Hy|]. intros z Hz. by eapply cmp_trans.
    + constructor; [exact IH|].
      eapply Permutation_Forall; [symmetry; apply sort_insert_perm|].
      constructor; [|exact Hy].
      destruct (cmp_total x y) as [H|H]; [unfold JS.cmp_le in H; lia|exact H].
Qed.

Lemma sort_sorted (l : list A) : StronglySorted (JS.cmp_le cmp) (JS.sort cmp l).
Proof.
  induction l as [|x l IH]; simpl; [constructor|].
  by apply sort_insert_sorted.
Qed.

End sort_facts.

Lemma StronglySorted_weaken {A : Type} (R S : A -> A -> Prop) (l : list A) :
  (forall x y, R x y -> S x y) -> StronglySorted R l -> StronglySorted S l.
Proof.
  intros HRS. induction 1 as [|x l Hl IH Hx]; constructor; [exact IH|].
  eapply Forall_impl; [exact Hx|]. intros y. apply HRS.
Qed.

(** A comparator that subtracts two integer keys is a total preorder. *)
Lemma key_sort_sorted {A : Type} (key : A -> Z) (l : list A) :
  StronglySorted (fun a b => key a <= key b) (JS.sort (fun a b => key a - key b) l).
Proof.
  apply (StronglySorted_weaken (JS.cmp_le (fun a b => key a - key b))).
  - unfold JS.cmp_le. intros a b H. lia.
  - apply sort_sorted; unfold JS.cmp_le; intros; lia.
Qed.

(** *** Substrings *)

Lemma append_cons (c : ascii) (s t : string) : String c s +:+ t = String c (s +:+ t).
Proof. reflexivity. Qed.

Lemma append_nil_l (s : string) : "" +:+ s = s.
Proof. reflexivity. Qed.

Lemma startsWith_spec (s kw : string) :
  JS.startsWith s kw = true <-> exists post, s = kw +:+ post.
Proof.
  revert s. induction kw as [|k kw IH]; intros s; simpl.
  - split; [intros _; by exists s|done].
  - destruct s as [|c s].
    + split; [done|]. intros [post H]. rewrite append_cons in H. discriminate H.
    + destruct (Ascii.eqb_spec c k) as [->|Hne].
      * rewrite IH. split; intros [post H]; exists post;
          rewrite append_cons in *; congruence.
      * split; [done|]. intros [post H]. rewrite append_cons in H. congruence.
Qed.

(** [includes] finds exactly the occurrences as a substring. *)
Lemma includes_spec (s kw : string) :
  JS.includes s kw = true <-> exists pre post, s = pre +:+ kw +:+ post.
Proof.
  induction s as [|c s IH]; simpl.
  - rewrite orb_false_r, startsWith_spec. split.
    + intros [post H]. by exists "", post.
    + intros [pre [post H]]. destruct pre; [by exists post|].
      rewrite append_cons in H. discriminate H.
  - rewrite orb_true_iff, startsWith_spec, IH. split.
    + intros [[post H]|[pre [post H]]].
      * by exists "", post.
      * exists (String c pre), post. rewrite append_cons. by rewrite H.
    + intros [pre [post H]]. destruct pre as [|c' pre].
      * left. by exists post.
      * right. exists pre, post. rewrite append_cons in H. congruence.
Qed.

(** *** The default order of strings *)

Lemma N_of_ascii_inj (a b : ascii) : N_of_ascii a = N_of_ascii b -> a = b.
Proof. intros H. rewrite <- (ascii_N_embedding a), <- (ascii_N_embedding b). by rewrite H. Qed.

Lemma str_compare_eq (s t : string) : JS.str_compare s t = Eq -> s = t.
Proof.
  revert t. induction s as [|a s IH]; intros [|b t]; simpl; try done.
  destruct (N.compare_spec (N_of_ascii a) (N_of_ascii b)) as [H|H|H]; try done.
  intros Hst. apply N_of_ascii_inj in H. f_equal; [exact H|by apply IH].
Qed.

Lemma str_compare_antisym (s t : string) :
  JS.str_compare t s = CompOpp (JS.str_compare s t).
Proof.
  revert t. induction s as [|a s IH]; intros [|b t]; simpl; try done.
  rewrite (N.compare_antisym (N_of_ascii a) (N_of_ascii b)).
  destruct (N_of_ascii a ?= N_of_ascii b)%N; simpl; [apply IH|done|done].
Qed.

Lemma str_compare_lt_trans (s t u : string) :
  JS.str_compare s t = Lt -> JS.str_compare t u = Lt -> JS.str_compare s u = Lt.
Proof.
  revert t u. induction s as [|a s IH]; intros [|b t] [|c u]; simpl; try done.
  destruct (N.compare_spec (N_of_ascii a) (N_of_ascii b)) as [Hab|Hab|Hab];
    destruct (N.compare_spec (N_of_ascii b) (N_of_ascii c)) as [Hbc|Hbc|Hbc];
    try done; intros H1 H2.
  - rewrite Hab, Hbc, N.compare_refl. by eapply IH.
  - rewrite Hab. by apply N.compare_lt_iff in Hbc as ->.
  - rewrite <- Hbc. by apply N.compare_lt_iff in Hab as ->.
  - assert (N_of_ascii a < N_of_ascii c)%N as Hac by lia.
    by apply N.compare_lt_iff in Hac as ->.
Qed.

Lemma str_le_alt (s t : string) : JS.str_le s t <-> JS.str_compare s t <> Gt.
Proof.
  unfold JS.str_le, JS.cmp_le, JS.default_cmp. destruct (JS.str_compare s t); split; try done; lia.
Qed.

Lemma str_le_total (s t : string) : JS.str_le s t \/ JS.str_le t s.
Proof.
  rewrite !str_le_alt, (str_compare_antisym s t).
  destruct (JS.str_compare s t); simpl; auto.
Qed.

Lemma str_le_trans (s t u : string) : JS.str_le s t -> JS.str_le t u -> JS.str_le s u.
Proof.
  rewrite !str_le_alt. intros H1 H2.
  destruct (JS.str_compare s t) eqn:Est; [| |done].
  - by apply str_compare_eq in Est as ->.
  - destruct (JS.str_compare t u) eqn:Etu; [| |done].
    + apply str_compare_eq in Etu as <-. by rewrite Est.
    + by rewrite (str_compare_lt_trans s t u).
Qed.

Lemma str_le_antisym (s t : string) : JS.str_le s t -> JS.str_le t s -> s = t.
Proof.
  rewrite !str_le_alt, (str_compare_antisym s t).
  destruct (JS.str_compare s t) eqn:E; simpl; [|done|done].
  intros _ _. by apply str_compare_eq.
Qed.

(** The default sort depends on the elements of an array only, not on their
    order. *)
Lemma sort_default_perm_eq (l1 l2 : list string) :
  Permutation l1 l2 -> JS.sort_default l1 = JS.sort_default l2.
Proof.
  intros Hperm. unfold JS.sort_default.
  apply (StronglySorted_unique_strong JS.str_le).
  - intros x1 x2 _ _. apply str_le_antisym.
  - apply (sort_sorted JS.default_cmp); [apply str_le_total|apply str_le_trans].
  - apply (sort_sorted JS.default_cmp); [apply str_le_total|apply str_le_trans].
  - rewrite !sort_perm. exact Hperm.
Qed.

(** ** api.ts *)

Lemma flattenIndex_In (idx : list (string * list Z)) (w : string) (p : Z) :
  In (w, p) (Api.flattenIndex idx) <-> exists ps, In (w, ps) idx /\ In p ps.
Proof.
  unfold Api.flattenIndex. rewrite in_flat_map. split.
  - intros [[w' ps] [Hin Hp]]. simpl in Hp. apply in_map_iff in Hp as [q [Heq Hq]].
    injection Heq as -> ->. by exists ps.
  - intros [ps [Hin Hp]]. exists (w, ps). split; [exact Hin|].
    simpl. apply in_map_iff. by exists p.
Qed.

(** C3: for every inverted index, reconstructAbstract answers with the words
    of the flattened (word, position) pairs, put in ascending order of
    position and joined by single spaces: the pairs are exactly those of the
    index, the reordering is a permutation of them that is sorted by
    position; and the index {the:[0], quick:[1], fox:[2]} gives
    "the quick fox". *)
Theorem reconstructAbstract_sorted_by_position :
  (forall idx : list (string * list Z),
     (forall w p, In (w, p) (Api.flattenIndex idx) <-> exists ps, In (w, ps) idx /\ In p ps)
     /\ exists words : list (string * Z),
          Permutation words (Api.flattenIndex idx)
          /\ StronglySorted (fun a b => snd a <= snd b) words
          /\ Api.reconstructAbstract (Some idx) = Some (JS.join " " (map fst words)))
  /\ Api.reconstructAbstract (Some [("the", [0]); ("quick", [1]); ("fox", [2])])
     = Some "the quick fox".
Proof.
  split; [|reflexivity].
  intros idx. split; [intros w p; apply flattenIndex_In|].
  exists (JS.sort (fun a b => snd a - snd b) (Api.flattenIndex idx)).
  split; [apply sort_perm|]. split; [|reflexivity].
  apply (key_sort_sorted snd).
Qed.

(** C4, the claim as stated fails: the empty index is not answered with
    undefined. *)
Lemma reconstructAbstract_empty_index_not_undefined :
  ~ (Api.reconstructAbstract None = None /\ Api.reconstructAbstract (Some []) = None).
Proof. intros [_ H]. discriminate H. Qed.

(** C4, amended: reconstructAbstract answers undefined when the index is
    absent; for an index that is present it always answers a string, and for
    the empty index that string is the empty one (which the callers, testing
    the abstract for truthiness, treat like a missing abstract). *)
Theorem reconstructAbstract_absent_or_empty :
  Api.reconstructAbstract None = None
  /\ Api.reconstructAbstract (Some []) = Some ""
  /\ (forall idx, exists s, Api.reconstructAbstract (Some idx) = Some s)
  /\ JS.truthy_str (Api.reconstructAbstract (Some [])) = false.
Proof.
  repeat split. intros idx. eexists. reflexivity.
Qed.

(** C5, the code at a failing input: the table gives 'first' the rank 0,
    which [|| 1] turns into 1, the rank of 'middle'; a 'first' author listed
    after a 'middle' one therefore stays behind it. *)
Theorem formatOpenAlexAuthors_first_not_moved_forward :
  Api.author_rank (Authorship.mk "F" (Some "first")) = 1
  /\ Api.author_rank (Authorship.mk "M" (Some "middle")) = 1
  /\ Api.formatOpenAlexAuthors
       [Authorship.mk "M" (Some "middle"); Authorship.mk "F" (Some "first")]
     = ["M"; "F"].
Proof. repeat split. Qed.

(** C6, the code at a failing input: a work with the concepts
    [{Ecology, 0.1}] and the topics [{Lidar, 0.9}].  The filter leaves no
    concept, and the empty array that it returns is truthy, so the chain of
    [||] ends there: the article gets no keywords, where the preference
    chain goes on to the topics and gives ["Lidar"].  Whenever the concept
    list is present, the topics and the raw keywords are not looked at. *)
Theorem openAlexToArticle_keywords_stop_at_concepts :
  Article.keywords
  <$> Api.openAlexToArticle Sample.clock Sample.weakConceptWork "Ecography" "0906-7590"
  = Some (Some [])
  /\ Spec.keywordChain Sample.weakConceptWork = ["Lidar"]
  /\ (forall work concepts,
        OpenAlexWork.concepts work = Some concepts ->
        Api.openAlexKeywords work = Api.scored_names concepts).
Proof.
  split; [reflexivity|]. split; [reflexivity|].
  intros work concepts H. unfold Api.openAlexKeywords. by rewrite H.
Qed.

Lemma score_above_spec (c : Scored.t) :
  Api.score_above c = true <-> (3 # 10 < Scored.score c)%Q.
Proof.
  unfold Api.score_above. rewrite negb_true_iff. split.
  - intros E. apply Qnot_le_lt. intros H. apply Qle_bool_iff in H. congruence.
  - intros H. destruct (Qle_bool (Scored.score c) (3 # 10)) eqn:E; [|done].
    apply Qle_bool_iff in E. by apply Qle_not_lt in E.
Qed.

(** Where a concept scores above 0.3 the first step of the chain gives the
    keywords, as the preference chain does. *)
Example openAlexKeywords_strong_concept :
  Api.openAlexKeywords Sample.strongConceptWork = ["Ecology"]
  /\ Spec.keywordChain Sample.strongConceptWork = ["Ecology"].
Proof. by split. Qed.

(** ** utils.ts *)

(** C8: two filter configs that differ only in the order of the elements of
    their journal array and of their keyword array have the same hash. *)
Theorem hashFilterConfig_order_independent (filter : FilterConfig.t)
    (journals keywords : list string) :
  Permutation journals (FilterConfig.journals filter) ->
  Permutation keywords (FilterConfig.keywords filter) ->
  Utils.hashFilterConfig
    (FilterConfig.set_keywords keywords (FilterConfig.set_journals journals filter))
  = Utils.hashFilterConfig filter.
Proof.
  intros Hj Hk. unfold Utils.hashFilterConfig, Utils.hashFilterConfig_str. simpl.
  by rewrite (sort_default_perm_eq _ _ Hj), (sort_default_perm_eq _ _ Hk).
Qed.

Lemma hashFilterConfig_order_independent_witness :
  Utils.hashFilterConfig
    (FilterConfig.set_keywords ["biomass"; "lidar"]
       (FilterConfig.set_journals ["B"; "A"] Sample.abFilter))
  = Utils.hashFilterConfig Sample.abFilter.
Proof.
  apply (hashFilterConfig_order_independent Sample.abFilter ["B"; "A"] ["biomass"; "lidar"]).
  - simpl. apply perm_swap.
  - simpl. apply perm_swap.
Defined.

Lemma existsb_eqb_In (x : string) (l : list string) :
  existsb (String.eqb x) l = true <-> In x l.
Proof.
  rewrite existsb_exists. split.
  - intros [y [Hy E]]. apply String.eqb_eq in E. by subst.
  - intros H. exists x. split; [exact H|apply String.eqb_refl].
Qed.

Lemma matches_state_spec (filter : FilterConfig.t) (a : Article.t) :
  (negb (String.eqb (ShowState_str (FilterConfig.showState filter)) "all") = false
   \/ Utils.matches_state filter a = true)
  <-> (FilterConfig.showState filter = show_all
       \/ ArticleState_str (Article.state a) = ShowState_str (FilterConfig.showState filter)).
Proof.
  unfold Utils.matches_state. rewrite String.eqb_eq.
  destruct (FilterConfig.showState filter); simpl; split; intros [H|H]; auto; discriminate.
Qed.

Lemma searchText_lower (filter : FilterConfig.t) (a : Article.t) :
  Utils.searchText filter a = JS.toLowerCase (Spec.searchedText filter a).
Proof.
  unfold Utils.searchText, Spec.searchedText.
  destruct (FilterConfig.searchInAbstracts filter); [|done].
  by destruct (Article.abstract_ a) as [[|c s]|].
Qed.

Lemma matches_keywords_spec (filter : FilterConfig.t) (a : Article.t) :
  Utils.matches_keywords filter (map JS.toLowerCase (FilterConfig.keywords filter)) a = true
  <-> exists kw pre post,
        In kw (FilterConfig.keywords filter)
        /\ JS.toLowerCase (Spec.searchedText filter a) = pre +:+ JS.toLowerCase kw +:+ post.
Proof.
  unfold Utils.matches_keywords. rewrite existsb_exists, searchText_lower. split.
  - intros [lkw [Hin Hinc]]. apply in_map_iff in Hin as [kw [<- Hkw]].
    apply includes_spec in Hinc as [pre [post H]]. by exists kw, pre, post.
  - intros [kw [pre [post [Hkw H]]]]. exists (JS.toLowerCase kw). split.
    + apply in_map_iff. by exists kw.
    + apply includes_spec. by exists pre, post.
Qed.

Section filter_facts.
Variable getTime : string -> option Z.
Variable localeCompare : string -> string -> Z.

(** Which articles filterArticles keeps. *)
Lemma filterArticles_In (articles : list Article.t) (filter : FilterConfig.t)
    (allJournals : list JournalConfig.t) (a : Article.t) :
  In a (Utils.filterArticles getTime localeCompare articles filter allJournals)
  <-> In a articles
      /\ (FilterConfig.showState filter = show_all
          \/ ArticleState_str (Article.state a) = ShowState_str (FilterConfig.showState filter))
      /\ In (Article.journalIssn a) (Utils.enabledIssns filter allJournals)
      /\ (FilterConfig.keywords filter = []
          \/ exists kw pre post,
               In kw (FilterConfig.keywords filter)
               /\ JS.toLowerCase (Spec.searchedText filter a) = pre +:+ JS.toLowerCase kw +:+ post).
Proof.
  unfold Utils.filterArticles.
  set (byState := if negb _ then _ else _).
  set (byJournal := List.filter _ byState).
  set (byKeyword := if (0 <? _)%nat then _ else _).
  assert (In a byState <-> In a articles /\
          (FilterConfig.showState filter = show_all
           \/ ArticleState_str (Article.state a) = ShowState_str (FilterConfig.showState filter)))
    as HbyState.
  { rewrite <- matches_state_spec. subst byState.
    destruct (negb _); [rewrite filter_In|]; intuition congruence. }
  assert (In a byKeyword <-> In a byJournal /\
          (FilterConfig.keywords filter = []
           \/ exists kw pre post,
                In kw (FilterConfig.keywords filter)
                /\ JS.toLowerCase (Spec.searchedText filter a) = pre +:+ JS.toLowerCase kw +:+ post))
    as HbyKeyword.
  { subst byKeyword. destruct (Nat.ltb_spec 0 (length (FilterConfig.keywords filter))) as [Hlen|Hlen].
    - rewrite filter_In, matches_keywords_spec.
      destruct (FilterConfig.keywords filter); [simpl in Hlen; lia|]. intuition congruence.
    - destruct (FilterConfig.keywords filter); [|simpl in Hlen; lia]. intuition. }
  assert (In a byJournal <-> In a byState /\
          In (Article.journalIssn a) (Utils.enabledIssns filter allJournals)) as HbyJournal.
  { subst byJournal. by rewrite filter_In, <- existsb_eqb_In. }
  destruct (FilterConfig.sortBy filter); rewrite sort_In;
    rewrite HbyKeyword, HbyJournal, HbyState; tauto.
Qed.

End filter_facts.

Lemma toLowerCase_app (s t : string) :
  JS.toLowerCase (s +:+ t) = JS.toLowerCase s +:+ JS.toLowerCase t.
Proof.
  induction s as [|c s IH]; [done|].
  rewrite append_cons. simpl. by rewrite IH.
Qed.

(** *** Case *)

Lemma unit_listed (c : ascii) : In c (map ascii_of_nat (seq 0 256)).
Proof.
  apply in_map_iff. exists (nat_of_ascii c). split; [apply ascii_nat_embedding|].
  apply in_seq. pose proof (nat_ascii_bounded c). lia.
Qed.

(** Lower-casing identifies exactly the code units that are the same letter. *)
Lemma lower_unit_same (c d : ascii) :
  JS.lower_unit c = JS.lower_unit d <-> Spec.sameLetter c d = true.
Proof.
  assert (forallb
            (fun c => forallb
                        (fun d => Bool.eqb (Ascii.eqb (JS.lower_unit c) (JS.lower_unit d))
                                    (Spec.sameLetter c d))
                        (map ascii_of_nat (seq 0 256)))
            (map ascii_of_nat (seq 0 256)) = true) as Hall by (vm_compute; reflexivity).
  rewrite forallb_forall in Hall. specialize (Hall c (unit_listed c)).
  rewrite forallb_forall in Hall. specialize (Hall d (unit_listed d)).
  apply Bool.eqb_prop in Hall. rewrite <- Hall. symmetry. apply Ascii.eqb_eq.
Qed.

Lemma toLowerCase_same (s t : string) :
  JS.toLowerCase s = JS.toLowerCase t <-> Spec.sameIgnoringCase s t = true.
Proof.
  revert t. induction s as [|c s IH]; intros [|d t]; simpl; try (split; intros; discriminate).
  - done.
  - rewrite andb_true_iff, <- lower_unit_same, <- IH. split.
    + intros [= Hc Hs]. by split.
    + intros [-> ->]. done.
Qed.

(** A stretch of a lower-cased text is the lower-cased stretch of the text. *)
Lemma toLowerCase_split (s x y : string) :
  JS.toLowerCase s = x +:+ y ->
  exists s1 s2, s = s1 +:+ s2 /\ JS.toLowerCase s1 = x /\ JS.toLowerCase s2 = y.
Proof.
  revert s. induction x as [|c x IH]; intros s H.
  - exists "", s. by repeat split.
  - rewrite append_cons in H. destruct s as [|d s]; [discriminate|].
    simpl in H. injection H as Hc H. destruct (IH s H) as (s1 & s2 & -> & H1 & H2).
    exists (String d s1), s2. rewrite append_cons. simpl. by rewrite Hc, H1.
Qed.

(** What the substring test on the lower-cased strings decides. *)
Lemma lower_occurs (kw text : string) :
  (exists pre post, JS.toLowerCase text = pre +:+ JS.toLowerCase kw +:+ post)
  <-> Spec.occursIgnoringCase kw text.
Proof.
  unfold Spec.occursIgnoringCase. split.
  - intros (pre' & post' & H).
    apply toLowerCase_split in H as (pre & rest & -> & _ & H).
    apply toLowerCase_split in H as (mid & post & -> & H & _).
    exists pre, mid, post. split; [done|]. by apply toLowerCase_same.
  - intros (pre & mid & post & -> & H). apply toLowerCase_same in H.
    exists (JS.toLowerCase pre), (JS.toLowerCase post).
    by rewrite !toLowerCase_app, H.
Qed.

Example lower_occurs_LiDAR :
  Spec.sameIgnoringCase "LiDAR" "lidar" = true
  /\ Spec.sameIgnoringCase "lidar" "LIDAR" = true
  /\ Spec.sameIgnoringCase "lidar" "lidas" = false
  /\ Spec.sameIgnoringCase "@" "`" = false.
Proof. by repeat split. Qed.

(** C2: for a filter with a non-empty keyword list, filterArticles keeps an
    article exactly when it is one of the given articles that passes the
    state filter and the journal filter and at least one keyword occurs
    case-insensitively in the search text: some stretch of the search text
    is the keyword up to the case of the letters.  The search text is the
    title alone under title-only scope and otherwise the title, the
    abstract (empty when absent) and the keyword list, separated by single
    spaces.  So an article titled "Forest" with abstract "biomass lidar"
    that passes the two earlier filters is dropped for the keywords ["lidar"]
    under title-only scope and kept under the wide scope, and it is kept
    under the wide scope for the keywords ["LiDAR"] as well. *)
Theorem filterArticles_keyword_filter (getTime : string -> option Z)
    (localeCompare : string -> string -> Z) (articles : list Article.t)
    (filter : FilterConfig.t) (allJournals : list JournalConfig.t) (a : Article.t) :
  FilterConfig.keywords filter <> [] ->
  let kept := In a (Utils.filterArticles getTime localeCompare articles filter allJournals) in
  let passesEarlier :=
    In a articles
    /\ (FilterConfig.showState filter = show_all
        \/ ArticleState_str (Article.state a) = ShowState_str (FilterConfig.showState filter))
    /\ In (Article.journalIssn a) (Utils.enabledIssns filter allJournals) in
  let searchText :=
    if FilterConfig.searchInAbstracts filter
    then Article.title a +:+ " " +:+ default "" (Article.abstract_ a) +:+ " "
         +:+ JS.join " " (default [] (Article.keywords a))
    else Article.title a in
  (kept <-> passesEarlier
            /\ exists kw pre mid post,
                 In kw (FilterConfig.keywords filter)
                 /\ searchText = pre +:+ mid +:+ post
                 /\ Spec.sameIgnoringCase mid kw = true)
  /\ (Article.title a = "Forest" -> Article.abstract_ a = Some "biomass lidar" ->
      passesEarlier ->
      (FilterConfig.keywords filter = ["lidar"] ->
       FilterConfig.searchInAbstracts filter = false -> ~ kept)
      /\ (FilterConfig.keywords filter = ["lidar"] ->
          FilterConfig.searchInAbstracts filter = true -> kept)
      /\ (FilterConfig.keywords filter = ["LiDAR"] ->
          FilterConfig.searchInAbstracts filter = true -> kept)).
Proof.
  intros Hne kept passesEarlier searchText.
  assert (kept <-> passesEarlier
            /\ exists kw pre mid post,
                 In kw (FilterConfig.keywords filter)
                 /\ searchText = pre +:+ mid +:+ post
                 /\ Spec.sameIgnoringCase mid kw = true) as Hiff.
  { subst kept passesEarlier. rewrite filterArticles_In.
    change searchText with (Spec.searchedText filter a).
    assert ((exists kw pre post,
               In kw (FilterConfig.keywords filter)
               /\ JS.toLowerCase (Spec.searchedText filter a)
                  = pre +:+ JS.toLowerCase kw +:+ post)
            <-> exists kw pre mid post,
                  In kw (FilterConfig.keywords filter)
                  /\ Spec.searchedText filter a = pre +:+ mid +:+ post
                  /\ Spec.sameIgnoringCase mid kw = true) as Hocc.
    { split.
      - intros (kw & pre & post & Hin & H).
        destruct (proj1 (lower_occurs kw (Spec.searchedText filter a)))
          as (pre0 & mid & post0 & H1 & H2); [by exists pre, post|].
        by exists kw, pre0, mid, post0.
      - intros (kw & pre & mid & post & Hin & H1 & H2).
        destruct (proj2 (lower_occurs kw (Spec.searchedText filter a)))
          as (pre0 & post0 & H); [by exists pre, mid, post|].
        by exists kw, pre0, post0. }
    rewrite <- Hocc. tauto. }
  split; [exact Hiff|].
  intros Htitle Habs Hpass. rewrite Hiff. subst searchText. rewrite Htitle, Habs.
  assert (forall kw, Spec.sameIgnoringCase "lidar" kw = true ->
            exists pre mid post,
              "Forest" +:+ " " +:+ default "" (Some "biomass lidar") +:+ " "
              +:+ JS.join " " (default [] (Article.keywords a)) = pre +:+ mid +:+ post
              /\ Spec.sameIgnoringCase mid kw = true) as Hwide.
  { intros kw Hkw.
    by exists "Forest biomass ", "lidar", (" " +:+ JS.join " " (default [] (Article.keywords a))). }
  split; [|split]; intros Hkw Hscope; rewrite Hkw, Hscope.
  - intros [_ (kw & pre & mid & post & Hin & Heq & Hsame)].
    destruct Hin as [<-|[]].
    assert (JS.includes (JS.toLowerCase "Forest") (JS.toLowerCase "lidar") = true) as Hinc.
    { apply includes_spec. apply toLowerCase_same in Hsame.
      exists (JS.toLowerCase pre), (JS.toLowerCase post).
      by rewrite Heq, !toLowerCase_app, Hsame. }
    discriminate Hinc.
  - split; [exact Hpass|].
    destruct (Hwide "lidar" eq_refl) as (pre & mid & post & H1 & H2).
    exists "lidar", pre, mid, post. split; [by left|by split].
  - split; [exact Hpass|].
    destruct (Hwide "LiDAR" eq_refl) as (pre & mid & post & H1 & H2).
    exists "LiDAR", pre, mid, post. split; [by left|by split].
Qed.

Lemma filterArticles_keyword_filter_witness :
  In Sample.forest
    (Utils.filterArticles (fun _ => None) (fun _ _ => 0) [Sample.forest; Sample.meadow]
       (Sample.lidarFilter true) [Sample.ecography])
  /\ ~ In Sample.forest
         (Utils.filterArticles (fun _ => None) (fun _ _ => 0) [Sample.forest; Sample.meadow]
            (Sample.lidarFilter false) [Sample.ecography])
  /\ In Sample.forest
       (Utils.filterArticles (fun _ => None) (fun _ _ => 0) [Sample.forest; Sample.meadow]
          (FilterConfig.set_keywords ["LiDAR"] (Sample.lidarFilter true)) [Sample.ecography]).
Proof.
  assert (forall f,
    FilterConfig.showState f = show_unseen -> FilterConfig.journals f = [] ->
    In Sample.forest [Sample.forest; Sample.meadow]
    /\ (FilterConfig.showState f = show_all
        \/ ArticleState_str (Article.state Sample.forest)
           = ShowState_str (FilterConfig.showState f))
    /\ In (Article.journalIssn Sample.forest)
          (Utils.enabledIssns f [Sample.ecography])) as Hpass.
  { intros f Hs Hj. split; [by left|]. split; [right; by rewrite Hs|].
    unfold Utils.enabledIssns. rewrite Hj. by left. }
  split; [|split].
  - destruct (filterArticles_keyword_filter (fun _ => None) (fun _ _ => 0)
                [Sample.forest; Sample.meadow] (Sample.lidarFilter true) [Sample.ecography]
                Sample.forest ltac:(discriminate)) as [_ Hex].
    destruct (Hex eq_refl eq_refl (Hpass (Sample.lidarFilter true) eq_refl eq_refl))
      as (_ & H & _).
    apply H; reflexivity.
  - destruct (filterArticles_keyword_filter (fun _ => None) (fun _ _ => 0)
                [Sample.forest; Sample.meadow] (Sample.lidarFilter false) [Sample.ecography]
                Sample.forest ltac:(discriminate)) as [_ Hex].
    destruct (Hex eq_refl eq_refl (Hpass (Sample.lidarFilter false) eq_refl eq_refl))
      as (H & _ & _).
    apply H; reflexivity.
  - destruct (filterArticles_keyword_filter (fun _ => None) (fun _ _ => 0)
                [Sample.forest; Sample.meadow]
                (FilterConfig.set_keywords ["LiDAR"] (Sample.lidarFilter true))
                [Sample.ecography] Sample.forest ltac:(discriminate)) as [_ Hex].
    destruct (Hex eq_refl eq_refl
                (Hpass (FilterConfig.set_keywords ["LiDAR"] (Sample.lidarFilter true))
                   eq_refl eq_refl)) as (_ & _ & H).
    apply H; reflexivity.
Defined.

(** ** main.ts: the merge of fetched articles *)

Lemma set_abstract_same (a : Article.t) : Article.set_abstract (Article.abstract_ a) a = a.
Proof. by destruct a. Qed.

Lemma sameButAbstract_refl (a : Article.t) : Spec.sameButAbstract a a.
Proof. unfold Spec.sameButAbstract. by rewrite set_abstract_same. Qed.

Lemma sameButAbstract_set (v : option string) (a : Article.t) :
  Spec.sameButAbstract (Article.set_abstract v a) a.
Proof. reflexivity. Qed.

Lemma sameButAbstract_fields (a b : Article.t) :
  Spec.sameButAbstract a b ->
  Article.doi a = Article.doi b /\ Article.state a = Article.state b
  /\ Article.viewedAt a = Article.viewedAt b /\ Article.savedAt a = Article.savedAt b
  /\ Article.savedPath a = Article.savedPath b /\ Article.fetchedAt a = Article.fetchedAt b.
Proof. unfold Spec.sameButAbstract. intros ->. by destruct b. Qed.

Lemma insertIfAbsent_lookup (m : gmap string Article.t) (a : Article.t) (k : string) :
  Spec.insertIfAbsent m a !! k
  = match m !! k with
    | Some r => Some r
    | None => if decide (k = Article.doi a) then Some a else None
    end.
Proof.
  unfold Spec.insertIfAbsent. destruct (m !! Article.doi a) eqn:E.
  - destruct (m !! k) eqn:Ek; [done|]. case_decide; [congruence|done].
  - destruct (decide (k = Article.doi a)) as [->|Hne].
    + by rewrite lookup_insert_eq, E.
    + rewrite lookup_insert_ne by done. by destruct (m !! k).
Qed.

Lemma insertIfAbsent_dom (m : gmap string Article.t) (a : Article.t) :
  dom (Spec.insertIfAbsent m a) = dom m ∪ {[Article.doi a]}.
Proof.
  unfold Spec.insertIfAbsent. destruct (m !! Article.doi a) eqn:E.
  - assert (Article.doi a ∈ dom m) by (apply elem_of_dom; eauto). set_solver.
  - rewrite dom_insert_L. set_solver.
Qed.

Lemma fold_insertIfAbsent_keeps (l : list Article.t) (m : gmap string Article.t)
    (k : string) (r : Article.t) :
  m !! k = Some r -> fold_left Spec.insertIfAbsent l m !! k = Some r.
Proof.
  revert m. induction l as [|a l IH]; intros m Hk; simpl; [done|].
  apply IH. by rewrite insertIfAbsent_lookup, Hk.
Qed.

Lemma fold_insertIfAbsent_new (l : list Article.t) (m : gmap string Article.t)
    (k : string) (r : Article.t) :
  fold_left Spec.insertIfAbsent l m !! k = Some r -> m !! k = None ->
  In r l /\ Article.doi r = k.
Proof.
  revert m. induction l as [|a l IH]; intros m Hr Hk; simpl in Hr; [congruence|].
  destruct (Spec.insertIfAbsent m a !! k) as [r'|] eqn:E.
  - rewrite (fold_insertIfAbsent_keeps _ _ _ _ E) in Hr. injection Hr as <-.
    rewrite insertIfAbsent_lookup, Hk in E. case_decide; [|done].
    injection E as <-. split; [by left|done].
  - destruct (IH _ Hr E) as [Hin Hdoi]. split; [by right|done].
Qed.

Lemma fold_insertIfAbsent_dom (l : list Article.t) (m : gmap string Article.t) :
  dom (fold_left Spec.insertIfAbsent l m) = dom m ∪ Spec.identifiers l.
Proof.
  unfold Spec.identifiers. revert m. induction l as [|a l IH]; intros m; simpl.
  - set_solver.
  - rewrite IH, insertIfAbsent_dom. set_solver.
Qed.

(** What the loop of a pass keeps invariant, and how the counter of new
    articles moves with the size of the collection. *)
Lemma mergeArticle_spec (journal : JournalConfig.t) (st : Main.LoopState) (a : Article.t) :
  let st' := Main.mergeArticle journal st a in
  let d := Main.loop_data st in
  let d' := Main.loop_data st' in
  JournalMonitorData.articles d'
  = fold_left Spec.insertIfAbsent (Spec.storable [a]) (JournalMonitorData.articles d)
  /\ Z.of_nat (size (JournalMonitorData.articles d')) - Main.newArticleCount st'
     = Z.of_nat (size (JournalMonitorData.articles d)) - Main.newArticleCount st
  /\ Main.totalFetched st' = Main.totalFetched st
  /\ Statistics.totalFetched (JournalMonitorData.statistics d')
     = Statistics.totalFetched (JournalMonitorData.statistics d)
  /\ Statistics.totalSaved (JournalMonitorData.statistics d')
     = Statistics.totalSaved (JournalMonitorData.statistics d)
  /\ Statistics.totalSkipped (JournalMonitorData.statistics d')
     = Statistics.totalSkipped (JournalMonitorData.statistics d).
Proof.
  unfold Main.mergeArticle, Spec.storable, Spec.insertIfAbsent, JS.truthyAt. simpl.
  destruct (JournalMonitorData.articles (Main.loop_data st) !! Article.doi a) eqn:E.
  - destruct (JS.inherited (Article.doi a)); simpl; [|rewrite E];
      (split; [done|]; split; [lia|]; by repeat split).
  - destruct (JS.inherited (Article.doi a)); simpl.
    + split; [done|]. split; [lia|]. by repeat split.
    + rewrite E, map_size_insert_None by done.
      split; [done|]. split; [lia|]. by repeat split.
Qed.

Lemma storable_app (l1 l2 : list Article.t) :
  Spec.storable (l1 ++ l2) = Spec.storable l1 ++ Spec.storable l2.
Proof. apply List.filter_app. Qed.

Lemma storable_In (l : list Article.t) (a : Article.t) :
  In a (Spec.storable l) <-> In a l /\ JS.inherited (Article.doi a) = false.
Proof. unfold Spec.storable. by rewrite filter_In, negb_true_iff. Qed.

Lemma storable_all (l : list Article.t) :
  (forall a, In a l -> JS.inherited (Article.doi a) = false) -> Spec.storable l = l.
Proof.
  unfold Spec.storable. induction l as [|a l IH]; intros H; simpl; [done|].
  rewrite (H a) by (by left). simpl. f_equal. apply IH. intros b Hb. apply H. by right.
Qed.

Lemma fold_mergeArticle_spec (journal : JournalConfig.t) (l : list Article.t)
    (st : Main.LoopState) :
  let st' := fold_left (Main.mergeArticle journal) l st in
  let d := Main.loop_data st in
  let d' := Main.loop_data st' in
  JournalMonitorData.articles d'
  = fold_left Spec.insertIfAbsent (Spec.storable l) (JournalMonitorData.articles d)
  /\ Z.of_nat (size (JournalMonitorData.articles d')) - Main.newArticleCount st'
     = Z.of_nat (size (JournalMonitorData.articles d)) - Main.newArticleCount st
  /\ Main.totalFetched st' = Main.totalFetched st
  /\ Statistics.totalFetched (JournalMonitorData.statistics d')
     = Statistics.totalFetched (JournalMonitorData.statistics d)
  /\ Statistics.totalSaved (JournalMonitorData.statistics d')
     = Statistics.totalSaved (JournalMonitorData.statistics d)
  /\ Statistics.totalSkipped (JournalMonitorData.statistics d')
     = Statistics.totalSkipped (JournalMonitorData.statistics d).
Proof.
  revert st. induction l as [|a l IH]; intros st; [done|].
  cbv zeta. cbn [fold_left].
  destruct (IH (Main.mergeArticle journal st a)) as (H1 & H2 & H3 & H4 & H5 & H6).
  destruct (mergeArticle_spec journal st a) as (G1 & G2 & G3 & G4 & G5 & G6).
  cbv zeta in *.
  assert (Spec.storable (a :: l) = Spec.storable [a] ++ Spec.storable l) as ->
    by apply (storable_app [a] l).
  rewrite fold_left_app. split; [by rewrite H1, G1|]. split; [lia|].
  split; [congruence|]. split; [congruence|]. split; congruence.
Qed.

Section sync_facts.
Variable fetchFromOpenAlex :
  JournalConfig.t -> string -> string -> Z -> option string -> JS.outcome (list Article.t).
Variable fetchFromCrossRef :
  JournalConfig.t -> string -> string -> Z -> option string -> JS.outcome (list Article.t).
Variable fetchAbstractFromCrossRef : string -> option string.
Variable getDateDaysAgo : Z -> string.
Variable startClock endClock : Clock.t.

(** The loop of a pass never throws, and its effect is that of merging, in
    the order of the journals, what the journals whose fetch succeeded
    contribute. *)
Lemma syncLoop_ok (settings : JournalMonitorSettings.t) (from to : string)
    (journals : list JournalConfig.t) (st : Main.LoopState) :
  exists st',
    Main.syncLoop fetchFromOpenAlex fetchFromCrossRef settings from to journals st = JS.Ok st'
    /\ let fetched :=
         flat_map (Main.fetchedOk fetchFromOpenAlex fetchFromCrossRef settings from to) journals in
       let d := Main.loop_data st in
       let d' := Main.loop_data st' in
       JournalMonitorData.articles d'
       = fold_left Spec.insertIfAbsent (Spec.storable fetched) (JournalMonitorData.articles d)
       /\ Z.of_nat (size (JournalMonitorData.articles d')) - Main.newArticleCount st'
          = Z.of_nat (size (JournalMonitorData.articles d)) - Main.newArticleCount st
       /\ Main.totalFetched st' = Main.totalFetched st + Z.of_nat (length fetched)
       /\ Statistics.totalFetched (JournalMonitorData.statistics d')
          = Statistics.totalFetched (JournalMonitorData.statistics d)
       /\ Statistics.totalSaved (JournalMonitorData.statistics d')
          = Statistics.totalSaved (JournalMonitorData.statistics d)
       /\ Statistics.totalSkipped (JournalMonitorData.statistics d')
          = Statistics.totalSkipped (JournalMonitorData.statistics d).
Proof.
  revert st. induction journals as [|journal rest IH]; intros st.
  - exists st. split; [reflexivity|]. simpl. split; [done|]. split; [done|].
    split; [lia|]. by repeat split.
  - simpl.
    assert (Main.fetchedOk fetchFromOpenAlex fetchFromCrossRef settings from to journal
            = match Main.callAdapter fetchFromOpenAlex fetchFromCrossRef settings from to journal with
              | JS.Ok articles => articles
              | JS.Throw _ => []
              end) as Hf by reflexivity.
    unfold Main.fetchJournal.
    destruct (Main.callAdapter fetchFromOpenAlex fetchFromCrossRef settings from to journal)
      as [articles|e]; rewrite Hf; simpl.
    + set (st0 := Main.mkLoop _ _ _).
      destruct (IH (fold_left (Main.mergeArticle journal) articles st0))
        as (st' & Hrun & H1 & H2 & H3 & H4 & H5 & H6).
      destruct (fold_mergeArticle_spec journal articles st0) as (G1 & G2 & G3 & G4 & G5 & G6).
      exists st'. split; [exact Hrun|]. subst st0. simpl in *.
      rewrite storable_app, fold_left_app, length_app, Nat2Z.inj_add.
      split; [by rewrite H1, G1|]. split; [lia|]. split; [lia|].
      split; [congruence|]. split; congruence.
    + destruct (IH st) as (st' & Hrun & H). exists st'. split; [exact Hrun|exact H].
Qed.

Lemma backfillStore_lookup (lastFetch : string) (m : gmap string Article.t) (k : string) :
  match Main.backfillStore fetchAbstractFromCrossRef lastFetch m !! k, m !! k with
  | Some r', Some r => Spec.sameButAbstract r' r
  | None, None => True
  | _, _ => False
  end.
Proof.
  unfold Main.backfillStore. rewrite lookup_fmap. destruct (m !! k) as [r|]; simpl; [|done].
  destruct (Main.needsBackfill lastFetch r); [|apply sameButAbstract_refl].
  unfold Api.backfillOne. destruct (JS.truthy_str (Article.abstract_ r)); [apply sameButAbstract_refl|].
  destruct (JS.truthy_str _); [apply sameButAbstract_set|apply sameButAbstract_refl].
Qed.

(** A pass as a whole: it returns normally; up to backfilled abstracts the
    collection is the old one with the contributions of the journals whose
    fetch succeeded merged in; the counters move with it. *)
Lemma fetchArticles_result (settings : JournalMonitorSettings.t) (data : JournalMonitorData.t) :
  exists r,
    Main.fetchArticles fetchFromOpenAlex fetchFromCrossRef fetchAbstractFromCrossRef
      getDateDaysAgo startClock endClock settings data = JS.Ok r
    /\ let enabled := List.filter JournalConfig.enabled (JournalMonitorSettings.journals settings) in
       let fetched :=
         flat_map
           (Main.fetchedOk fetchFromOpenAlex fetchFromCrossRef settings
              (Main.syncFrom getDateDaysAgo startClock settings) (Main.syncTo startClock))
           enabled in
       let merged :=
         fold_left Spec.insertIfAbsent (Spec.storable fetched)
           (JournalMonitorData.articles data) in
       let stats := JournalMonitorData.statistics data in
       let stats' := JournalMonitorData.statistics (Main.sync_data r) in
       (forall k,
          match JournalMonitorData.articles (Main.sync_data r) !! k, merged !! k with
          | Some r', Some r0 => Spec.sameButAbstract r' r0
          | None, None => True
          | _, _ => False
          end)
       /\ Z.of_nat (size (JournalMonitorData.articles (Main.sync_data r)))
          = Z.of_nat (size (JournalMonitorData.articles data)) + Main.sync_newArticleCount r
       /\ Main.sync_totalFetched r = Z.of_nat (length fetched)
       /\ Statistics.totalFetched stats' = Statistics.totalFetched stats + Main.sync_newArticleCount r
       /\ Statistics.totalSaved stats' = Statistics.totalSaved stats
       /\ Statistics.totalSkipped stats' = Statistics.totalSkipped stats.
Proof.
  unfold Main.fetchArticles.
  destruct (List.filter JournalConfig.enabled (JournalMonitorSettings.journals settings))
    as [|j0 js] eqn:Een.
  - simpl. eexists. split; [reflexivity|]. simpl.
    split; [|split; [lia|split; [done|split; [lia|done]]]].
    intros k. destruct (JournalMonitorData.articles data !! k); [apply sameButAbstract_refl|done].
  - cbn [length Nat.eqb].
    destruct (syncLoop_ok settings (Main.syncFrom getDateDaysAgo startClock settings)
                (Main.syncTo startClock) (j0 :: js) (Main.mkLoop data 0 0))
      as (st & Hrun & H1 & H2 & H3 & H4 & H5 & H6).
    rewrite Hrun. cbn [mbind outcome_bind JS.bind mret outcome_ret].
    eexists. split; [reflexivity|]. cbn [Main.sync_data Main.sync_newArticleCount Main.sync_totalFetched].
    cbn [Main.loop_data Main.newArticleCount Main.totalFetched] in H1, H2, H3, H4, H5, H6.
    split; [|split; [|split; [lia|]]].
    + intros k. rewrite <- H1.
      destruct (_ && _); simpl.
      * apply backfillStore_lookup.
      * destruct (JournalMonitorData.articles (Main.loop_data st) !! k);
          [apply sameButAbstract_refl|done].
    + destruct (_ && _); simpl; [|lia].
      unfold Main.backfillStore. rewrite map_size_fmap. lia.
    + destruct (_ && _); simpl; (split; [lia|split; congruence]).
Qed.

End sync_facts.

(** C1: whatever the adapters answer, the pass returns, and a record that
    the collection holds under some identifier before the pass is still held
    under it afterwards with the same state, the same viewedAt and savedAt
    and the same saved location (every field but the abstract, which the
    backfill may fill in, is as before); a record found afterwards under an
    identifier that was not a key before is a fetched article of an enabled
    journal with that identifier; and the collection grows by exactly the
    number of articles counted as new. *)
Theorem fetchArticles_keeps_known_records
    (fetchFromOpenAlex fetchFromCrossRef :
       JournalConfig.t -> string -> string -> Z -> option string -> JS.outcome (list Article.t))
    (fetchAbstractFromCrossRef : string -> option string) (getDateDaysAgo : Z -> string)
    (startClock endClock : Clock.t)
    (settings : JournalMonitorSettings.t) (data : JournalMonitorData.t)
    (doi : string) (known : Article.t) :
  JournalMonitorData.articles data !! doi = Some known ->
  exists r,
    Main.fetchArticles fetchFromOpenAlex fetchFromCrossRef fetchAbstractFromCrossRef
      getDateDaysAgo startClock endClock settings data = JS.Ok r
    /\ (exists kept,
          JournalMonitorData.articles (Main.sync_data r) !! doi = Some kept
          /\ Article.state kept = Article.state known
          /\ Article.viewedAt kept = Article.viewedAt known
          /\ Article.savedAt kept = Article.savedAt known
          /\ Article.savedPath kept = Article.savedPath known
          /\ Spec.sameButAbstract kept known)
    /\ (forall k added,
          JournalMonitorData.articles (Main.sync_data r) !! k = Some added ->
          JournalMonitorData.articles data !! k = None ->
          exists journal a,
            In journal (List.filter JournalConfig.enabled (JournalMonitorSettings.journals settings))
            /\ In a (Main.fetchedOk fetchFromOpenAlex fetchFromCrossRef settings
                       (Main.syncFrom getDateDaysAgo startClock settings)
                       (Main.syncTo startClock) journal)
            /\ Article.doi a = k
            /\ Spec.sameButAbstract added a)
    /\ Z.of_nat (size (JournalMonitorData.articles (Main.sync_data r)))
       = Z.of_nat (size (JournalMonitorData.articles data)) + Main.sync_newArticleCount r.
Proof.
  intros Hknown.
  destruct (fetchArticles_result fetchFromOpenAlex fetchFromCrossRef fetchAbstractFromCrossRef
              getDateDaysAgo startClock endClock settings data)
    as (r & Hrun & Hlook & Hsize & _).
  exists r. split; [exact Hrun|]. split; [|split; [|exact Hsize]].
  - specialize (Hlook doi).
    rewrite (fold_insertIfAbsent_keeps _ _ _ _ Hknown) in Hlook.
    destruct (JournalMonitorData.articles (Main.sync_data r) !! doi) as [kept|]; [|done].
    exists kept. destruct (sameButAbstract_fields _ _ Hlook) as (_ & H1 & H2 & H3 & H4 & _).
    by repeat split.
  - intros k added Hadded Hfresh. specialize (Hlook k). rewrite Hadded in Hlook.
    destruct (fold_left _ _ _ !! k) as [a|] eqn:Ea; [|done].
    destruct (fold_insertIfAbsent_new _ _ _ _ Ea Hfresh) as [Hin Hdoi].
    apply storable_In in Hin as [Hin _].
    apply in_flat_map in Hin as (journal & Hj & Ha).
    by exists journal, a.
Qed.

Lemma fetchArticles_keeps_known_records_witness :
  exists r,
    Main.fetchArticles Sample.adapter Sample.adapter (fun _ => None) (fun _ => "2024-02-01")
      Sample.clock Sample.endClock Sample.settings Sample.data = JS.Ok r
    /\ exists kept,
         JournalMonitorData.articles (Main.sync_data r) !! "10.1000/j.1" = Some kept
         /\ Article.state kept = saved
         /\ Article.savedPath kept = Some "Articles/Doe2024-Forest.md".
Proof.
  destruct (fetchArticles_keeps_known_records Sample.adapter Sample.adapter (fun _ => None)
              (fun _ => "2024-02-01") Sample.clock Sample.endClock Sample.settings Sample.data
              "10.1000/j.1" Sample.savedForest)
    as (r & Hrun & (kept & Hkept & Hstate & _ & _ & Hpath & _) & _).
  - vm_compute. reflexivity.
  - exists r. split; [exact Hrun|]. exists kept. split; [exact Hkept|]. split; assumption.
Defined.

(** The number of new keys of a collection that grew to cover a set of
    identifiers. *)
Lemma grown_size (old new : gmap string Article.t) (ids : gset string) (n : Z) :
  dom new = dom old ∪ ids ->
  Z.of_nat (size new) = Z.of_nat (size old) + n ->
  n = Z.of_nat (size (ids ∖ dom old)).
Proof.
  intros Hdom Hsize.
  assert (dom new = dom old ∪ (ids ∖ dom old)) as Hsplit.
  { rewrite Hdom. apply set_eq. intros x.
    rewrite !elem_of_union, elem_of_difference.
    destruct (decide (x ∈ dom old)); tauto. }
  assert (size (dom new) = (size (dom old) + size (ids ∖ dom old))%nat) as Hsum.
  { rewrite Hsplit. apply size_union. intros x Hx1 Hx2.
    apply elem_of_difference in Hx2 as [_ Hx2]. by apply Hx2. }
  rewrite !size_dom in Hsum. lia.
Qed.

(** C7: whatever the adapters do, throwing included, fetchArticles returns
    normally.  With [fetched] the articles answered for the enabled journals
    whose fetch did not throw, the count of new articles is the number of
    identifiers of [fetched] that were not keys of the collection, the keys
    afterwards are the old ones and those identifiers, and the statistics
    total grows by that count; here an article whose identifier is a name
    of Object.prototype does not count as fetched, since the lookup that
    guards the insertion finds the inherited member and the article is
    passed over.  In particular, with three enabled journals of which the
    second throws while the first and third answer with articles of
    ordinary identifiers, the count is that of the identifiers new in the
    answers of the first and third. *)
Theorem fetchArticles_survives_failing_journal
    (fetchFromOpenAlex fetchFromCrossRef :
       JournalConfig.t -> string -> string -> Z -> option string -> JS.outcome (list Article.t))
    (fetchAbstractFromCrossRef : string -> option string) (getDateDaysAgo : Z -> string)
    (startClock endClock : Clock.t)
    (settings : JournalMonitorSettings.t) (data : JournalMonitorData.t) :
  exists r,
    Main.fetchArticles fetchFromOpenAlex fetchFromCrossRef fetchAbstractFromCrossRef
      getDateDaysAgo startClock endClock settings data = JS.Ok r
    /\ let enabled := List.filter JournalConfig.enabled (JournalMonitorSettings.journals settings) in
       let call :=
         Main.callAdapter fetchFromOpenAlex fetchFromCrossRef settings
           (Main.syncFrom getDateDaysAgo startClock settings) (Main.syncTo startClock) in
       let fetched :=
         flat_map (fun journal => match call journal with
                                  | JS.Ok articles => articles
                                  | JS.Throw _ => []
                                  end) enabled in
       let ordinary :=
         List.filter (fun a => negb (JS.inherited (Article.doi a))) fetched in
       let known := dom (JournalMonitorData.articles data) in
       Main.sync_newArticleCount r = Z.of_nat (size (Spec.identifiers ordinary ∖ known))
       /\ dom (JournalMonitorData.articles (Main.sync_data r)) = known ∪ Spec.identifiers ordinary
       /\ Main.sync_totalFetched r = Z.of_nat (length fetched)
       /\ Statistics.totalFetched (JournalMonitorData.statistics (Main.sync_data r))
          = Statistics.totalFetched (JournalMonitorData.statistics data)
            + Main.sync_newArticleCount r
       /\ (forall j1 j2 j3 a1 a3 e,
             enabled = [j1; j2; j3] ->
             call j1 = JS.Ok a1 -> call j2 = JS.Throw e -> call j3 = JS.Ok a3 ->
             (forall a, In a (a1 ++ a3) -> JS.inherited (Article.doi a) = false) ->
             Main.sync_newArticleCount r
             = Z.of_nat (size (Spec.identifiers (a1 ++ a3) ∖ known))
             /\ dom (JournalMonitorData.articles (Main.sync_data r))
                = known ∪ Spec.identifiers (a1 ++ a3)
             /\ Main.sync_totalFetched r = Z.of_nat (length (a1 ++ a3))).
Proof.
  destruct (fetchArticles_result fetchFromOpenAlex fetchFromCrossRef fetchAbstractFromCrossRef
              getDateDaysAgo startClock endClock settings data)
    as (r & Hrun & Hlook & Hsize & Hfetched & Htotal & _).
  exists r. split; [exact Hrun|]. intros enabled call fetched ordinary known.
  change (flat_map _ (List.filter _ _)) with fetched in Hlook, Hfetched.
  change (Spec.storable fetched) with ordinary in Hlook.
  assert (dom (JournalMonitorData.articles (Main.sync_data r)) = known ∪ Spec.identifiers ordinary)
    as Hdom.
  { subst known. rewrite <- fold_insertIfAbsent_dom. apply set_eq. intros k.
    rewrite !elem_of_dom. specialize (Hlook k).
    destruct (JournalMonitorData.articles (Main.sync_data r) !! k),
             (fold_left Spec.insertIfAbsent ordinary (JournalMonitorData.articles data) !! k);
      try done; split; intros [? ?]; eauto; discriminate. }
  assert (Main.sync_newArticleCount r = Z.of_nat (size (Spec.identifiers ordinary ∖ known)))
    as Hcount by (by eapply grown_size).
  split; [exact Hcount|]. split; [exact Hdom|]. split; [exact Hfetched|]. split; [exact Htotal|].
  intros j1 j2 j3 a1 a3 e Hen H1 H2 H3 Hkeys.
  assert (fetched = a1 ++ a3) as Hf.
  { subst fetched. rewrite Hen. simpl. by rewrite H1, H2, H3, app_nil_r. }
  assert (ordinary = a1 ++ a3) as Ho.
  { subst ordinary. rewrite Hf. by apply storable_all. }
  rewrite <- Ho at 1 2. rewrite <- Hf. by repeat split.
Qed.

Lemma fetchArticles_survives_failing_journal_witness :
  exists r,
    Main.fetchArticles Sample.adapter Sample.adapter (fun _ => None) (fun _ => "2024-02-01")
      Sample.clock Sample.endClock Sample.settings Sample.data = JS.Ok r
    /\ Main.sync_newArticleCount r = 2
    /\ Main.sync_totalFetched r = 4.
Proof.
  destruct (fetchArticles_survives_failing_journal Sample.adapter Sample.adapter (fun _ => None)
              (fun _ => "2024-02-01") Sample.clock Sample.endClock Sample.settings Sample.data)
    as (r & Hrun & _ & _ & _ & _ & Hscenario).
  exists r. split; [exact Hrun|].
  destruct (Hscenario Sample.ecography Sample.ecology Sample.oikos
              [Sample.forest; Sample.meadow] [Sample.meadow; Sample.grove]
              "Request failed, status 503" eq_refl eq_refl eq_refl eq_refl)
    as (Hcount & _ & Hfetched).
  - intros a Ha. simpl in Ha. by repeat destruct Ha as [<-|Ha].
  - split; [|exact Hfetched]. rewrite Hcount. vm_compute. reflexivity.
Defined.

(** The pass at an identifier that names a member of Object.prototype: the
    article is fetched, and neither stored nor counted as new. *)
Example fetchArticles_inherited_identifier :
  match Main.fetchArticles
          (fun _ _ _ _ _ => JS.Ok [Article.mk "constructor" "T" [] "Ecography" "0906-7590"
                                     None None None "2024-03-01" 2024 None None "u" None
                                     unseen "t" None None None])
          (fun _ _ _ _ _ => JS.Ok [])
          (fun _ => None) (fun _ => "2024-02-01") Sample.clock Sample.endClock
          (JournalMonitorSettings.mk [Sample.ecography] openalex 50 30 None None true
             Sample.allFilter)
          Sample.freshData with
  | JS.Ok r =>
      Some (Main.sync_newArticleCount r, Main.sync_totalFetched r,
            JournalMonitorData.articles (Main.sync_data r) !! "constructor")
  | JS.Throw _ => None
  end
  = Some (0, 1, None).
Proof. vm_compute. reflexivity. Qed.

(** ** views/BrowseView.ts *)

Lemma bumpJournal_lookup (issn : string) (incr : JournalStats.t -> JournalStats.t)
    (m : gmap string JournalStats.t) (k : string) :
  JS.inherited issn = false ->
  Store.bumpJournal issn incr m !! k
  = if decide (k = issn) then Some (incr (default JournalStats.zero (m !! issn))) else m !! k.
Proof.
  intros Hkey. unfold Store.bumpJournal, JS.truthyAt. rewrite Hkey. case_decide as Hk.
  - subst k. rewrite lookup_alter_eq. destruct (m !! issn) eqn:E; simpl.
    + by rewrite E.
    + by rewrite lookup_insert_eq.
  - rewrite lookup_alter_ne by done. destruct (m !! issn); simpl; [done|].
    by rewrite lookup_insert_ne.
Qed.

(** A journal whose ISSN names a member of Object.prototype, and that has no
    entry, gets none: its counters are never kept. *)
Lemma bumpJournal_inherited (issn : string) (incr : JournalStats.t -> JournalStats.t)
    (m : gmap string JournalStats.t) :
  JS.inherited issn = true -> m !! issn = None -> Store.bumpJournal issn incr m = m.
Proof.
  intros Hkey Hnone. unfold Store.bumpJournal, JS.truthyAt. rewrite Hnone, Hkey. simpl.
  apply map_eq. intros k. destruct (decide (k = issn)) as [->|Hk].
  - by rewrite lookup_alter_eq, Hnone.
  - by rewrite lookup_alter_ne.
Qed.

Lemma assign_insert {T : Type} (k : string) (v : T) (o : gmap string T) :
  k <> "__proto__" -> JS.assign k v o = <[k := v]> o.
Proof.
  intros Hk. unfold JS.assign. destruct (o !! k); [done|].
  by destruct (String.eqb_spec k "__proto__").
Qed.

Lemma assign_own {T : Type} (k : string) (v x : T) (o : gmap string T) :
  o !! k = Some x -> JS.assign k v o = <[k := v]> o.
Proof. intros Hk. unfold JS.assign. by rewrite Hk. Qed.

Lemma current_nonempty (l : list Article.t) (i : nat) (a : Article.t) :
  l !! i = Some a -> (length l =? 0)%nat = false.
Proof. destruct l; [done|]. intros _. reflexivity. Qed.

Section action_facts.
Variable saveArticleNote : Article.t -> JS.outcome string.
Variable clock : Clock.t.

(** The data after a save whose note was written. *)
Lemma saveArticle_data (v : BrowseView.t) (a : Article.t) (path : string) :
  BrowseView.articles v !! BrowseView.currentIndex v = Some a ->
  saveArticleNote a = JS.Ok path ->
  let saved_a :=
    Article.set_savedPath (Some path)
      (Article.set_savedAt (Some (Clock.nowISO clock)) (Article.set_state saved a)) in
  let d := BrowseView.data v in
  let d' := BrowseView.data (BrowseView.saveArticle saveArticleNote clock v) in
  let stats := JournalMonitorData.statistics d in
  let stats' := JournalMonitorData.statistics d' in
  JournalMonitorData.articles d'
  = JS.assign (Article.doi a) saved_a (JournalMonitorData.articles d)
  /\ Statistics.totalSaved stats' = Statistics.totalSaved stats + 1
  /\ Statistics.totalSkipped stats' = Statistics.totalSkipped stats
  /\ Statistics.totalFetched stats' = Statistics.totalFetched stats
  /\ Statistics.byJournal stats'
     = Store.bumpJournal (Article.journalIssn a) JournalStats.incr_saved (Statistics.byJournal stats).
Proof.
  intros Hcur Hnote. unfold BrowseView.saveArticle.
  rewrite (current_nonempty _ _ _ Hcur), Hcur, Hnote.
  destruct (BrowseView.showsUnseenOnly v);
    [destruct (BrowseView.spliceCurrent _ _)|]; simpl; by destruct a.
Qed.

End action_facts.

(** The data after a skip. *)
Lemma skipArticle_data (v : BrowseView.t) (b : Article.t) :
  BrowseView.articles v !! BrowseView.currentIndex v = Some b ->
  let d := BrowseView.data v in
  let d' := BrowseView.data (BrowseView.skipArticle v) in
  let stats := JournalMonitorData.statistics d in
  let stats' := JournalMonitorData.statistics d' in
  JournalMonitorData.articles d'
  = JS.assign (Article.doi b) (Article.set_state skipped b) (JournalMonitorData.articles d)
  /\ Statistics.totalSkipped stats' = Statistics.totalSkipped stats + 1
  /\ Statistics.totalSaved stats' = Statistics.totalSaved stats
  /\ Statistics.totalFetched stats' = Statistics.totalFetched stats
  /\ Statistics.byJournal stats'
     = Store.bumpJournal (Article.journalIssn b) JournalStats.incr_skipped
         (Statistics.byJournal stats).
Proof.
  intros Hcur. unfold BrowseView.skipArticle.
  rewrite (current_nonempty _ _ _ Hcur), Hcur.
  destruct (BrowseView.showsUnseenOnly v);
    [destruct (BrowseView.spliceCurrent _ _)|destruct (_ <=? _)%nat]; simpl; by destruct b.
Qed.

(** Moving through the view leaves the statistics alone. *)
Lemma markViewed_statistics (clock : Clock.t) (v : BrowseView.t) :
  JournalMonitorData.statistics (BrowseView.data (BrowseView.markViewed clock v))
  = JournalMonitorData.statistics (BrowseView.data v).
Proof.
  unfold BrowseView.markViewed.
  destruct (length (BrowseView.articles v) =? 0)%nat; [done|].
  destruct (BrowseView.articles v !! BrowseView.currentIndex v); [|done].
  by destruct (String.eqb _ _).
Qed.

Lemma showCurrent_statistics (clock : Clock.t) (v : BrowseView.t) :
  JournalMonitorData.statistics (BrowseView.data (BrowseView.showCurrent clock v))
  = JournalMonitorData.statistics (BrowseView.data v).
Proof.
  unfold BrowseView.showCurrent. cbn [BrowseView.data].
  rewrite <- (markViewed_statistics clock v). unfold BrowseView.savePosition.
  by destruct (0 <? _)%nat.
Qed.

Lemma moves_statistics (saveArticleNote : Article.t -> JS.outcome string)
    (moves : list BrowseView.Action) (v : BrowseView.t) :
  Inv.movesOnly moves ->
  JournalMonitorData.statistics (BrowseView.data (BrowseView.run saveArticleNote moves v))
  = JournalMonitorData.statistics (BrowseView.data v).
Proof.
  unfold Inv.movesOnly, BrowseView.run. revert v.
  induction moves as [|act moves IH]; intros v Hm; cbn [fold_left]; [done|].
  simpl in Hm. apply andb_prop in Hm as [Hact Hm]. rewrite (IH _ Hm).
  destruct act as [clock|clock|clock|]; try discriminate Hact; cbn [BrowseView.step].
  - unfold BrowseView.nextArticle. destruct (_ <? _)%nat; cbn [fst]; [|done].
    by rewrite showCurrent_statistics.
  - unfold BrowseView.prevArticle. destruct (_ <? _)%nat; cbn [fst]; [|done].
    by rewrite showCurrent_statistics.
Qed.

(** C9: let the current article of the view be in state 'unseen' and let
    totalSaved, totalSkipped and every per-journal counter be 0.  A save
    whose note is written stores the article under its identifier with
    state 'saved', savedAt set to the time of the save and savedPath set to
    the location of the note, and leaves totalSaved = 1 and the saved
    counter of the journal of the article = 1, whatever the view shows.
    When after that, and after any moves through the view, a distinct
    article is current, a skip stores that article with state 'skipped' and
    leaves totalSkipped = 1 and the skipped counter of its journal = 1,
    while totalSaved and the saved counter stay as the save left them.
    The identifiers and ISSNs are ordinary keys: an identifier other than
    [__proto__] and ISSNs that are no names of Object.prototype. *)
Theorem save_then_skip_counters (saveArticleNote : Article.t -> JS.outcome string)
    (clock : Clock.t) (v : BrowseView.t) (a : Article.t) (path : string) :
  let stats := JournalMonitorData.statistics (BrowseView.data v) in
  let v1 := BrowseView.saveArticle saveArticleNote clock v in
  let stats1 := JournalMonitorData.statistics (BrowseView.data v1) in
  let saved_a :=
    Article.set_savedPath (Some path)
      (Article.set_savedAt (Some (Clock.nowISO clock)) (Article.set_state saved a)) in
  BrowseView.articles v !! BrowseView.currentIndex v = Some a ->
  Article.state a = unseen ->
  Statistics.totalSaved stats = 0 ->
  Statistics.totalSkipped stats = 0 ->
  (forall issn counters, Statistics.byJournal stats !! issn = Some counters ->
                         counters = JournalStats.zero) ->
  saveArticleNote a = JS.Ok path ->
  Article.doi a <> "__proto__" ->
  JS.inherited (Article.journalIssn a) = false ->
  (JournalMonitorData.articles (BrowseView.data v1) !! Article.doi a = Some saved_a
   /\ Article.state saved_a = saved
   /\ Article.savedAt saved_a = Some (Clock.nowISO clock)
   /\ Article.savedPath saved_a = Some path
   /\ Statistics.totalSaved stats1 = 1
   /\ Statistics.totalSkipped stats1 = 0
   /\ JournalStats.saved <$> Statistics.byJournal stats1 !! Article.journalIssn a = Some 1)
  /\ (forall moves b,
        Inv.movesOnly moves ->
        let w := BrowseView.run saveArticleNote moves v1 in
        let v2 := BrowseView.skipArticle w in
        let stats2 := JournalMonitorData.statistics (BrowseView.data v2) in
        BrowseView.articles w !! BrowseView.currentIndex w = Some b ->
        Article.doi b <> Article.doi a ->
        Article.doi b <> "__proto__" ->
        JS.inherited (Article.journalIssn b) = false ->
        JournalMonitorData.articles (BrowseView.data v2) !! Article.doi b
        = Some (Article.set_state skipped b)
        /\ Article.state (Article.set_state skipped b) = skipped
        /\ Statistics.totalSkipped stats2 = 1
        /\ JournalStats.skipped <$> Statistics.byJournal stats2 !! Article.journalIssn b = Some 1
        /\ Statistics.totalSaved stats2 = 1
        /\ JournalStats.saved <$> Statistics.byJournal stats2 !! Article.journalIssn a = Some 1).
Proof.
  intros stats v1 stats1 saved_a Hcur Hunseen Hsaved0 Hskipped0 Hzero Hnote Hdoi Hissn.
  destruct (saveArticle_data saveArticleNote clock v a path Hcur Hnote)
    as (Harts1 & Hts1 & Hsk1 & _ & Hbj1).
  fold v1 in Harts1, Hts1, Hsk1, Hbj1. fold stats1 in Hts1, Hsk1, Hbj1.
  fold stats in Hts1, Hsk1, Hbj1. fold saved_a in Harts1.
  rewrite assign_insert in Harts1 by done.
  assert (forall issn, default JournalStats.zero (Statistics.byJournal stats !! issn)
                       = JournalStats.zero) as Hdef.
  { intros issn. destruct (Statistics.byJournal stats !! issn) eqn:E; [|done].
    simpl. by eapply Hzero. }
  assert (JournalStats.saved <$> Statistics.byJournal stats1 !! Article.journalIssn a = Some 1)
    as Hcounter.
  { rewrite Hbj1, bumpJournal_lookup, decide_True by done. by rewrite Hdef. }
  split.
  - split; [by rewrite Harts1, lookup_insert_eq|].
    split; [by destruct a|]. split; [by destruct a|]. split; [by destruct a|].
    split; [lia|]. split; [lia|exact Hcounter].
  - intros moves b Hmoves w v2 stats2 Hcurw Hne Hdoib Hissnb.
    destruct (skipArticle_data w b Hcurw) as (Harts2 & Hsk2 & Hts2 & _ & Hbj2).
    fold v2 in Harts2, Hsk2, Hts2, Hbj2. fold stats2 in Hsk2, Hts2, Hbj2.
    rewrite assign_insert in Harts2 by done.
    assert (JournalMonitorData.statistics (BrowseView.data w) = stats1) as Hstats
      by (by apply moves_statistics).
    rewrite Hstats in Hsk2, Hts2, Hbj2.
    split; [by rewrite Harts2, lookup_insert_eq|]. split; [by destruct b|].
    split; [lia|]. split; [|split; [lia|]].
    + rewrite Hbj2, bumpJournal_lookup, decide_True by done.
      rewrite Hbj1, bumpJournal_lookup by done. case_decide; simpl; by rewrite Hdef.
    + rewrite Hbj2, bumpJournal_lookup by done. case_decide as Heq; [|exact Hcounter].
      rewrite Heq in Hcounter.
      destruct (Statistics.byJournal stats1 !! Article.journalIssn b) as [c|]; [|done].
      simpl in *. by destruct c.
Qed.

Lemma save_then_skip_counters_witness :
  (let v1 := BrowseView.saveArticle Sample.writer Sample.clock Sample.view in
   let v2 := BrowseView.skipArticle v1 in
   Article.state <$> JournalMonitorData.articles (BrowseView.data v1) !! "10.1000/j.1"
   = Some saved
   /\ Statistics.totalSaved (JournalMonitorData.statistics (BrowseView.data v1)) = 1
   /\ Article.state <$> JournalMonitorData.articles (BrowseView.data v2) !! "10.1000/j.3"
      = Some skipped
   /\ Statistics.totalSkipped (JournalMonitorData.statistics (BrowseView.data v2)) = 1)
  /\ (let v1 := BrowseView.saveArticle Sample.writer Sample.clock Sample.viewAll in
      let v2 := BrowseView.skipArticle
                  (BrowseView.run Sample.writer [BrowseView.Next Sample.laterClock] v1) in
      Article.state <$> JournalMonitorData.articles (BrowseView.data v1) !! "10.1000/j.1"
      = Some saved
      /\ Article.state <$> JournalMonitorData.articles (BrowseView.data v2) !! "10.1000/j.3"
         = Some skipped
      /\ Statistics.totalSaved (JournalMonitorData.statistics (BrowseView.data v2)) = 1
      /\ Statistics.totalSkipped (JournalMonitorData.statistics (BrowseView.data v2)) = 1).
Proof.
  split.
  - intros v1 v2.
    destruct (save_then_skip_counters Sample.writer Sample.clock Sample.view
                Sample.forest "Articles/Forest.md")
      as ((Ha & _ & _ & _ & Hsaved & _) & Hskip).
    + reflexivity.
    + reflexivity.
    + reflexivity.
    + reflexivity.
    + intros issn counters H. vm_compute in H. discriminate H.
    + reflexivity.
    + discriminate.
    + reflexivity.
    + destruct (Hskip [] Sample.grove eq_refl) as (Hb & _ & Hskipped & _).
      * reflexivity.
      * discriminate.
      * discriminate.
      * reflexivity.
      * subst v1 v2.
        change (Article.doi Sample.forest) with "10.1000/j.1" in Ha.
        change (Article.doi Sample.grove) with "10.1000/j.3" in Hb.
        cbn [BrowseView.run fold_left] in Hb, Hskipped.
        rewrite Ha, Hb. repeat split; assumption.
  - intros v1 v2.
    destruct (save_then_skip_counters Sample.writer Sample.clock Sample.viewAll
                Sample.forest "Articles/Forest.md")
      as ((Ha & _) & Hskip).
    + reflexivity.
    + reflexivity.
    + reflexivity.
    + reflexivity.
    + intros issn counters H. vm_compute in H. discriminate H.
    + reflexivity.
    + discriminate.
    + reflexivity.
    + destruct (Hskip [BrowseView.Next Sample.laterClock]
                  (Article.set_viewedAt (Some (Clock.nowISO Sample.laterClock))
                     (Article.set_state viewed Sample.grove)) eq_refl)
        as (Hb & _ & Hskipped & _ & Hsaved & _).
      * reflexivity.
      * discriminate.
      * discriminate.
      * reflexivity.
      * subst v1 v2.
        change (Article.doi Sample.forest) with "10.1000/j.1" in Ha.
        change (Article.doi (Article.set_viewedAt _ _)) with "10.1000/j.3" in Hb.
        rewrite Ha, Hb. repeat split; assumption.
Defined.

(** C10: when the note writer rejects for the current article, saveArticle
    leaves the data (the collection with every record, and the statistics
    with totalSaved and every per-journal counter), the articles of the
    view and the index as they were; it only shows the error notice. *)
Theorem saveArticle_writer_failure_changes_nothing
    (saveArticleNote : Article.t -> JS.outcome string) (clock : Clock.t)
    (v : BrowseView.t) (a : Article.t) (e : string) :
  BrowseView.articles v !! BrowseView.currentIndex v = Some a ->
  saveArticleNote a = JS.Throw e ->
  let v' := BrowseView.saveArticle saveArticleNote clock v in
  BrowseView.data v' = BrowseView.data v
  /\ BrowseView.articles v' = BrowseView.articles v
  /\ BrowseView.currentIndex v' = BrowseView.currentIndex v
  /\ BrowseView.settings v' = BrowseView.settings v
  /\ BrowseView.notices v' = BrowseView.notices v ++ [BrowseView.notice_error_saving].
Proof.
  intros Hcur Hnote. unfold BrowseView.saveArticle.
  rewrite (current_nonempty _ _ _ Hcur), Hcur, Hnote. simpl. by repeat split.
Qed.

Lemma saveArticle_writer_failure_changes_nothing_witness :
  BrowseView.data (BrowseView.saveArticle Sample.failingWriter Sample.clock Sample.view)
  = Sample.freshData.
Proof.
  destruct (saveArticle_writer_failure_changes_nothing Sample.failingWriter Sample.clock
              Sample.view Sample.forest "ENOSPC: no space left on device" eq_refl eq_refl)
    as [Hdata _].
  exact Hdata.
Defined.

(** * Further properties of the code *)

(** ** More on the sort *)

Section sort_on.
Context {A : Type} (cmp : A -> A -> Z).

Lemma sort_insert_sorted_on (x : A) (l : list A) :
  Inv.consistentOn cmp (x :: l) ->
  StronglySorted (JS.cmp_le cmp) l -> StronglySorted (JS.cmp_le cmp) (JS.sort_insert cmp x l).
Proof.
  intros [Htot Htrans] Hs. induction Hs as [|y l Hl IH Hy]; simpl.
  - repeat constructor.
  - destruct (Z.leb_spec (cmp x y) 0) as [Hxy|Hxy].
    + constructor; [by constructor|].
      constructor; [exact Hxy|].
      apply List.Forall_forall. intros z Hz. rewrite List.Forall_forall in Hy.
      apply (Htrans x y z); [simpl; tauto|simpl; tauto|simpl; tauto|exact Hxy|by apply Hy].
    + constructor.
      * apply IH.
        -- intros a b Ha Hb. apply Htot; simpl in *; tauto.
        -- intros a b c Ha Hb Hc. apply Htrans; simpl in *; tauto.
      * eapply Permutation_Forall; [symmetry; apply sort_insert_perm|].
        constructor; [|exact Hy].
        destruct (Htot x y) as [H|H]; [simpl; tauto|simpl; tauto| |exact H].
        unfold JS.cmp_le in H. lia.
Qed.

Lemma consistentOn_perm (l l' : list A) :
  Permutation l l' -> Inv.consistentOn cmp l -> Inv.consistentOn cmp l'.
Proof.
  intros Hp [Htot Htrans].
  assert (forall x, In x l' -> In x l) as Hin.
  { intros x. apply Permutation_in. by symmetry. }
  split.
  - intros x y Hx Hy. apply Htot; by apply Hin.
  - intros x y z Hx Hy Hz. apply Htrans; by apply Hin.
Qed.

Lemma consistentOn_tail (x : A) (l : list A) :
  Inv.consistentOn cmp (x :: l) -> Inv.consistentOn cmp l.
Proof.
  intros [Htot Htrans]. split.
  - intros a b Ha Hb. apply Htot; by right.
  - intros a b c Ha Hb Hc. apply Htrans; by right.
Qed.

Lemma sort_sorted_on (l : list A) :
  Inv.consistentOn cmp l -> StronglySorted (JS.cmp_le cmp) (JS.sort cmp l).
Proof.
  induction l as [|x l IH]; intros Hc; simpl; [constructor|].
  apply sort_insert_sorted_on.
  - eapply consistentOn_perm; [|exact Hc]. constructor. symmetry. apply sort_perm.
  - apply IH. by eapply consistentOn_tail.
Qed.

(** Sorting what is sorted changes nothing. *)
Lemma sort_of_sorted (l : list A) :
  StronglySorted (JS.cmp_le cmp) l -> JS.sort cmp l = l.
Proof.
  induction 1 as [|x l Hl IH Hx]; simpl; [done|].
  rewrite IH. destruct l as [|y l]; simpl; [done|].
  inversion Hx as [|? ? Hxy _]; subst. unfold JS.cmp_le in Hxy.
  by destruct (Z.leb_spec (cmp x y) 0); [|lia].
Qed.

(** The sort is stable: the elements that a test selects, when the test does
    not tell apart elements that compare as equal, keep their order. *)
Lemma sort_insert_filter (p : A -> bool) (x : A) (l : list A) :
  (forall y, In y l -> p x = true -> p y = true -> cmp x y <= 0) ->
  List.filter p (JS.sort_insert cmp x l) = List.filter p (x :: l).
Proof.
  induction l as [|y l IH]; intros Hp; simpl; [done|].
  destruct (Z.leb_spec (cmp x y) 0) as [Hxy|Hxy]; simpl; [done|].
  rewrite IH by (intros z Hz; apply Hp; by right). simpl.
  destruct (p x) eqn:Ex, (p y) eqn:Ey; try done.
  specialize (Hp y (or_introl eq_refl) eq_refl Ey). lia.
Qed.

Lemma sort_filter_stable (p : A -> bool) (l : list A) :
  (forall x y, In x l -> In y l -> p x = true -> p y = true -> cmp x y <= 0) ->
  List.filter p (JS.sort cmp l) = List.filter p l.
Proof.
  induction l as [|x l IH]; intros Hp; simpl; [done|].
  rewrite sort_insert_filter.
  - simpl. rewrite IH; [done|]. intros a b Ha Hb. apply Hp; by right.
  - intros y Hy. apply Hp; [by left|]. right. by apply (sort_In cmp y l).
Qed.

End sort_on.

(** ** utils.ts: more on filterArticles *)

Lemma filter_filter_andb {A : Type} (p q : A -> bool) (l : list A) :
  List.filter q (List.filter p l) = List.filter (fun x => p x && q x) l.
Proof.
  induction l as [|x l IH]; simpl; [done|].
  destruct (p x); simpl; [|exact IH]. destruct (q x); by rewrite IH.
Qed.

Lemma filter_all_true {A : Type} (p : A -> bool) (l : list A) :
  (forall x, In x l -> p x = true) -> List.filter p l = l.
Proof.
  induction l as [|x l IH]; intros H; simpl; [done|].
  rewrite (H x) by (by left). rewrite IH; [done|]. intros y Hy. apply H. by right.
Qed.

Lemma filter_length_le {A : Type} (p : A -> bool) (l : list A) :
  (length (List.filter p l) <= length l)%nat.
Proof. induction l as [|x l IH]; simpl; [done|]. destruct (p x); simpl; lia. Qed.

Section filter_more.
Variable getTime : string -> option Z.
Variable localeCompare : string -> string -> Z.

(** filterArticles is one filter followed by one sort. *)
Lemma filterArticles_factor (articles : list Article.t) (filter : FilterConfig.t)
    (allJournals : list JournalConfig.t) :
  Utils.filterArticles getTime localeCompare articles filter allJournals
  = JS.sort (Inv.comparator getTime localeCompare filter)
      (List.filter (Inv.kept filter allJournals) articles).
Proof.
  unfold Utils.filterArticles.
  set (byState := if negb _ then _ else _).
  set (byJournal := List.filter _ byState).
  set (byKeyword := if (0 <? _)%nat then _ else _).
  assert (byKeyword = List.filter (Inv.kept filter allJournals) articles) as ->.
  { subst byKeyword byJournal byState. unfold Inv.kept.
    destruct (String.eqb (ShowState_str (FilterConfig.showState filter)) "all") eqn:Eall;
      destruct (FilterConfig.keywords filter) as [|k ks] eqn:Ek; simpl negb; cbv iota;
      cbn [length Nat.ltb Nat.leb Nat.eqb orb];
      rewrite ?filter_filter_andb; apply List.filter_ext; intros a;
      by rewrite ?andb_true_r, ?andb_true_l, ?andb_assoc. }
  unfold Inv.comparator. by destruct (FilterConfig.sortBy filter).
Qed.

End filter_more.

(** X1: filterArticles neither invents nor duplicates nor loses articles: its
    result is a rearrangement of the given articles that pass the three
    tests (state, journal, keywords), each as often as it was given; so it
    is never longer than the input, and distinct inputs stay distinct. *)
Theorem filterArticles_rearranges_kept (getTime : string -> option Z)
    (localeCompare : string -> string -> Z) (articles : list Article.t)
    (filter : FilterConfig.t) (allJournals : list JournalConfig.t) :
  let result := Utils.filterArticles getTime localeCompare articles filter allJournals in
  Permutation result (List.filter (Inv.kept filter allJournals) articles)
  /\ (length result <= length articles)%nat
  /\ (NoDup (map Article.doi articles) -> NoDup (map Article.doi result)).
Proof.
  intros result. subst result. rewrite filterArticles_factor.
  assert (Permutation (JS.sort (Inv.comparator getTime localeCompare filter)
                         (List.filter (Inv.kept filter allJournals) articles))
                      (List.filter (Inv.kept filter allJournals) articles)) as Hperm
    by apply sort_perm.
  split; [exact Hperm|]. split.
  - rewrite (Permutation_length Hperm). apply filter_length_le.
  - rewrite !NoDup_ListNoDup. intros Hnd.
    eapply Permutation_NoDup; [symmetry; apply Permutation_map, Hperm|].
    clear Hperm. induction articles as [|a l IH]; simpl; [constructor|].
    inversion Hnd as [|? ? Hnotin Hnd']; subst.
    destruct (Inv.kept filter allJournals a); simpl; [|by apply IH].
    constructor; [|by apply IH].
    intros Hin. apply Hnotin. apply in_map_iff in Hin as (b & Hb & Hin).
    apply filter_In in Hin as [Hin _]. apply in_map_iff. by exists b.
Qed.

Lemma date_comparator_consistent (getTime : string -> option Z)
    (localeCompare : string -> string -> Z) (filter : FilterConfig.t) (l : list Article.t) :
  FilterConfig.sortBy filter <> sort_journal ->
  (forall a, In a l -> is_Some (getTime (Article.date a))) ->
  Inv.consistentOn (Inv.comparator getTime localeCompare filter) l.
Proof.
  intros Hsort Hparse. unfold Inv.consistentOn, Inv.comparator, JS.cmp_le, Utils.time_diff.
  destruct (FilterConfig.sortBy filter); [| |done]; split.
  - intros x y Hx Hy. destruct (Hparse x Hx) as [tx ->], (Hparse y Hy) as [ty ->]. lia.
  - intros x y z Hx Hy Hz.
    destruct (Hparse x Hx) as [tx ->], (Hparse y Hy) as [ty ->], (Hparse z Hz) as [tz ->]. lia.
  - intros x y Hx Hy. destruct (Hparse x Hx) as [tx ->], (Hparse y Hy) as [ty ->]. lia.
  - intros x y z Hx Hy Hz.
    destruct (Hparse x Hx) as [tx ->], (Hparse y Hy) as [ty ->], (Hparse z Hz) as [tz ->]. lia.
Qed.

(** X2: when the dates of the articles that pass the tests parse, the two
    date orders give a result sorted by time, newest first for 'date-desc'
    and oldest first for 'date-asc', and the sort is stable: the articles
    of one and the same time come out in the order in which they were
    given. *)
Theorem filterArticles_sorted_by_date (getTime : string -> option Z)
    (localeCompare : string -> string -> Z) (articles : list Article.t)
    (filter : FilterConfig.t) (allJournals : list JournalConfig.t) :
  (forall a, In a articles -> Inv.kept filter allJournals a = true ->
             is_Some (getTime (Article.date a))) ->
  let result := Utils.filterArticles getTime localeCompare articles filter allJournals in
  let time a := default 0 (getTime (Article.date a)) in
  (FilterConfig.sortBy filter = sort_date_desc ->
   StronglySorted (fun a b => time b <= time a) result)
  /\ (FilterConfig.sortBy filter = sort_date_asc ->
      StronglySorted (fun a b => time a <= time b) result)
  /\ (FilterConfig.sortBy filter <> sort_journal ->
      forall t, List.filter (fun a => time a =? t) result
                = List.filter (fun a => time a =? t)
                    (List.filter (Inv.kept filter allJournals) articles)).
Proof.
  intros Hparse result time. subst result. rewrite filterArticles_factor.
  set (l := List.filter (Inv.kept filter allJournals) articles).
  assert (forall a, In a l -> is_Some (getTime (Article.date a))) as Hl.
  { intros a Ha. apply filter_In in Ha as [Ha Hk]. by apply Hparse. }
  assert (forall a, In a (JS.sort (Inv.comparator getTime localeCompare filter) l) ->
                    is_Some (getTime (Article.date a))) as Hs.
  { intros a Ha. apply Hl. by apply sort_In in Ha. }
  assert (FilterConfig.sortBy filter <> sort_journal ->
          StronglySorted (JS.cmp_le (Inv.comparator getTime localeCompare filter))
            (JS.sort (Inv.comparator getTime localeCompare filter) l)) as Hsorted.
  { intros Hsort. apply sort_sorted_on. by apply date_comparator_consistent. }
  assert (forall (R : Article.t -> Article.t -> Prop) l',
            (forall a b, In a l' -> In b l' ->
                         JS.cmp_le (Inv.comparator getTime localeCompare filter) a b -> R a b) ->
            StronglySorted (JS.cmp_le (Inv.comparator getTime localeCompare filter)) l' ->
            StronglySorted R l') as Hweak.
  { intros R l' HR. induction 1 as [|x l' Hl' IH Hx]; constructor.
    - apply IH. intros a b Ha Hb. apply HR; by right.
    - apply List.Forall_forall. intros y Hy. rewrite List.Forall_forall in Hx.
      apply HR; [by left|by right|by apply Hx]. }
  split; [|split].
  - intros Hsort. apply Hweak; [|apply Hsorted; by rewrite Hsort].
    intros a b Ha Hb. unfold JS.cmp_le, Inv.comparator, Utils.time_diff, time.
    rewrite Hsort. destruct (Hs a Ha) as [ta ->], (Hs b Hb) as [tb ->]. simpl. lia.
  - intros Hsort. apply Hweak; [|apply Hsorted; by rewrite Hsort].
    intros a b Ha Hb. unfold JS.cmp_le, Inv.comparator, Utils.time_diff, time.
    rewrite Hsort. destruct (Hs a Ha) as [ta ->], (Hs b Hb) as [tb ->]. simpl. lia.
  - intros Hsort t. apply sort_filter_stable.
    intros x y Hx Hy Ex Ey. apply Z.eqb_eq in Ex, Ey.
    unfold Inv.comparator, Utils.time_diff. subst time. simpl in Ex, Ey.
    destruct (Hl x Hx) as [tx Htx], (Hl y Hy) as [ty Hty]. rewrite Htx, Hty in *. simpl in *.
    destruct (FilterConfig.sortBy filter); [lia|lia|done].
Qed.

Lemma filterArticles_sorted_by_date_witness :
  map Article.title
    (Utils.filterArticles Sample.getTime Sample.localeCompare
       [Sample.forest; Sample.meadow; Sample.grove] Sample.allFilter
       [Sample.ecography; Sample.oikos])
  = ["Meadow"; "Grove"; "Forest"]
  /\ StronglySorted
       (fun a b => default 0 (Sample.getTime (Article.date a))
                   <= default 0 (Sample.getTime (Article.date b)))
       (Utils.filterArticles Sample.getTime Sample.localeCompare
          [Sample.forest; Sample.meadow; Sample.grove] Sample.allFilter
          [Sample.ecography; Sample.oikos]).
Proof.
  split; [reflexivity|].
  refine (proj1 (proj2 (filterArticles_sorted_by_date Sample.getTime Sample.localeCompare
            [Sample.forest; Sample.meadow; Sample.grove] Sample.allFilter
            [Sample.ecography; Sample.oikos] _)) eq_refl).
  intros a [<-|[<-|[<-|[]]]] _; eexists; reflexivity.
Defined.

(** X3: filtering a second time changes nothing: when the comparator of the
    filter orders the articles that pass the tests consistently (as the date
    comparators do when the dates parse), filterArticles applied to its own
    result with the same filter and journals gives that result back. *)
Theorem filterArticles_idempotent (getTime : string -> option Z)
    (localeCompare : string -> string -> Z) (articles : list Article.t)
    (filter : FilterConfig.t) (allJournals : list JournalConfig.t) :
  Inv.consistentOn (Inv.comparator getTime localeCompare filter)
    (List.filter (Inv.kept filter allJournals) articles) ->
  let result := Utils.filterArticles getTime localeCompare articles filter allJournals in
  Utils.filterArticles getTime localeCompare result filter allJournals = result.
Proof.
  intros Hc result. subst result. rewrite !filterArticles_factor.
  set (l := List.filter (Inv.kept filter allJournals) articles) in *.
  rewrite filter_all_true.
  - apply sort_of_sorted. by apply sort_sorted_on.
  - intros a Ha. apply sort_In in Ha. subst l. by apply filter_In in Ha as [_ Hk].
Qed.

Lemma filterArticles_idempotent_witness :
  Utils.filterArticles Sample.getTime Sample.localeCompare
    (Utils.filterArticles Sample.getTime Sample.localeCompare
       [Sample.forest; Sample.meadow; Sample.grove] Sample.allFilter
       [Sample.ecography; Sample.oikos])
    Sample.allFilter [Sample.ecography; Sample.oikos]
  = Utils.filterArticles Sample.getTime Sample.localeCompare
      [Sample.forest; Sample.meadow; Sample.grove] Sample.allFilter
      [Sample.ecography; Sample.oikos].
Proof.
  apply (filterArticles_idempotent Sample.getTime Sample.localeCompare
           [Sample.forest; Sample.meadow; Sample.grove] Sample.allFilter
           [Sample.ecography; Sample.oikos]).
  apply date_comparator_consistent; [discriminate|].
  intros a Ha. apply filter_In in Ha as [Ha _].
  destruct Ha as [<-|[<-|[<-|[]]]]; eexists; reflexivity.
Defined.

(** ** views/BrowseView.ts: a session of actions *)

Lemma map_is_fmap {A B : Type} (f : A -> B) (l : list A) : map f l = f <$> l.
Proof. induction l as [|x l IH]; simpl; [done|]. by rewrite IH. Qed.

Section session_facts.
Variable saveArticleNote : Article.t -> JS.outcome string.

Lemma markViewed_updatesOne (clock : Clock.t) (v : BrowseView.t) :
  Inv.updatesOne v (BrowseView.markViewed clock v)
  /\ BrowseView.currentIndex (BrowseView.markViewed clock v) = BrowseView.currentIndex v
  /\ length (BrowseView.articles (BrowseView.markViewed clock v))
     = length (BrowseView.articles v)
  /\ JournalMonitorData.statistics (BrowseView.data (BrowseView.markViewed clock v))
     = JournalMonitorData.statistics (BrowseView.data v).
Proof.
  unfold BrowseView.markViewed.
  destruct (length (BrowseView.articles v) =? 0)%nat; [by split; [left|]|].
  destruct (BrowseView.articles v !! BrowseView.currentIndex v) as [a|] eqn:Ea;
    [|by split; [left|]].
  destruct (String.eqb _ _); [|by split; [left|]].
  simpl. split; [|by rewrite length_insert].
  right. exists (BrowseView.currentIndex v), a,
    (Article.set_viewedAt (Some (Clock.nowISO clock)) (Article.set_state viewed a)).
  split; [exact Ea|]. split; [by destruct a|]. split; [by destruct a|].
  split; [by destruct a|by left].
Qed.

Lemma showCurrent_updatesOne (clock : Clock.t) (v : BrowseView.t) :
  Inv.updatesOne v (BrowseView.showCurrent clock v)
  /\ BrowseView.currentIndex (BrowseView.showCurrent clock v) = BrowseView.currentIndex v
  /\ length (BrowseView.articles (BrowseView.showCurrent clock v))
     = length (BrowseView.articles v)
  /\ JournalMonitorData.statistics (BrowseView.data (BrowseView.showCurrent clock v))
     = JournalMonitorData.statistics (BrowseView.data v).
Proof.
  destruct (markViewed_updatesOne clock v) as (H1 & H2 & H3 & H4).
  unfold BrowseView.showCurrent. simpl. split; [|by repeat split].
  destruct H1 as [[Hd Hl]|(i & a & a' & Ha & Hdoi & Hissn & Hd & Hl)].
  - left. by split.
  - right. exists i, a, a'. by repeat split.
Qed.

Lemma spliceCurrent_spec (l : list Article.t) (i : nat) :
  (i < length l)%nat ->
  fst (BrowseView.spliceCurrent l i) = delete i l
  /\ ((snd (BrowseView.spliceCurrent l i) < length (delete i l))%nat
      \/ (delete i l = [] /\ snd (BrowseView.spliceCurrent l i) = 0%nat)).
Proof.
  intros Hi. unfold BrowseView.spliceCurrent.
  destruct (Nat.leb_spec (length (delete i l)) i) as [Hle|Hlt]; simpl; (split; [done|]).
  - destruct (delete i l) as [|x l'] eqn:E; [by right|]. left. simpl. lia.
  - by left.
Qed.

Lemma saveArticle_updatesOne (clock : Clock.t) (v : BrowseView.t) :
  Inv.updatesOne v (BrowseView.saveArticle saveArticleNote clock v)
  /\ (Inv.inBounds v -> Inv.inBounds (BrowseView.saveArticle saveArticleNote clock v)).
Proof.
  unfold BrowseView.saveArticle.
  destruct (length (BrowseView.articles v) =? 0)%nat; [by split; [left|]|].
  destruct (BrowseView.articles v !! BrowseView.currentIndex v) as [a|] eqn:Ea;
    [|by split; [left|]].
  destruct (saveArticleNote a) as [path|e]; [|by split; [left|]].
  set (a' := Article.set_savedPath _ _).
  assert (Article.doi a' = Article.doi a) as Hdoi by (by destruct a).
  assert (BrowseView.currentIndex v < length (<[BrowseView.currentIndex v := a']>
            (BrowseView.articles v)))%nat as Hlen.
  { rewrite length_insert. by eapply lookup_lt_Some. }
  destruct (BrowseView.showsUnseenOnly v).
  - destruct (spliceCurrent_spec _ _ Hlen) as [Hfst Hsnd].
    destruct (BrowseView.spliceCurrent _ _) as [shown index]. simpl in *. subst shown.
    split; [|intros _; exact Hsnd].
    right. exists (BrowseView.currentIndex v), a, a'.
    split; [exact Ea|]. split; [exact Hdoi|]. split; [clear; subst a'; by destruct a|].
      split; [clear; subst a'; by destruct a|by right].
  - simpl. split; [|intros _; by left].
    right. exists (BrowseView.currentIndex v), a, a'.
    split; [exact Ea|]. split; [exact Hdoi|]. split; [clear; subst a'; by destruct a|].
      split; [clear; subst a'; by destruct a|by left].
Qed.

Lemma skipArticle_updatesOne (v : BrowseView.t) :
  Inv.updatesOne v (BrowseView.skipArticle v)
  /\ (Inv.inBounds v -> Inv.inBounds (BrowseView.skipArticle v)).
Proof.
  unfold BrowseView.skipArticle.
  destruct (length (BrowseView.articles v) =? 0)%nat; [by split; [left|]|].
  destruct (BrowseView.articles v !! BrowseView.currentIndex v) as [a|] eqn:Ea;
    [|by split; [left|]].
  set (a' := Article.set_state skipped a).
  assert (Article.doi a' = Article.doi a) as Hdoi by (by destruct a).
  assert (BrowseView.currentIndex v < length (<[BrowseView.currentIndex v := a']>
            (BrowseView.articles v)))%nat as Hlen.
  { rewrite length_insert. by eapply lookup_lt_Some. }
  destruct (BrowseView.showsUnseenOnly v).
  - destruct (spliceCurrent_spec _ _ Hlen) as [Hfst Hsnd].
    destruct (BrowseView.spliceCurrent _ _) as [shown index]. simpl in *. subst shown.
    split; [|intros _; exact Hsnd].
    right. exists (BrowseView.currentIndex v), a, a'.
    split; [exact Ea|]. split; [exact Hdoi|]. split; [clear; subst a'; by destruct a|].
      split; [clear; subst a'; by destruct a|by right].
  - destruct (Nat.leb_spec (length (<[BrowseView.currentIndex v := a']> (BrowseView.articles v)))
                (S (BrowseView.currentIndex v))) as [Hle|Hlt]; simpl.
    + split; [|intros _; left; simpl; lia].
      right. exists (BrowseView.currentIndex v), a, a'.
      split; [exact Ea|]. split; [exact Hdoi|]. split; [clear; subst a'; by destruct a|].
      split; [clear; subst a'; by destruct a|by left].
    + split; [|intros _; left; simpl; lia].
      right. exists (BrowseView.currentIndex v), a, a'.
      split; [exact Ea|]. split; [exact Hdoi|]. split; [clear; subst a'; by destruct a|].
      split; [clear; subst a'; by destruct a|by left].
Qed.

End session_facts.

(** *** The sums of the counters *)

Lemma total_insert (counter : JournalStats.t -> Z) (m : gmap string JournalStats.t)
    (issn : string) (x : JournalStats.t) :
  Inv.total counter (<[issn := x]> m)
  = Inv.total counter m + counter x
    - match m !! issn with Some old => counter old | None => 0 end.
Proof.
  unfold Inv.total. destruct (m !! issn) as [old|] eqn:E.
  - rewrite <- insert_delete_eq.
    rewrite map_fold_insert_L; [|intros; lia|apply lookup_delete_eq].
    rewrite (map_fold_delete_L _ _ issn old m); [lia|intros; lia|exact E].
  - rewrite map_fold_insert_L; [lia|intros; lia|exact E].
Qed.

Lemma bumpJournal_insert (issn : string) (incr : JournalStats.t -> JournalStats.t)
    (m : gmap string JournalStats.t) :
  JS.inherited issn = false ->
  Store.bumpJournal issn incr m
  = <[issn := incr (default JournalStats.zero (m !! issn))]> m.
Proof.
  intros Hkey. apply map_eq. intros k. rewrite bumpJournal_lookup by done. case_decide as Hk.
  - subst k. by rewrite lookup_insert_eq.
  - by rewrite lookup_insert_ne.
Qed.

Lemma total_bumpJournal (counter : JournalStats.t -> Z) (issn : string)
    (incr : JournalStats.t -> JournalStats.t) (m : gmap string JournalStats.t) :
  JS.inherited issn = false ->
  counter JournalStats.zero = 0 ->
  Inv.total counter (Store.bumpJournal issn incr m)
  = Inv.total counter m
    + counter (incr (default JournalStats.zero (m !! issn)))
    - counter (default JournalStats.zero (m !! issn)).
Proof.
  intros Hkey Hzero. rewrite bumpJournal_insert, total_insert by done.
  destruct (m !! issn); simpl; lia.
Qed.

Lemma grows_refl (s : Statistics.t) : Inv.grows 0 0 s s.
Proof. unfold Inv.grows. repeat split; lia. Qed.

Lemma grows_trans (ds dk ds' dk' : Z) (s1 s2 s3 : Statistics.t) :
  Inv.grows ds dk s1 s2 -> Inv.grows ds' dk' s2 s3 -> Inv.grows (ds + ds') (dk + dk') s1 s3.
Proof.
  intros (A1 & A2 & A3 & A4 & A5 & A6 & A7) (B1 & B2 & B3 & B4 & B5 & B6 & B7).
  unfold Inv.grows. split; [lia|]. split; [lia|]. split; [lia|]. split; [lia|].
  split; [lia|]. split; [lia|].
  intros issn. destruct (A7 issn) as (C1 & C2 & C3), (B7 issn) as (D1 & D2 & D3).
  split; [lia|]. split; lia.
Qed.

Lemma grows_saved (s : Statistics.t) (issn : string) :
  JS.inherited issn = false ->
  Inv.grows 1 0 s
    (Store.set_byJournal
       (Store.bumpJournal issn JournalStats.incr_saved
          (Statistics.byJournal (Store.set_totalSaved (Statistics.totalSaved s + 1) s)))
       (Store.set_totalSaved (Statistics.totalSaved s + 1) s)).
Proof.
  intros Hkey. unfold Inv.grows. simpl. rewrite !total_bumpJournal by done. simpl.
  split; [done|]. split; [done|]. split; [lia|]. split; [lia|]. split; [lia|]. split; [lia|].
  intros k. unfold Inv.counterOf. rewrite bumpJournal_lookup by done.
  case_decide as Hk; [subst k|]; simpl; lia.
Qed.

Lemma grows_skipped (s : Statistics.t) (issn : string) :
  JS.inherited issn = false ->
  Inv.grows 0 1 s
    (Store.set_byJournal
       (Store.bumpJournal issn JournalStats.incr_skipped
          (Statistics.byJournal (Store.set_totalSkipped (Statistics.totalSkipped s + 1) s)))
       (Store.set_totalSkipped (Statistics.totalSkipped s + 1) s)).
Proof.
  intros Hkey. unfold Inv.grows. simpl. rewrite !total_bumpJournal by done. simpl.
  split; [done|]. split; [lia|]. split; [done|]. split; [lia|]. split; [lia|]. split; [lia|].
  intros k. unfold Inv.counterOf. rewrite bumpJournal_lookup by done.
  case_decide as Hk; [subst k|]; simpl; lia.
Qed.

(** *** What an action keeps *)

Lemma map_doi_insert_same (l : list Article.t) (i : nat) (a a' : Article.t) :
  l !! i = Some a -> Article.doi a' = Article.doi a ->
  map Article.doi (<[i := a']> l) = map Article.doi l.
Proof.
  intros Hi Hdoi. rewrite !map_is_fmap, list_fmap_insert, Hdoi.
  apply list_insert_id. by rewrite list_lookup_fmap, Hi.
Qed.

Lemma map_doi_delete (l : list Article.t) (i : nat) :
  map Article.doi (delete i l) = delete i (map Article.doi l).
Proof.
  revert i. induction l as [|x l IH]; intros [|i]; simpl; try done. by rewrite IH.
Qed.

Lemma updatesOne_wf (v v' : BrowseView.t) :
  Inv.keyed (JournalMonitorData.articles (BrowseView.data v)) ->
  Inv.coherent v ->
  Inv.updatesOne v v' ->
  Inv.keyed (JournalMonitorData.articles (BrowseView.data v'))
  /\ Inv.coherent v'
  /\ dom (JournalMonitorData.articles (BrowseView.data v'))
     = dom (JournalMonitorData.articles (BrowseView.data v))
  /\ (forall k, (forall a, In a (BrowseView.articles v) -> Article.doi a <> k) ->
                (forall a, In a (BrowseView.articles v') -> Article.doi a <> k)
                /\ JournalMonitorData.articles (BrowseView.data v') !! k
                   = JournalMonitorData.articles (BrowseView.data v) !! k).
Proof.
  intros Hkeyed [Hnd Hcoh] [[Hd Hl]|(i & a & a' & Ha & Hdoi & Hissn & Hd & Hl)].
  - unfold Inv.coherent. rewrite Hd, Hl. by repeat split.
  - assert (In a (BrowseView.articles v)) as Hin
      by (apply list_elem_of_In; by eapply list_elem_of_lookup_2).
    assert (JournalMonitorData.articles (BrowseView.data v) !! Article.doi a = Some a) as Hstored
      by (by apply Hcoh).
    rewrite (assign_own _ _ _ _ Hstored) in Hd.
    assert (NoDup (map Article.doi (<[i := a']> (BrowseView.articles v)))) as Hnd1
      by (by rewrite (map_doi_insert_same _ _ a)).
    assert (forall b, In b (<[i := a']> (BrowseView.articles v)) ->
                      <[Article.doi a := a']> (JournalMonitorData.articles (BrowseView.data v))
                        !! Article.doi b = Some b) as Hcoh1.
    { intros b Hb. apply list_elem_of_In, list_elem_of_lookup in Hb as [j Hj].
      apply list_lookup_insert_Some in Hj as [(-> & -> & _)|(Hne & Hj)].
      - by rewrite Hdoi, lookup_insert_eq.
      - rewrite lookup_insert_ne.
        + apply Hcoh. apply list_elem_of_In. by eapply list_elem_of_lookup_2.
        + intros Heq. apply Hne.
          apply (NoDup_lookup (map Article.doi (BrowseView.articles v)) i j (Article.doi a));
            [exact Hnd| |]; rewrite map_is_fmap, list_lookup_fmap.
          * by rewrite Ha.
          * by rewrite Hj, Heq. }
    assert (forall k, (forall b, In b (BrowseView.articles v) -> Article.doi b <> k) ->
                      forall b, In b (<[i := a']> (BrowseView.articles v)) -> Article.doi b <> k)
      as Hshown1.
    { intros k Hk b Hb. apply list_elem_of_In, list_elem_of_lookup in Hb as [j Hj].
      apply list_lookup_insert_Some in Hj as [(-> & -> & _)|(Hne & Hj)].
      - rewrite Hdoi. by apply Hk.
      - apply Hk. apply list_elem_of_In. by eapply list_elem_of_lookup_2. }
    assert (forall b, In b (delete i (<[i := a']> (BrowseView.articles v))) ->
                      In b (<[i := a']> (BrowseView.articles v))) as Hsub.
    { intros b Hb. apply list_elem_of_In. apply list_elem_of_In in Hb.
      by eapply list_elem_of_delete_inv. }
    split; [|split; [|split]].
    + rewrite Hd. intros k b Hb. destruct (decide (k = Article.doi a)) as [->|Hk].
      * rewrite lookup_insert_eq in Hb. injection Hb as <-. exact Hdoi.
      * rewrite lookup_insert_ne in Hb by done. by eapply Hkeyed.
    + unfold Inv.coherent. rewrite Hd. destruct Hl as [-> | ->].
      * by split.
      * split; [|intros b Hb; by apply Hcoh1, Hsub].
        rewrite map_doi_delete. eapply sublist_NoDup; [exact Hnd1|apply sublist_delete].
    + rewrite Hd, dom_insert_L.
      assert (Article.doi a ∈ dom (JournalMonitorData.articles (BrowseView.data v)))
        by (apply elem_of_dom; eauto).
      set_solver.
    + intros k Hk. split.
      * destruct Hl as [-> | ->]; [by apply Hshown1|].
        intros b Hb. apply (Hshown1 k Hk). by apply Hsub.
      * rewrite Hd, lookup_insert_ne; [done|]. by apply Hk.
Qed.

Lemma updatesOne_same_content (v w v' : BrowseView.t) :
  BrowseView.data w = BrowseView.data v ->
  BrowseView.articles w = BrowseView.articles v ->
  Inv.updatesOne w v' -> Inv.updatesOne v v'.
Proof. unfold Inv.updatesOne. by intros -> ->. Qed.

Section session_invariants.
Variable saveArticleNote : Article.t -> JS.outcome string.

Lemma step_updatesOne (v : BrowseView.t) (act : BrowseView.Action) :
  Inv.updatesOne v (BrowseView.step saveArticleNote v act)
  /\ (Inv.inBounds v -> Inv.inBounds (BrowseView.step saveArticleNote v act)).
Proof.
  destruct act as [clock|clock|clock|]; cbn [BrowseView.step].
  - unfold BrowseView.nextArticle.
    destruct (Nat.ltb_spec (S (BrowseView.currentIndex v)) (length (BrowseView.articles v)))
      as [Hlt|Hge]; cbn [fst]; [|by split; [left|]].
    set (w := BrowseView.mk _ _ _ _ _).
    destruct (showCurrent_updatesOne clock w) as (H1 & H2 & H3 & _).
    split; [by apply (updatesOne_same_content v w)|].
    intros _. left. rewrite H2, H3. subst w. simpl. lia.
  - unfold BrowseView.prevArticle.
    destruct (Nat.ltb_spec 0 (BrowseView.currentIndex v)) as [Hlt|Hge]; cbn [fst];
      [|by split; [left|]].
    set (w := BrowseView.mk _ _ _ _ _).
    destruct (showCurrent_updatesOne clock w) as (H1 & H2 & H3 & _).
    split; [by apply (updatesOne_same_content v w)|].
    intros [Hin|[_ Hz]]; [|lia]. left. rewrite H2, H3. subst w. simpl. lia.
  - apply saveArticle_updatesOne.
  - apply skipArticle_updatesOne.
Qed.

Lemma run_invariants (acts : list BrowseView.Action) (v : BrowseView.t) :
  let v' := BrowseView.run saveArticleNote acts v in
  (Inv.inBounds v -> Inv.inBounds v')
  /\ (Inv.keyed (JournalMonitorData.articles (BrowseView.data v)) -> Inv.coherent v ->
      Inv.keyed (JournalMonitorData.articles (BrowseView.data v'))
      /\ Inv.coherent v'
      /\ dom (JournalMonitorData.articles (BrowseView.data v'))
         = dom (JournalMonitorData.articles (BrowseView.data v))
      /\ (forall k, (forall a, In a (BrowseView.articles v) -> Article.doi a <> k) ->
                    JournalMonitorData.articles (BrowseView.data v') !! k
                    = JournalMonitorData.articles (BrowseView.data v) !! k)).
Proof.
  unfold BrowseView.run. revert v. induction acts as [|act acts IH]; intros v; cbn [fold_left].
  - split; [done|]. intros Hk Hc. split; [exact Hk|]. split; [exact Hc|]. by split.
  - destruct (step_updatesOne v act) as [Hu Hb].
    destruct (IH (BrowseView.step saveArticleNote v act)) as [IHb IHw].
    split; [intros H; by apply IHb, Hb|].
    intros Hk Hc. destruct (updatesOne_wf _ _ Hk Hc Hu) as (Hk1 & Hc1 & Hd1 & Hf1).
    destruct (IHw Hk1 Hc1) as (Hk2 & Hc2 & Hd2 & Hf2).
    split; [exact Hk2|]. split; [exact Hc2|]. split; [by rewrite Hd2|].
    intros k Hshown. destruct (Hf1 k Hshown) as [Hshown1 Heq1].
    by rewrite (Hf2 k Hshown1).
Qed.

End session_invariants.

(** *** The statistics along a session *)

(** The journals of the shown articles stay the same: an action replaces a
    record by one of the same journal, or takes it off the view. *)
Lemma updatesOne_issns (P : string -> Prop) (v v' : BrowseView.t) :
  Inv.updatesOne v v' ->
  (forall a, In a (BrowseView.articles v) -> P (Article.journalIssn a)) ->
  forall a, In a (BrowseView.articles v') -> P (Article.journalIssn a).
Proof.
  intros [[_ Hl]|(i & a & a' & Ha & _ & Hissn & _ & Hl)] HP b Hb.
  - rewrite Hl in Hb. by apply HP.
  - assert (In b (<[i := a']> (BrowseView.articles v))) as Hin.
    { destruct Hl as [Hl|Hl]; rewrite Hl in Hb; [done|].
      apply list_elem_of_In. apply list_elem_of_In in Hb.
      by eapply list_elem_of_delete_inv. }
    apply list_elem_of_In, list_elem_of_lookup in Hin as [j Hj].
    apply list_lookup_insert_Some in Hj as [(-> & -> & _)|(_ & Hj)].
    + rewrite Hissn. apply HP. apply list_elem_of_In. by eapply list_elem_of_lookup_2.
    + apply HP. apply list_elem_of_In. by eapply list_elem_of_lookup_2.
Qed.

Section session_stats.
Variable saveArticleNote : Article.t -> JS.outcome string.

Lemma saveArticle_grows (clock : Clock.t) (v : BrowseView.t) :
  (forall a, In a (BrowseView.articles v) -> JS.inherited (Article.journalIssn a) = false) ->
  exists ds, 0 <= ds <= 1
    /\ Inv.grows ds 0 (JournalMonitorData.statistics (BrowseView.data v))
         (JournalMonitorData.statistics
            (BrowseView.data (BrowseView.saveArticle saveArticleNote clock v))).
Proof.
  intros Hkeys. unfold BrowseView.saveArticle.
  destruct (length (BrowseView.articles v) =? 0)%nat;
    [exists 0; split; [lia|apply grows_refl]|].
  destruct (BrowseView.articles v !! BrowseView.currentIndex v) as [a|] eqn:Ea;
    [|exists 0; split; [lia|apply grows_refl]].
  destruct (saveArticleNote a) as [path|e]; [|exists 0; split; [lia|apply grows_refl]].
  exists 1. split; [lia|].
  assert (JS.inherited (Article.journalIssn a) = false) as Hkey
    by (apply Hkeys, list_elem_of_In; by eapply list_elem_of_lookup_2).
  destruct (BrowseView.showsUnseenOnly v); [destruct (BrowseView.spliceCurrent _ _)|];
    simpl; apply grows_saved; by destruct a.
Qed.

Lemma skipArticle_grows (v : BrowseView.t) :
  (forall a, In a (BrowseView.articles v) -> JS.inherited (Article.journalIssn a) = false) ->
  exists dk, 0 <= dk <= 1
    /\ Inv.grows 0 dk (JournalMonitorData.statistics (BrowseView.data v))
         (JournalMonitorData.statistics (BrowseView.data (BrowseView.skipArticle v))).
Proof.
  intros Hkeys. unfold BrowseView.skipArticle.
  destruct (length (BrowseView.articles v) =? 0)%nat;
    [exists 0; split; [lia|apply grows_refl]|].
  destruct (BrowseView.articles v !! BrowseView.currentIndex v) as [a|] eqn:Ea;
    [|exists 0; split; [lia|apply grows_refl]].
  exists 1. split; [lia|].
  assert (JS.inherited (Article.journalIssn a) = false) as Hkey
    by (apply Hkeys, list_elem_of_In; by eapply list_elem_of_lookup_2).
  destruct (BrowseView.showsUnseenOnly v);
    [destruct (BrowseView.spliceCurrent _ _)|destruct (_ <=? _)%nat];
    simpl; apply grows_skipped; by destruct a.
Qed.

Lemma step_grows (v : BrowseView.t) (act : BrowseView.Action) :
  (forall a, In a (BrowseView.articles v) -> JS.inherited (Article.journalIssn a) = false) ->
  exists ds dk,
    0 <= ds <= Inv.saves [act] /\ 0 <= dk <= Inv.skips [act]
    /\ Inv.grows ds dk (JournalMonitorData.statistics (BrowseView.data v))
         (JournalMonitorData.statistics
            (BrowseView.data (BrowseView.step saveArticleNote v act))).
Proof.
  intros Hkeys. destruct act as [clock|clock|clock|]; cbn [BrowseView.step].
  - exists 0, 0. split; [by vm_compute|]. split; [by vm_compute|].
    unfold BrowseView.nextArticle. destruct (_ <? _)%nat; cbn [fst]; [|apply grows_refl].
    destruct (showCurrent_updatesOne clock
                (BrowseView.mk (BrowseView.settings v) (BrowseView.data v)
                   (BrowseView.articles v) (S (BrowseView.currentIndex v))
                   (BrowseView.notices v))) as (_ & _ & _ & ->).
    apply grows_refl.
  - exists 0, 0. split; [by vm_compute|]. split; [by vm_compute|].
    unfold BrowseView.prevArticle. destruct (_ <? _)%nat; cbn [fst]; [|apply grows_refl].
    destruct (showCurrent_updatesOne clock
                (BrowseView.mk (BrowseView.settings v) (BrowseView.data v)
                   (BrowseView.articles v) (BrowseView.currentIndex v - 1)%nat
                   (BrowseView.notices v))) as (_ & _ & _ & ->).
    apply grows_refl.
  - destruct (saveArticle_grows clock v Hkeys) as (ds & Hds & Hg).
    exists ds, 0. split; [exact Hds|]. split; [by vm_compute|exact Hg].
  - destruct (skipArticle_grows v Hkeys) as (dk & Hdk & Hg).
    exists 0, dk. split; [by vm_compute|]. split; [exact Hdk|exact Hg].
Qed.

Lemma run_grows (acts : list BrowseView.Action) (v : BrowseView.t) :
  (forall a, In a (BrowseView.articles v) -> JS.inherited (Article.journalIssn a) = false) ->
  exists ds dk,
    0 <= ds <= Inv.saves acts /\ 0 <= dk <= Inv.skips acts
    /\ Inv.grows ds dk (JournalMonitorData.statistics (BrowseView.data v))
         (JournalMonitorData.statistics
            (BrowseView.data (BrowseView.run saveArticleNote acts v))).
Proof.
  revert v. induction acts as [|act acts IH]; intros v Hkeys.
  - exists 0, 0. split; [done|]. split; [done|]. apply grows_refl.
  - destruct (step_grows v act Hkeys) as (ds1 & dk1 & Hs1 & Hk1 & Hg1).
    destruct (IH (BrowseView.step saveArticleNote v act)) as (ds2 & dk2 & Hs2 & Hk2 & Hg2).
    { apply (updatesOne_issns (fun issn => JS.inherited issn = false) v); [|exact Hkeys].
      apply step_updatesOne. }
    exists (ds1 + ds2), (dk1 + dk2).
    assert (Inv.saves (act :: acts) = Inv.saves [act] + Inv.saves acts) as ->.
    { unfold Inv.saves. simpl. destruct act; simpl; lia. }
    assert (Inv.skips (act :: acts) = Inv.skips [act] + Inv.skips acts) as ->.
    { unfold Inv.skips. simpl. destruct act; simpl; lia. }
    split; [lia|]. split; [lia|]. by eapply grows_trans.
Qed.

End session_stats.


Lemma filterArticles_subset (getTime : string -> option Z)
    (localeCompare : string -> string -> Z) (articles : list Article.t)
    (filter : FilterConfig.t) (allJournals : list JournalConfig.t) (a : Article.t) :
  In a (Utils.filterArticles getTime localeCompare articles filter allJournals) -> In a articles.
Proof.
  rewrite filterArticles_factor. intros Ha. apply sort_In in Ha.
  by apply filter_In in Ha as [Ha _].
Qed.

Lemma filterArticles_NoDup (getTime : string -> option Z)
    (localeCompare : string -> string -> Z) (articles : list Article.t)
    (filter : FilterConfig.t) (allJournals : list JournalConfig.t) :
  NoDup (map Article.doi articles) ->
  NoDup (map Article.doi (Utils.filterArticles getTime localeCompare articles filter allJournals)).
Proof.
  rewrite filterArticles_factor, !NoDup_ListNoDup. intros Hnd.
  eapply Permutation_NoDup; [symmetry; apply Permutation_map, sort_perm|].
  induction articles as [|a l IH]; simpl; [constructor|].
  inversion Hnd as [|? ? Hnotin Hnd']; subst.
  destruct (Inv.kept filter allJournals a); simpl; [|by apply IH].
  constructor; [|by apply IH].
  intros Hin. apply Hnotin. apply in_map_iff in Hin as (b & Hb & Hin).
  apply filter_In in Hin as [Hin _]. apply in_map_iff. by exists b.
Qed.

Lemma create_inBounds (getTime : string -> option Z) (localeCompare : string -> string -> Z)
    (values : list Article.t) (settings : JournalMonitorSettings.t)
    (data : JournalMonitorData.t) :
  Inv.inBounds (BrowseView.create getTime localeCompare values settings data).
Proof.
  unfold Inv.inBounds, BrowseView.create. simpl.
  destruct (Nat.leb_spec (length (Utils.filterArticles getTime localeCompare values
                                    (JournalMonitorSettings.currentFilter settings)
                                    (List.filter JournalConfig.enabled
                                       (JournalMonitorSettings.journals settings))))
              (BrowsePosition.scrollIndex (JournalMonitorData.browsePosition data)))
    as [Hle|Hlt]; [|by left].
  destruct (Utils.filterArticles _ _ _ _ _); [by right|]. left. simpl. lia.
Qed.

(** X4: the current index of a view never leaves the shown articles: after
    the constructor and after any sequence of next, previous, save and skip
    actions, whatever the note writer does, the index points at a shown
    article, or nothing is shown and the index is 0. *)
Theorem session_index_in_bounds (getTime : string -> option Z)
    (localeCompare : string -> string -> Z)
    (saveArticleNote : Article.t -> JS.outcome string)
    (values : list Article.t) (settings : JournalMonitorSettings.t)
    (data : JournalMonitorData.t) (acts : list BrowseView.Action) :
  let v := BrowseView.run saveArticleNote acts
             (BrowseView.create getTime localeCompare values settings data) in
  (BrowseView.currentIndex v < length (BrowseView.articles v))%nat
  \/ (BrowseView.articles v = [] /\ BrowseView.currentIndex v = 0%nat).
Proof.
  apply (run_invariants saveArticleNote acts). apply create_inBounds.
Qed.

(** X5: let every record of the collection be stored under its own
    identifier and let [values] enumerate records of the collection, each at
    most once.  Then after the constructor and any sequence of actions the
    collection has the same identifiers as before (a session adds and
    removes nothing), every record is still stored under its own identifier,
    the view shows no article twice, each shown article is the record that
    the collection holds under its identifier, and the records of the
    articles that the view did not show at the start are as they were. *)
Theorem session_keeps_collection (getTime : string -> option Z)
    (localeCompare : string -> string -> Z)
    (saveArticleNote : Article.t -> JS.outcome string)
    (values : list Article.t) (settings : JournalMonitorSettings.t)
    (data : JournalMonitorData.t) (acts : list BrowseView.Action) :
  Inv.keyed (JournalMonitorData.articles data) ->
  NoDup (map Article.doi values) ->
  (forall a, In a values -> JournalMonitorData.articles data !! Article.doi a = Some a) ->
  let v0 := BrowseView.create getTime localeCompare values settings data in
  let v := BrowseView.run saveArticleNote acts v0 in
  let stored := JournalMonitorData.articles (BrowseView.data v) in
  dom stored = dom (JournalMonitorData.articles data)
  /\ (forall k a, stored !! k = Some a -> Article.doi a = k)
  /\ NoDup (map Article.doi (BrowseView.articles v))
  /\ (forall a, In a (BrowseView.articles v) -> stored !! Article.doi a = Some a)
  /\ (forall k, (forall a, In a (BrowseView.articles v0) -> Article.doi a <> k) ->
                stored !! k = JournalMonitorData.articles data !! k).
Proof.
  intros Hkeyed Hnd Hvalues v0 v stored.
  assert (Inv.coherent v0) as Hc0.
  { subst v0. unfold Inv.coherent, BrowseView.create. cbn [BrowseView.articles BrowseView.data].
    split; [by apply filterArticles_NoDup|].
    intros a Ha. apply Hvalues. by eapply filterArticles_subset. }
  destruct (run_invariants saveArticleNote acts v0) as [_ Hw].
  destruct (Hw Hkeyed Hc0) as (Hk & [Hnd' Hcoh] & Hdom & Hframe).
  split; [exact Hdom|]. split; [exact Hk|]. split; [exact Hnd'|]. split; [exact Hcoh|exact Hframe].
Qed.

(** X6: in a session on a view whose articles have ordinary ISSNs (none is
    a name of Object.prototype) nothing is fetched, the total of saved
    articles grows by at most one per save action and the total of skipped
    articles by at most one per skip action, no counter of a journal ever
    goes down, and the sums of the counters over the journals grow by the
    same amounts as the totals; so totals that agree with these sums before
    a session agree with them after it. *)
Theorem session_statistics (saveArticleNote : Article.t -> JS.outcome string)
    (acts : list BrowseView.Action) (v : BrowseView.t) :
  (forall a, In a (BrowseView.articles v) -> JS.inherited (Article.journalIssn a) = false) ->
  let s := JournalMonitorData.statistics (BrowseView.data v) in
  let s' := JournalMonitorData.statistics
              (BrowseView.data (BrowseView.run saveArticleNote acts v)) in
  (exists ds dk,
     0 <= ds <= Inv.saves acts /\ 0 <= dk <= Inv.skips acts
     /\ Statistics.totalFetched s' = Statistics.totalFetched s
     /\ Statistics.totalSaved s' = Statistics.totalSaved s + ds
     /\ Statistics.totalSkipped s' = Statistics.totalSkipped s + dk
     /\ Inv.total JournalStats.saved (Statistics.byJournal s')
        = Inv.total JournalStats.saved (Statistics.byJournal s) + ds
     /\ Inv.total JournalStats.skipped (Statistics.byJournal s')
        = Inv.total JournalStats.skipped (Statistics.byJournal s) + dk
     /\ forall issn,
          Inv.counterOf JournalStats.fetched (Statistics.byJournal s') issn
          = Inv.counterOf JournalStats.fetched (Statistics.byJournal s) issn
          /\ Inv.counterOf JournalStats.saved (Statistics.byJournal s) issn
             <= Inv.counterOf JournalStats.saved (Statistics.byJournal s') issn
          /\ Inv.counterOf JournalStats.skipped (Statistics.byJournal s) issn
             <= Inv.counterOf JournalStats.skipped (Statistics.byJournal s') issn)
  /\ (Inv.consistent s -> Inv.consistent s').
Proof.
  intros Hkeys s s'.
  destruct (run_grows saveArticleNote acts v Hkeys) as (ds & dk & Hds & Hdk & Hg).
  fold s s' in Hg. destruct Hg as (G1 & G2 & G3 & G4 & G5 & G6 & G7).
  split.
  - exists ds, dk. split; [exact Hds|]. split; [exact Hdk|]. split; [exact G1|].
    split; [exact G2|]. split; [exact G3|]. split; [exact G5|]. split; [exact G6|exact G7].
  - intros (C1 & C2 & C3). unfold Inv.consistent. split; [lia|]. split; lia.
Qed.

Lemma session_statistics_witness :
  Inv.consistent
    (JournalMonitorData.statistics
       (BrowseView.data
          (BrowseView.run Sample.writer
             [BrowseView.Save Sample.clock; BrowseView.Next Sample.laterClock; BrowseView.Skip]
             Sample.viewAll))).
Proof.
  destruct (session_statistics Sample.writer
              [BrowseView.Save Sample.clock; BrowseView.Next Sample.laterClock; BrowseView.Skip]
              Sample.viewAll) as [_ Hcons].
  - intros a Ha. simpl in Ha. by repeat destruct Ha as [<-|Ha].
  - apply Hcons. by vm_compute.
Defined.

(** The same session at a journal whose ISSN names a member of
    Object.prototype: the save is counted in the total and in no counter of
    a journal. *)
Example session_inherited_issn :
  let article :=
    Article.mk "10.1000/j.7" "T" [] "J" "constructor" None None None "2024-03-01" 2024 None
      None "u" None unseen "t" None None None in
  let v :=
    BrowseView.saveArticle Sample.writer Sample.clock
      (BrowseView.mk Sample.settingsAll Sample.freshData [article] 0 []) in
  Statistics.totalSaved (JournalMonitorData.statistics (BrowseView.data v)) = 1
  /\ Statistics.byJournal (JournalMonitorData.statistics (BrowseView.data v)) = ∅.
Proof. by vm_compute. Qed.

Lemma session_keeps_collection_witness :
  let v := BrowseView.run Sample.writer
             [BrowseView.Save Sample.clock; BrowseView.Next Sample.laterClock; BrowseView.Skip]
             (BrowseView.create Sample.getTime Sample.localeCompare
                [Sample.forest; Sample.grove] Sample.settingsAll Sample.freshData) in
  dom (JournalMonitorData.articles (BrowseView.data v))
  = dom (JournalMonitorData.articles Sample.freshData)
  /\ NoDup (map Article.doi (BrowseView.articles v))
  /\ length (BrowseView.articles v) = 2%nat
  /\ Article.state <$> JournalMonitorData.articles (BrowseView.data v) !! "10.1000/j.3"
     = Some saved
  /\ Article.state <$> JournalMonitorData.articles (BrowseView.data v) !! "10.1000/j.1"
     = Some skipped.
Proof.
  intros v.
  destruct (session_keeps_collection Sample.getTime Sample.localeCompare Sample.writer
              [Sample.forest; Sample.grove] Sample.settingsAll Sample.freshData
              [BrowseView.Save Sample.clock; BrowseView.Next Sample.laterClock; BrowseView.Skip])
    as (Hdom & _ & Hnd & _).
  - intros k a H. unfold Sample.freshData in H. simpl in H.
    apply lookup_insert_Some in H as [[<- <-]|[_ H]]; [reflexivity|].
    apply lookup_insert_Some in H as [[<- <-]|[_ H]]; [reflexivity|].
    rewrite lookup_empty in H. discriminate H.
  - apply NoDup_ListNoDup. simpl. repeat constructor; simpl; intuition discriminate.
  - intros a [<-|[<-|[]]]; vm_compute; reflexivity.
  - split; [exact Hdom|]. split; [exact Hnd|]. by vm_compute.
Defined.

(** X7: marking the current article as viewed a second time changes
    nothing: the time of the first view stays, and an article that is
    viewed, saved or skipped is never marked again. *)
Theorem markViewed_idempotent (clock clock' : Clock.t) (v : BrowseView.t) :
  BrowseView.markViewed clock' (BrowseView.markViewed clock v) = BrowseView.markViewed clock v
  /\ (forall a, BrowseView.articles v !! BrowseView.currentIndex v = Some a ->
                Article.state a <> unseen -> BrowseView.markViewed clock v = v).
Proof.
  split.
  - unfold BrowseView.markViewed at 2.
    destruct (length (BrowseView.articles v) =? 0)%nat eqn:Elen.
    { unfold BrowseView.markViewed. by rewrite Elen. }
    destruct (BrowseView.articles v !! BrowseView.currentIndex v) as [a|] eqn:Ea.
    2: { unfold BrowseView.markViewed. by rewrite Elen, Ea. }
    destruct (String.eqb (ArticleState_str (Article.state a)) "unseen") eqn:Est.
    2: { unfold BrowseView.markViewed. by rewrite Elen, Ea, Est. }
    unfold BrowseView.markViewed. cbn [BrowseView.articles BrowseView.currentIndex].
    rewrite length_insert, Elen.
    rewrite list_lookup_insert_eq by (by eapply lookup_lt_Some).
    rewrite Ea, Est. by destruct a.
  - intros a Ha Hst. unfold BrowseView.markViewed. rewrite Ha.
    destruct (length (BrowseView.articles v) =? 0)%nat; [done|].
    by destruct (Article.state a).
Qed.

Lemma delete_insert_same {A : Type} (l : list A) (i : nat) (x : A) :
  delete i (<[i := x]> l) = delete i l.
Proof. revert i. induction l as [|y l IH]; intros [|i]; simpl; try done. by rewrite IH. Qed.

Lemma lookup_delete_same {A : Type} (l : list A) (i : nat) : delete i l !! i = l !! S i.
Proof. by rewrite list_lookup_delete_ge. Qed.

(** X8: in a view of unseen articles only, saving the current article (with
    a note written) or skipping it takes it off the view, so the view gets
    shorter by one; when an article follows, the index stays and that
    article becomes the current one, and when the article was the last one
    the index steps back by one. *)
Theorem unseen_view_advances (saveArticleNote : Article.t -> JS.outcome string)
    (clock : Clock.t) (v : BrowseView.t) (a : Article.t) :
  BrowseView.showsUnseenOnly v = true ->
  BrowseView.articles v !! BrowseView.currentIndex v = Some a ->
  let i := BrowseView.currentIndex v in
  let l := BrowseView.articles v in
  let advanced v' :=
    BrowseView.articles v' = delete i l
    /\ S (length (BrowseView.articles v')) = length l
    /\ ((S i < length l)%nat ->
        BrowseView.currentIndex v' = i /\ BrowseView.articles v' !! i = l !! S i)
    /\ (S i = length l -> BrowseView.currentIndex v' = (i - 1)%nat) in
  ((exists path, saveArticleNote a = JS.Ok path) ->
   advanced (BrowseView.saveArticle saveArticleNote clock v))
  /\ advanced (BrowseView.skipArticle v).
Proof.
  intros Hunseen Ha i l advanced.
  assert (i < length l)%nat as Hi by (by eapply lookup_lt_Some).
  assert (forall a', BrowseView.spliceCurrent (<[i := a']> l) i
                     = (delete i l,
                        if (length (delete i l) <=? i)%nat
                        then Nat.max 0 (length (delete i l) - 1) else i)) as Hsplice.
  { intros a'. unfold BrowseView.spliceCurrent. rewrite delete_insert_same.
    by destruct (length (delete i l) <=? i)%nat. }
  assert (S (length (delete i l)) = length l) as Hlen.
  { rewrite length_delete by (subst l i; rewrite Ha; eauto). lia. }
  assert (forall v',
            BrowseView.articles v' = delete i l ->
            BrowseView.currentIndex v'
            = (if (length (delete i l) <=? i)%nat
               then Nat.max 0 (length (delete i l) - 1) else i) ->
            advanced v') as Hadv.
  { intros v' Hl' Hi'. subst advanced. cbv beta.
    split; [exact Hl'|]. split; [by rewrite Hl'|]. split.
    - intros Hnext. rewrite Hi', Hl'.
      destruct (Nat.leb_spec (length (delete i l)) i); [lia|].
      split; [done|apply lookup_delete_same].
    - intros Hlast. rewrite Hi'.
      destruct (Nat.leb_spec (length (delete i l)) i); lia. }
  split.
  - intros [path Hnote]. apply Hadv; unfold BrowseView.saveArticle;
      rewrite (current_nonempty _ _ _ Ha), Ha, Hnote, Hunseen; fold i l; by rewrite Hsplice.
  - apply Hadv; unfold BrowseView.skipArticle;
      rewrite (current_nonempty _ _ _ Ha), Ha, Hunseen; fold i l; by rewrite Hsplice.
Qed.

Lemma unseen_view_advances_witness :
  map Article.title
    (BrowseView.articles (BrowseView.saveArticle Sample.writer Sample.clock Sample.view))
  = ["Grove"]
  /\ BrowseView.currentIndex (BrowseView.skipArticle Sample.view) = 0%nat.
Proof.
  destruct (unseen_view_advances Sample.writer Sample.clock Sample.view Sample.forest
              eq_refl eq_refl) as [Hsave (_ & _ & Hnext & _)].
  destruct (Hsave (ex_intro _ "Articles/Forest.md" eq_refl)) as (Hl & _).
  split; [by rewrite Hl|]. apply Hnext. simpl. lia.
Defined.

(** X9: the save action does not look at the state of the article: in a
    view that keeps saved articles on display, saving the current article
    twice (the note writer answering both times) counts it twice, in
    totalSaved and in the saved counter of its journal, while the collection
    holds one record for it, saved at the time of the second save.  The
    counter of the journal is kept when the ISSN is no name of
    Object.prototype, the record when the identifier is not [__proto__]. *)
Theorem saveArticle_twice_counts_twice (saveArticleNote : Article.t -> JS.outcome string)
    (clock clock' : Clock.t) (v : BrowseView.t) (a : Article.t) (path path' : string) :
  BrowseView.showsUnseenOnly v = false ->
  BrowseView.articles v !! BrowseView.currentIndex v = Some a ->
  let saved_a :=
    Article.set_savedPath (Some path)
      (Article.set_savedAt (Some (Clock.nowISO clock)) (Article.set_state saved a)) in
  saveArticleNote a = JS.Ok path ->
  saveArticleNote saved_a = JS.Ok path' ->
  let v2 := BrowseView.saveArticle saveArticleNote clock'
              (BrowseView.saveArticle saveArticleNote clock v) in
  let s := JournalMonitorData.statistics (BrowseView.data v) in
  let s2 := JournalMonitorData.statistics (BrowseView.data v2) in
  Statistics.totalSaved s2 = Statistics.totalSaved s + 2
  /\ (JS.inherited (Article.journalIssn a) = false ->
      Inv.counterOf JournalStats.saved (Statistics.byJournal s2) (Article.journalIssn a)
      = Inv.counterOf JournalStats.saved (Statistics.byJournal s) (Article.journalIssn a) + 2)
  /\ (Article.doi a <> "__proto__" ->
      JournalMonitorData.articles (BrowseView.data v2) !! Article.doi a
      = Some (Article.set_savedPath (Some path')
                (Article.set_savedAt (Some (Clock.nowISO clock')) saved_a))
      /\ dom (JournalMonitorData.articles (BrowseView.data v2))
         = {[Article.doi a]} ∪ dom (JournalMonitorData.articles (BrowseView.data v))).
Proof.
  intros Hall Ha saved_a Hnote Hnote' v2 s s2.
  set (v1 := BrowseView.saveArticle saveArticleNote clock v) in *.
  destruct (saveArticle_data saveArticleNote clock v a path Ha Hnote)
    as (A1 & A2 & _ & _ & A5).
  fold v1 saved_a in A1, A2, A5.
  assert (BrowseView.articles v1 !! BrowseView.currentIndex v1 = Some saved_a
          /\ BrowseView.showsUnseenOnly v1 = false) as [Ha1 Hall1].
  { subst v1. unfold BrowseView.saveArticle.
    rewrite (current_nonempty _ _ _ Ha), Ha, Hnote, Hall.
    cbn [BrowseView.articles BrowseView.currentIndex].
    split; [|exact Hall].
    rewrite list_lookup_insert_eq by (by eapply lookup_lt_Some). done. }
  destruct (saveArticle_data saveArticleNote clock' v1 saved_a path' Ha1 Hnote')
    as (B1 & B2 & _ & _ & B5).
  fold v2 in B1, B2, B5. fold s2 in B2, B5. fold s in A2, A5.
  assert (Article.doi saved_a = Article.doi a
          /\ Article.journalIssn saved_a = Article.journalIssn a) as [Hdoi Hissn]
    by (by destruct a).
  split; [lia|]. split.
  - intros Hkey. unfold Inv.counterOf.
    rewrite B5, Hissn, bumpJournal_lookup, decide_True by done.
    rewrite A5, bumpJournal_lookup, decide_True by done. simpl. lia.
  - intros Hkey. rewrite Hdoi in B1. rewrite !assign_insert in B1, A1 by done. split.
    + rewrite B1, lookup_insert_eq. by destruct a.
    + rewrite B1, A1, !dom_insert_L. set_solver.
Qed.

Lemma saveArticle_twice_counts_twice_witness :
  Statistics.totalSaved
    (JournalMonitorData.statistics
       (BrowseView.data
          (BrowseView.saveArticle Sample.writer Sample.laterClock
             (BrowseView.saveArticle Sample.writer Sample.clock Sample.viewAll))))
  = 2
  /\ Inv.counterOf JournalStats.saved
       (Statistics.byJournal
          (JournalMonitorData.statistics
             (BrowseView.data
                (BrowseView.saveArticle Sample.writer Sample.laterClock
                   (BrowseView.saveArticle Sample.writer Sample.clock Sample.viewAll)))))
       "0906-7590"
     = 2.
Proof.
  destruct (saveArticle_twice_counts_twice Sample.writer Sample.clock Sample.laterClock
              Sample.viewAll Sample.forest "Articles/Forest.md" "Articles/Forest.md"
              eq_refl eq_refl eq_refl eq_refl) as (H & Hcounter & _).
  split; [exact H|]. exact (Hcounter eq_refl).
Defined.

(** ** main.ts: more on the sync pass *)

Section sync_more.
Variable fetchFromOpenAlex :
  JournalConfig.t -> string -> string -> Z -> option string -> JS.outcome (list Article.t).
Variable fetchFromCrossRef :
  JournalConfig.t -> string -> string -> Z -> option string -> JS.outcome (list Article.t).
Variable fetchAbstractFromCrossRef : string -> option string.
Variable getDateDaysAgo : Z -> string.
Variable startClock endClock : Clock.t.

(** A relation between the variables of the loop that every step of the
    loop respects, for the journals of the pass, holds between its start
    and its end. *)
Lemma syncLoop_invariant (R : Main.LoopState -> Main.LoopState -> Prop)
    (P : JournalConfig.t -> Prop)
    (settings : JournalMonitorSettings.t) (from to : string) :
  (forall st, R st st) ->
  (forall a b c, R a b -> R b c -> R a c) ->
  (forall journal st a, P journal -> R st (Main.mergeArticle journal st a)) ->
  (forall st n, R st (Main.mkLoop (Main.loop_data st) (Main.newArticleCount st)
                        (Main.totalFetched st + n))) ->
  forall journals st st',
    (forall journal, In journal journals -> P journal) ->
    Main.syncLoop fetchFromOpenAlex fetchFromCrossRef settings from to journals st = JS.Ok st' ->
    R st st'.
Proof.
  intros Hrefl Htrans Hmerge Htotal journals.
  induction journals as [|journal rest IH]; intros st st' HP Hrun; simpl in Hrun.
  - injection Hrun as <-. apply Hrefl.
  - assert (forall j, In j rest -> P j) as HPrest by (intros j Hj; apply HP; by right).
    unfold Main.fetchJournal in Hrun.
    destruct (Main.callAdapter fetchFromOpenAlex fetchFromCrossRef settings from to journal)
      as [articles|e]; cbn [JS.try_catch mbind outcome_bind JS.bind mret outcome_ret] in Hrun.
    2: { by apply IH. }
    assert (forall l st0, R st0 (fold_left (Main.mergeArticle journal) l st0)) as Hfold.
    { induction l as [|a l IHl]; intros st0; simpl; [apply Hrefl|].
      eapply Htrans; [apply Hmerge; apply HP; by left|apply IHl]. }
    eapply Htrans; [apply (Htotal st (Z.of_nat (length articles)))|].
    eapply Htrans; [apply Hfold|by apply IH].
Qed.

Lemma loopKeeps_merge (journal : JournalConfig.t) (st : Main.LoopState) (a : Article.t) :
  JS.inherited (JournalConfig.issn journal) = false ->
  Inv.loopKeeps st (Main.mergeArticle journal st a).
Proof.
  intros Hkey. unfold Inv.loopKeeps, Main.mergeArticle.
  destruct (JS.truthyAt (JournalMonitorData.articles (Main.loop_data st)) (Article.doi a))
    eqn:E.
  - split; [done|]. split; [done|]. split; [done|]. split; [done|]. split; [done|].
    split; [done|]. split; [done|lia].
  - cbn [Main.loop_data Main.newArticleCount JournalMonitorData.articles
         JournalMonitorData.statistics Statistics.byJournal Statistics.totalFetched
         Statistics.totalSaved Statistics.totalSkipped Store.set_statistics
         Store.set_byJournal Store.set_articles].
    rewrite !total_bumpJournal by done.
    split; [|split; [|split; [|split; [|split; [|split; [|split]]]]]];
      try done; try (simpl; lia).
    intros Hkeyed k b Hb. destruct (decide (k = Article.doi a)) as [->|Hk].
    + rewrite lookup_insert_eq in Hb. by injection Hb as <-.
    + rewrite lookup_insert_ne in Hb by done. by eapply Hkeyed.
Qed.

Lemma syncLoop_keeps (settings : JournalMonitorSettings.t) (from to : string)
    (journals : list JournalConfig.t) (st st' : Main.LoopState) :
  (forall journal, In journal journals -> JS.inherited (JournalConfig.issn journal) = false) ->
  Main.syncLoop fetchFromOpenAlex fetchFromCrossRef settings from to journals st = JS.Ok st' ->
  Inv.loopKeeps st st'.
Proof.
  apply (syncLoop_invariant Inv.loopKeeps
           (fun journal => JS.inherited (JournalConfig.issn journal) = false)).
  - intros s. unfold Inv.loopKeeps. split; [done|]. split; [done|]. split; [done|].
    split; [done|]. split; [done|]. split; [done|]. split; [done|lia].
  - intros a b c (A1 & A2 & A3 & A4 & A5 & A6 & A7 & A8) (B1 & B2 & B3 & B4 & B5 & B6 & B7 & B8).
    unfold Inv.loopKeeps. split; [auto|]. split; [lia|]. split; [lia|]. split; [lia|].
    split; [lia|]. split; [lia|]. split; lia.
  - intros journal s a Hkey. by apply loopKeeps_merge.
  - intros s n. unfold Inv.loopKeeps. simpl. split; [done|]. split; [done|]. split; [done|].
    split; [done|]. split; [done|]. split; [done|]. split; [done|lia].
Qed.

(** What the loop keeps whatever the ISSNs of the journals are: the keys of
    the records, the totals, and a count that does not go down. *)
Lemma syncLoop_keyed (settings : JournalMonitorSettings.t) (from to : string)
    (journals : list JournalConfig.t) (st st' : Main.LoopState) :
  Main.syncLoop fetchFromOpenAlex fetchFromCrossRef settings from to journals st = JS.Ok st' ->
  (Inv.keyed (JournalMonitorData.articles (Main.loop_data st)) ->
   Inv.keyed (JournalMonitorData.articles (Main.loop_data st')))
  /\ Main.newArticleCount st <= Main.newArticleCount st'.
Proof.
  apply (syncLoop_invariant
           (fun s s' =>
              (Inv.keyed (JournalMonitorData.articles (Main.loop_data s)) ->
               Inv.keyed (JournalMonitorData.articles (Main.loop_data s')))
              /\ Main.newArticleCount s <= Main.newArticleCount s')
           (fun _ => True)); [| | | |done].
  - intros s. split; [done|lia].
  - intros a b c [A1 A2] [B1 B2]. split; [auto|lia].
  - intros journal s a _. unfold Main.mergeArticle.
    destruct (JS.truthyAt (JournalMonitorData.articles (Main.loop_data s)) (Article.doi a));
      [split; [done|lia]|].
    simpl. split; [|lia].
    intros Hkeyed k b Hb. destruct (decide (k = Article.doi a)) as [->|Hk].
    + rewrite lookup_insert_eq in Hb. by injection Hb as <-.
    + rewrite lookup_insert_ne in Hb by done. by eapply Hkeyed.
  - intros s n. simpl. split; [done|lia].
Qed.

Lemma backfillStore_keyed (lastFetch : string) (m : gmap string Article.t) :
  Inv.keyed m -> Inv.keyed (Main.backfillStore fetchAbstractFromCrossRef lastFetch m).
Proof.
  intros Hkeyed k b Hb. pose proof (backfillStore_lookup fetchAbstractFromCrossRef lastFetch m k) as H.
  rewrite Hb in H. destruct (m !! k) as [a|] eqn:Ea; [|done].
  destruct (sameButAbstract_fields _ _ H) as [-> _]. by eapply Hkeyed.
Qed.

Lemma fetchArticles_invariants (settings : JournalMonitorSettings.t)
    (data : JournalMonitorData.t) (r : Main.SyncResult) :
  Main.fetchArticles fetchFromOpenAlex fetchFromCrossRef fetchAbstractFromCrossRef
    getDateDaysAgo startClock endClock settings data = JS.Ok r ->
  (Inv.keyed (JournalMonitorData.articles data) ->
   Inv.keyed (JournalMonitorData.articles (Main.sync_data r)))
  /\ ((forall journal,
         In journal (List.filter JournalConfig.enabled (JournalMonitorSettings.journals settings)) ->
         JS.inherited (JournalConfig.issn journal) = false) ->
      Inv.consistent (JournalMonitorData.statistics data) ->
      Inv.consistent (JournalMonitorData.statistics (Main.sync_data r)))
  /\ 0 <= Main.sync_newArticleCount r.
Proof.
  unfold Main.fetchArticles.
  destruct (List.filter JournalConfig.enabled (JournalMonitorSettings.journals settings))
    as [|j0 js] eqn:Een.
  - simpl. intros Hr. injection Hr as <-. simpl. split; [done|]. split; [done|lia].
  - cbn [length Nat.eqb].
    destruct (Main.syncLoop fetchFromOpenAlex fetchFromCrossRef settings
                (Main.syncFrom getDateDaysAgo startClock settings) (Main.syncTo startClock)
                (j0 :: js) (Main.mkLoop data 0 0)) as [st|e] eqn:Hrun;
      cbn [mbind outcome_bind JS.bind mret outcome_ret]; [|discriminate].
    intros Hr. injection Hr as <-.
    destruct (syncLoop_keyed _ _ _ _ _ _ Hrun) as (K1 & K8).
    cbn [Main.loop_data Main.newArticleCount] in K1, K8.
    cbn [Main.sync_data Main.sync_newArticleCount].
    split; [|split; [|lia]].
    + intros Hkeyed. destruct (_ && _); simpl; [|by apply K1].
      apply backfillStore_keyed. by apply K1.
    + intros Hkeys (C1 & C2 & C3).
      destruct (syncLoop_keeps _ _ _ _ _ _ Hkeys Hrun) as (_ & K2 & K3 & K4 & K5 & K6 & K7 & _).
      cbn [Main.loop_data Main.newArticleCount] in K2, K3, K4, K5, K6, K7.
      unfold Inv.consistent.
      destruct (_ && _); simpl; (split; [lia|split; lia]).
Qed.

End sync_more.

Lemma fold_insertIfAbsent_find (l : list Article.t) (m : gmap string Article.t) (k : string) :
  m !! k = None ->
  fold_left Spec.insertIfAbsent l m !! k = List.find (fun b => String.eqb (Article.doi b) k) l.
Proof.
  revert m. induction l as [|a l IH]; intros m Hk; simpl; [exact Hk|].
  destruct (String.eqb_spec (Article.doi a) k) as [Heq|Hne].
  - apply fold_insertIfAbsent_keeps. rewrite insertIfAbsent_lookup, Hk.
    by rewrite decide_True.
  - apply IH. rewrite insertIfAbsent_lookup, Hk. by rewrite decide_False.
Qed.

Lemma size_identifiers_le (l : list Article.t) : (size (Spec.identifiers l) <= length l)%nat.
Proof.
  unfold Spec.identifiers. induction l as [|a l IH]; simpl.
  - change (size (∅ : gset string) <= 0)%nat. by rewrite size_empty.
  - change (size ({[Article.doi a]} ∪ (list_to_set (map Article.doi l) : gset string))
            <= S (length l))%nat.
    destruct (decide (Article.doi a ∈ (list_to_set (map Article.doi l) : gset string)))
      as [Hin|Hnotin].
    + assert ({[Article.doi a]} ∪ list_to_set (map Article.doi l)
              = (list_to_set (map Article.doi l) : gset string)) as -> by set_solver.
      lia.
    + rewrite size_union by set_solver. rewrite size_singleton. lia.
Qed.

Section sync_counts.
Variable fetchFromOpenAlex :
  JournalConfig.t -> string -> string -> Z -> option string -> JS.outcome (list Article.t).
Variable fetchFromCrossRef :
  JournalConfig.t -> string -> string -> Z -> option string -> JS.outcome (list Article.t).
Variable fetchAbstractFromCrossRef : string -> option string.
Variable getDateDaysAgo : Z -> string.
Variable startClock endClock : Clock.t.

(** The identifiers after a pass, and the count of new articles. *)
Lemma fetchArticles_dom (settings : JournalMonitorSettings.t) (data : JournalMonitorData.t) :
  exists r,
    Main.fetchArticles fetchFromOpenAlex fetchFromCrossRef fetchAbstractFromCrossRef
      getDateDaysAgo startClock endClock settings data = JS.Ok r
    /\ let fetched :=
         flat_map
           (Main.fetchedOk fetchFromOpenAlex fetchFromCrossRef settings
              (Main.syncFrom getDateDaysAgo startClock settings) (Main.syncTo startClock))
           (List.filter JournalConfig.enabled (JournalMonitorSettings.journals settings)) in
       let known := dom (JournalMonitorData.articles data) in
       dom (JournalMonitorData.articles (Main.sync_data r))
       = known ∪ Spec.identifiers (Spec.storable fetched)
       /\ Main.sync_newArticleCount r
          = Z.of_nat (size (Spec.identifiers (Spec.storable fetched) ∖ known))
       /\ Main.sync_totalFetched r = Z.of_nat (length fetched)
       /\ Statistics.totalFetched (JournalMonitorData.statistics (Main.sync_data r))
          = Statistics.totalFetched (JournalMonitorData.statistics data)
            + Main.sync_newArticleCount r
       /\ forall k,
            match JournalMonitorData.articles (Main.sync_data r) !! k,
                  fold_left Spec.insertIfAbsent (Spec.storable fetched)
                    (JournalMonitorData.articles data) !! k with
            | Some r', Some r0 => Spec.sameButAbstract r' r0
            | None, None => True
            | _, _ => False
            end.
Proof.
  destruct (fetchArticles_result fetchFromOpenAlex fetchFromCrossRef fetchAbstractFromCrossRef
              getDateDaysAgo startClock endClock settings data)
    as (r & Hrun & Hlook & Hsize & Htf & Htotal & _).
  exists r. split; [exact Hrun|]. intros fetched known.
  change (flat_map _ (List.filter _ _)) with fetched in Hlook, Htf.
  assert (dom (JournalMonitorData.articles (Main.sync_data r))
          = known ∪ Spec.identifiers (Spec.storable fetched)) as Hdom.
  { subst known. rewrite <- fold_insertIfAbsent_dom. apply set_eq. intros k.
    rewrite !elem_of_dom. specialize (Hlook k).
    destruct (JournalMonitorData.articles (Main.sync_data r) !! k),
             (fold_left Spec.insertIfAbsent (Spec.storable fetched)
                (JournalMonitorData.articles data) !! k);
      try done; split; intros [? ?]; eauto; discriminate. }
  split; [exact Hdom|]. split; [by eapply grown_size|]. split; [exact Htf|].
  split; [exact Htotal|exact Hlook].
Qed.

End sync_counts.

(** X10: a pass keeps the invariants of the data: when every record is
    stored under its own identifier and the totals of the statistics agree
    with the sums of the counters of the journals, the pass returns and both
    still hold afterwards, whatever the adapters and the backfill answer;
    the second for enabled journals with ordinary ISSNs (none is a name of
    Object.prototype, for which no counter is kept). *)
Theorem fetchArticles_keeps_invariants
    (fetchFromOpenAlex fetchFromCrossRef :
       JournalConfig.t -> string -> string -> Z -> option string -> JS.outcome (list Article.t))
    (fetchAbstractFromCrossRef : string -> option string) (getDateDaysAgo : Z -> string)
    (startClock endClock : Clock.t)
    (settings : JournalMonitorSettings.t) (data : JournalMonitorData.t) :
  Inv.keyed (JournalMonitorData.articles data) ->
  Inv.consistent (JournalMonitorData.statistics data) ->
  exists r,
    Main.fetchArticles fetchFromOpenAlex fetchFromCrossRef fetchAbstractFromCrossRef
      getDateDaysAgo startClock endClock settings data = JS.Ok r
    /\ (forall k a, JournalMonitorData.articles (Main.sync_data r) !! k = Some a ->
                    Article.doi a = k)
    /\ ((forall journal,
           In journal (List.filter JournalConfig.enabled
                         (JournalMonitorSettings.journals settings)) ->
           JS.inherited (JournalConfig.issn journal) = false) ->
        Inv.consistent (JournalMonitorData.statistics (Main.sync_data r))).
Proof.
  intros Hkeyed Hcons.
  destruct (fetchArticles_result fetchFromOpenAlex fetchFromCrossRef fetchAbstractFromCrossRef
              getDateDaysAgo startClock endClock settings data) as (r & Hrun & _).
  destruct (fetchArticles_invariants _ _ _ _ _ _ _ _ _ Hrun) as (H1 & H2 & _).
  exists r. split; [exact Hrun|]. split; [by apply H1|]. intros Hkeys. by apply H2.
Qed.

Lemma fetchArticles_keeps_invariants_witness :
  exists r,
    Main.fetchArticles Sample.adapter Sample.adapter (fun _ => None) (fun _ => "2024-02-01")
      Sample.clock Sample.endClock Sample.settings Sample.data = JS.Ok r
    /\ Inv.consistent (JournalMonitorData.statistics (Main.sync_data r)).
Proof.
  destruct (fetchArticles_keeps_invariants Sample.adapter Sample.adapter (fun _ => None)
              (fun _ => "2024-02-01") Sample.clock Sample.endClock Sample.settings Sample.data)
    as (r & Hrun & _ & Hcons).
  - intros k a H. unfold Sample.data in H. simpl in H.
    apply lookup_insert_Some in H as [[<- <-]|[_ H]]; [reflexivity|].
    rewrite lookup_empty in H. discriminate H.
  - repeat split.
  - exists r. split; [exact Hrun|]. apply Hcons.
    intros journal Hj. simpl in Hj. by repeat destruct Hj as [<-|Hj].
Defined.

Lemma find_storable (l : list Article.t) (k : string) :
  List.find (fun a => String.eqb (Article.doi a) k) (Spec.storable l)
  = if JS.inherited k then None else List.find (fun a => String.eqb (Article.doi a) k) l.
Proof.
  unfold Spec.storable. induction l as [|a l IH]; simpl; [by destruct (JS.inherited k)|].
  destruct (String.eqb_spec (Article.doi a) k) as [Heq|Hne].
  - rewrite Heq. destruct (JS.inherited k) eqn:Ek; simpl.
    + rewrite IH. done.
    + by rewrite Heq, String.eqb_refl.
  - destruct (negb (JS.inherited (Article.doi a))); simpl; [|exact IH].
    destruct (String.eqb_spec (Article.doi a) k); [done|exact IH].
Qed.

(** X11: the count of new articles of a pass lies between 0 and the number
    of articles fetched; and when several fetched articles carry the same
    identifier, one not yet in the collection and no name of
    Object.prototype, the first of them in the order of the journals and of
    the answers is the one stored (with, at most, a backfilled abstract).
    Under an identifier that is a name of Object.prototype and was no key
    before, nothing is stored. *)
Theorem fetchArticles_first_fetched_wins
    (fetchFromOpenAlex fetchFromCrossRef :
       JournalConfig.t -> string -> string -> Z -> option string -> JS.outcome (list Article.t))
    (fetchAbstractFromCrossRef : string -> option string) (getDateDaysAgo : Z -> string)
    (startClock endClock : Clock.t)
    (settings : JournalMonitorSettings.t) (data : JournalMonitorData.t) :
  exists r,
    Main.fetchArticles fetchFromOpenAlex fetchFromCrossRef fetchAbstractFromCrossRef
      getDateDaysAgo startClock endClock settings data = JS.Ok r
    /\ let call :=
         Main.callAdapter fetchFromOpenAlex fetchFromCrossRef settings
           (Main.syncFrom getDateDaysAgo startClock settings) (Main.syncTo startClock) in
       let fetched :=
         flat_map (fun journal => match call journal with
                                  | JS.Ok articles => articles
                                  | JS.Throw _ => []
                                  end)
           (List.filter JournalConfig.enabled (JournalMonitorSettings.journals settings)) in
       0 <= Main.sync_newArticleCount r <= Main.sync_totalFetched r
       /\ Main.sync_totalFetched r = Z.of_nat (length fetched)
       /\ (forall k first,
             JournalMonitorData.articles data !! k = None ->
             JS.inherited k = false ->
             List.find (fun a => String.eqb (Article.doi a) k) fetched = Some first ->
             exists stored,
               JournalMonitorData.articles (Main.sync_data r) !! k = Some stored
               /\ Spec.sameButAbstract stored first)
       /\ (forall k,
             JournalMonitorData.articles data !! k = None ->
             JS.inherited k = true ->
             JournalMonitorData.articles (Main.sync_data r) !! k = None).
Proof.
  destruct (fetchArticles_dom fetchFromOpenAlex fetchFromCrossRef fetchAbstractFromCrossRef
              getDateDaysAgo startClock endClock settings data)
    as (r & Hrun & Hdom & Hcount & Htf & _ & Hlook).
  exists r. split; [exact Hrun|]. intros call fetched.
  change (flat_map _ (List.filter _ _)) with fetched in Hdom, Hcount, Htf, Hlook.
  split; [|split; [exact Htf|split]].
  - rewrite Hcount, Htf. split; [lia|].
    apply inj_le. etransitivity; [|apply (filter_length_le
                                            (fun a => negb (JS.inherited (Article.doi a))) fetched)].
    etransitivity; [|apply size_identifiers_le].
    apply subseteq_size. set_solver.
  - intros k first Hnew Hkey Hfind. specialize (Hlook k).
    rewrite (fold_insertIfAbsent_find _ _ _ Hnew), find_storable, Hkey, Hfind in Hlook.
    destruct (JournalMonitorData.articles (Main.sync_data r) !! k) as [stored|]; [|done].
    by exists stored.
  - intros k Hnew Hkey. specialize (Hlook k).
    rewrite (fold_insertIfAbsent_find _ _ _ Hnew), find_storable, Hkey in Hlook.
    by destruct (JournalMonitorData.articles (Main.sync_data r) !! k).
Qed.

Lemma fetchArticles_first_fetched_wins_witness :
  exists r stored,
    Main.fetchArticles Sample.adapter Sample.adapter (fun _ => None) (fun _ => "2024-02-01")
      Sample.clock Sample.endClock Sample.settings Sample.data = JS.Ok r
    /\ JournalMonitorData.articles (Main.sync_data r) !! "10.1000/j.2" = Some stored
    /\ Spec.sameButAbstract stored Sample.meadow.
Proof.
  destruct (fetchArticles_first_fetched_wins Sample.adapter Sample.adapter (fun _ => None)
              (fun _ => "2024-02-01") Sample.clock Sample.endClock Sample.settings Sample.data)
    as (r & Hrun & _ & _ & Hfirst & _).
  destruct (Hfirst "10.1000/j.2" Sample.meadow) as (stored & Hstored & Hsame);
    [by vm_compute|reflexivity|by vm_compute|].
  by exists r, stored.
Defined.

(** X12: a second pass that gets the same answers finds nothing new: run
    on the data that the first pass left, it counts 0 new articles, leaves
    the identifiers of the collection and the statistics total as they
    are, and changes no record except, at most, for a backfilled abstract. *)
Theorem fetchArticles_second_pass_adds_nothing
    (fetchFromOpenAlex fetchFromCrossRef :
       JournalConfig.t -> string -> string -> Z -> option string -> JS.outcome (list Article.t))
    (fetchAbstractFromCrossRef : string -> option string) (getDateDaysAgo : Z -> string)
    (startClock endClock endClock' : Clock.t)
    (settings : JournalMonitorSettings.t) (data : JournalMonitorData.t) :
  exists r1 r2,
    Main.fetchArticles fetchFromOpenAlex fetchFromCrossRef fetchAbstractFromCrossRef
      getDateDaysAgo startClock endClock settings data = JS.Ok r1
    /\ Main.fetchArticles fetchFromOpenAlex fetchFromCrossRef fetchAbstractFromCrossRef
         getDateDaysAgo startClock endClock' settings (Main.sync_data r1) = JS.Ok r2
    /\ Main.sync_newArticleCount r2 = 0
    /\ dom (JournalMonitorData.articles (Main.sync_data r2))
       = dom (JournalMonitorData.articles (Main.sync_data r1))
    /\ Statistics.totalFetched (JournalMonitorData.statistics (Main.sync_data r2))
       = Statistics.totalFetched (JournalMonitorData.statistics (Main.sync_data r1))
    /\ forall k a1,
         JournalMonitorData.articles (Main.sync_data r1) !! k = Some a1 ->
         exists a2, JournalMonitorData.articles (Main.sync_data r2) !! k = Some a2
                    /\ Spec.sameButAbstract a2 a1.
Proof.
  destruct (fetchArticles_dom fetchFromOpenAlex fetchFromCrossRef fetchAbstractFromCrossRef
              getDateDaysAgo startClock endClock settings data)
    as (r1 & Hrun1 & Hdom1 & _).
  destruct (fetchArticles_dom fetchFromOpenAlex fetchFromCrossRef fetchAbstractFromCrossRef
              getDateDaysAgo startClock endClock' settings (Main.sync_data r1))
    as (r2 & Hrun2 & Hdom2 & Hcount2 & _ & Htotal2 & Hlook2).
  exists r1, r2. split; [exact Hrun1|]. split; [exact Hrun2|].
  cbv zeta in Hdom1, Hdom2, Hcount2, Hlook2.
  set (ids := Spec.identifiers (Spec.storable (flat_map _ _))) in *.
  assert (ids ∖ dom (JournalMonitorData.articles (Main.sync_data r1)) = ∅)
    as Hnone by (rewrite Hdom1; set_solver).
  assert (Main.sync_newArticleCount r2 = 0) as Hzero
    by (by rewrite Hcount2, Hnone, size_empty).
  split; [exact Hzero|]. split; [rewrite Hdom2, Hdom1; set_solver|]. split; [lia|].
  intros k a1 Ha1. specialize (Hlook2 k).
  rewrite (fold_insertIfAbsent_keeps _ _ _ _ Ha1) in Hlook2.
  destruct (JournalMonitorData.articles (Main.sync_data r2) !! k) as [a2|]; [|done].
  by exists a2.
Qed.

(** ** api.ts: the citation-registry adapter and the backfill *)

Lemma or_str_nonempty (o : option string) (d : string) : d <> "" -> JS.or_str o d <> "".
Proof. intros Hd. by destruct o as [[|c s]|]. Qed.

Lemma truthy_str_unusable (o : option string) :
  JS.truthy_str o = false <-> o = None \/ o = Some "".
Proof.
  destruct o as [[|c s]|]; simpl; split; try done.
  - intros _. by right.
  - intros [H|H]; discriminate H.
  - intros _. by left.
Qed.

(** X13: formatCrossRefAuthors gives one name per author entry, in order,
    and never an empty name; without an author list there are no names.
    The name of an entry is its [name] when that is present and not empty;
    else "family, given" when both are present and not empty; else the
    family name, else the given name, when present and not empty; and
    "Unknown" when none of the three is. *)
Theorem formatCrossRefAuthors_names :
  Api.formatCrossRefAuthors None = []
  /\ forall authors,
       let unusable (o : option string) := o = None \/ o = Some "" in
       length (Api.formatCrossRefAuthors (Some authors)) = length authors
       /\ (forall name, In name (Api.formatCrossRefAuthors (Some authors)) -> name <> "")
       /\ (forall i a,
             authors !! i = Some a ->
             exists name,
               Api.formatCrossRefAuthors (Some authors) !! i = Some name
               /\ (forall n, CrossRefAuthor.name a = Some n -> n <> "" -> name = n)
               /\ (forall family given,
                     unusable (CrossRefAuthor.name a) ->
                     CrossRefAuthor.family a = Some family -> family <> "" ->
                     CrossRefAuthor.given a = Some given -> given <> "" ->
                     name = family +:+ ", " +:+ given)
               /\ (forall family,
                     unusable (CrossRefAuthor.name a) ->
                     CrossRefAuthor.family a = Some family -> family <> "" ->
                     unusable (CrossRefAuthor.given a) ->
                     name = family)
               /\ (forall given,
                     unusable (CrossRefAuthor.name a) ->
                     unusable (CrossRefAuthor.family a) ->
                     CrossRefAuthor.given a = Some given -> given <> "" ->
                     name = given)
               /\ (unusable (CrossRefAuthor.name a) ->
                   unusable (CrossRefAuthor.family a) ->
                   unusable (CrossRefAuthor.given a) ->
                   name = "Unknown")).
Proof.
  split; [reflexivity|]. intros authors unusable. simpl. split; [apply length_map|]. split.
  - intros name Hin. apply in_map_iff in Hin as (a & <- & _).
    unfold Api.formatCrossRefAuthor.
    destruct (CrossRefAuthor.name a) as [[|c s]|]; simpl; try done;
      destruct (CrossRefAuthor.family a) as [[|c1 s1]|]; simpl; try done;
      destruct (CrossRefAuthor.given a) as [[|c2 s2]|]; simpl; done.
  - intros i a Ha. exists (Api.formatCrossRefAuthor a).
    split; [by rewrite map_is_fmap, list_lookup_fmap, Ha|].
    assert (forall o, unusable o -> JS.truthy_str o = false) as Hun
      by (intros o; apply truthy_str_unusable).
    assert (forall o x, o = Some x -> x <> "" -> JS.truthy_str o = true /\ default "" o = x
                                                /\ forall d, JS.or_str o d = x) as Hus
      by (intros o x -> Hx; by destruct x).
    unfold Api.formatCrossRefAuthor.
    split; [|split; [|split; [|split]]].
    + intros n Hn Hne. destruct (Hus _ _ Hn Hne) as (-> & -> & _). done.
    + intros family given Hname Hf Hfne Hg Hgne. rewrite (Hun _ Hname).
      destruct (Hus _ _ Hf Hfne) as (-> & -> & _), (Hus _ _ Hg Hgne) as (-> & -> & _). done.
    + intros family Hname Hf Hfne Hg. rewrite (Hun _ Hname), (Hun _ Hg).
      destruct (Hus _ _ Hf Hfne) as (-> & _ & Hor). simpl. apply Hor.
    + intros given Hname Hf Hg Hgne. rewrite (Hun _ Hname), (Hun _ Hf). simpl.
      destruct (Hus _ _ Hg Hgne) as (_ & _ & Hor).
      destruct Hf as [-> | ->]; simpl; apply Hor.
    + intros Hname Hf Hg. rewrite (Hun _ Hname), (Hun _ Hf). simpl.
      by destruct Hf as [-> | ->], Hg as [-> | ->].
Qed.

Example formatCrossRefAuthors_sample :
  Api.formatCrossRefAuthors
    (Some [CrossRefAuthor.mk (Some "Jane") (Some "Doe") None;
           CrossRefAuthor.mk (Some "Jane") (Some "Doe") (Some "The Forest Group");
           CrossRefAuthor.mk None (Some "Doe") None;
           CrossRefAuthor.mk (Some "Jane") (Some "") None;
           CrossRefAuthor.mk None None (Some "")])
  = ["Doe, Jane"; "The Forest Group"; "Doe"; "Jane"; "Unknown"].
Proof. reflexivity. Qed.

(** *** Markup *)

Lemma hasGt_app (s t : string) : Api.hasGt (s +:+ t) = Api.hasGt s || Api.hasGt t.
Proof.
  induction s as [|c s IH]; [done|]. rewrite append_cons. simpl. by rewrite IH, orb_assoc.
Qed.

Lemma stripTagsFrom_no_tag (inTag : bool) (s pre post : string) :
  Api.stripTagsFrom inTag s = pre +:+ String "<" post -> Api.hasGt post = false.
Proof.
  revert inTag pre. induction s as [|c s IH]; intros inTag pre; simpl.
  - destruct pre; [|rewrite append_cons]; discriminate.
  - destruct inTag.
    + destruct (Ascii.eqb c ">"); apply IH.
    + destruct (Ascii.eqb_spec c "<") as [->|Hc].
      * destruct (Api.hasGt s) eqn:Egt; [apply IH|].
        destruct pre as [|c' pre].
        -- rewrite append_nil_l. intros H. by injection H as <-.
        -- rewrite append_cons. intros H. injection H as _ ->.
           rewrite hasGt_app in Egt. apply orb_false_iff in Egt as [_ Egt].
           exact Egt.
      * destruct pre as [|c' pre].
        -- rewrite append_nil_l. intros H. injection H as H _. congruence.
        -- rewrite append_cons. intros H. injection H as _ H. by eapply IH.
Qed.

Lemma stripTagsFrom_fixed (s : string) :
  (forall pre post, s = pre +:+ String "<" post -> Api.hasGt post = false) ->
  Api.stripTagsFrom false s = s.
Proof.
  induction s as [|c s IH]; intros H; simpl; [done|].
  destruct (Ascii.eqb_spec c "<") as [->|Hc].
  - by rewrite (H "" s eq_refl).
  - f_equal. apply IH. intros pre post ->. apply (H (String c pre) post). by rewrite append_cons.
Qed.

(** X14: what stripTags returns holds no tag: no [<] of the result is
    followed, anywhere later, by a [>].  Stripping is therefore idempotent,
    and a text without [<] is returned as it is. *)
Theorem stripTags_leaves_no_tag (s : string) :
  (forall pre mid post, Api.stripTags s <> pre +:+ "<" +:+ mid +:+ ">" +:+ post)
  /\ Api.stripTags (Api.stripTags s) = Api.stripTags s
  /\ ((forall pre post, s <> pre +:+ "<" +:+ post) -> Api.stripTags s = s).
Proof.
  unfold Api.stripTags. split; [|split].
  - intros pre mid post H.
    change (pre +:+ "<" +:+ mid +:+ ">" +:+ post)
      with (pre +:+ String "<" (mid +:+ String ">" post)) in H.
    apply stripTagsFrom_no_tag in H. rewrite hasGt_app in H. simpl in H.
    by rewrite orb_true_r in H.
  - apply stripTagsFrom_fixed. intros pre post H. by eapply stripTagsFrom_no_tag.
  - intros H. apply stripTagsFrom_fixed. intros pre post Hs. by destruct (H pre post).
Qed.

Example stripTags_sample :
  Api.stripTags "<jats:p>Tall <i>trees</i>, a < b.</jats:p> c<d" = "Tall trees, a  c<d".
Proof. reflexivity. Qed.

Lemma adapters_fields (clock : Clock.t) (journalName journalIssn : string) :
  (forall work d,
     OpenAlexWork.doi work = Some ("https://doi.org/" +:+ d) ->
     exists a,
       Api.openAlexToArticle clock work journalName journalIssn = Some a
       /\ Article.doi a = d
       /\ Some (Article.url a) = OpenAlexWork.doi work)
  /\ (forall a,
        (exists work, Api.openAlexToArticle clock work journalName journalIssn = Some a)
        \/ (exists work, Api.crossRefToArticle clock work journalName journalIssn = Some a) ->
        Article.url a = "https://doi.org/" +:+ Article.doi a
        /\ Article.state a = unseen
        /\ Article.viewedAt a = None /\ Article.savedAt a = None /\ Article.savedPath a = None
        /\ Article.journal a = journalName /\ Article.journalIssn a = journalIssn
        /\ Article.fetchedAt a = Clock.nowISO clock).
Proof.
  split.
  - intros work d Hdoi. unfold Api.openAlexToArticle. rewrite Hdoi.
    eexists. split; [reflexivity|]. split; reflexivity.
  - intros a [[work H]|[work H]].
    + unfold Api.openAlexToArticle in H.
      destruct (negb _); [discriminate|]. injection H as <-. by repeat split.
    + unfold Api.crossRefToArticle in H.
      destruct (negb _); [discriminate|]. injection H as <-. by repeat split.
Qed.

(** X15: an identifier given as a resolver URL is taken apart and put
    together again: for a work whose doi is "https://doi.org/" followed by
    [d], openAlexToArticle gives an article with identifier [d] whose url is
    the doi of the work.  An article of either adapter has the url
    "https://doi.org/" + identifier, is unseen, has no view or save marks,
    and carries the journal name, the ISSN and the time it was given. *)
Theorem adapters_identifier_and_url (clock : Clock.t) (journalName journalIssn : string) :
  (forall work d,
     OpenAlexWork.doi work = Some ("https://doi.org/" +:+ d) ->
     exists a,
       Api.openAlexToArticle clock work journalName journalIssn = Some a
       /\ Article.doi a = d
       /\ Some (Article.url a) = OpenAlexWork.doi work)
  /\ (forall a,
        (exists work, Api.openAlexToArticle clock work journalName journalIssn = Some a)
        \/ (exists work, Api.crossRefToArticle clock work journalName journalIssn = Some a) ->
        Article.url a = "https://doi.org/" +:+ Article.doi a
        /\ Article.state a = unseen
        /\ Article.viewedAt a = None /\ Article.savedAt a = None /\ Article.savedPath a = None
        /\ Article.journal a = journalName /\ Article.journalIssn a = journalIssn
        /\ Article.fetchedAt a = Clock.nowISO clock).
Proof. apply adapters_fields. Qed.

Lemma adapters_identifier_and_url_witness :
  exists a,
    Api.openAlexToArticle Sample.clock Sample.emptyWork "Ecography" "0906-7590" = Some a
    /\ Article.doi a = "10.1000/j.1"
    /\ Article.url a = "https://doi.org/10.1000/j.1".
Proof.
  destruct (proj1 (adapters_identifier_and_url Sample.clock "Ecography" "0906-7590")
              Sample.emptyWork "10.1000/j.1" eq_refl) as (a & Ha & Hdoi & Hurl).
  exists a. split; [exact Ha|]. split; [exact Hdoi|]. by injection Hurl.
Defined.

(** *** The backfill of abstracts *)

Lemma backfill_count (fetch : string -> option string) (l : list Article.t) (acc : Z) :
  fold_left
    (fun filled article =>
       if JS.truthy_str (fetch (Article.doi article)) then filled + 1 else filled)
    (List.filter (fun a => negb (JS.truthy_str (Article.abstract_ a))) l) acc
  = acc
    + Z.of_nat (length (List.filter (fun a => JS.truthy_str (Article.abstract_ a))
                          (map (Api.backfillOne fetch) l)))
    - Z.of_nat (length (List.filter (fun a => JS.truthy_str (Article.abstract_ a)) l)).
Proof.
  revert acc. induction l as [|a l IH]; intros acc; simpl; [lia|].
  unfold Api.backfillOne at 1.
  destruct (JS.truthy_str (Article.abstract_ a)) eqn:Ea; simpl.
  - rewrite Ea. simpl. rewrite IH. lia.
  - destruct (JS.truthy_str (fetch (Article.doi a))) eqn:Ef; simpl.
    + rewrite Ef. simpl. rewrite IH. lia.
    + rewrite Ea. rewrite IH. lia.
Qed.

Lemma backfillOne_same (fetch : string -> option string) (a : Article.t) :
  Spec.sameButAbstract (Api.backfillOne fetch a) a
  /\ (JS.truthy_str (Article.abstract_ a) = true -> Api.backfillOne fetch a = a)
  /\ (JS.truthy_str (Article.abstract_ (Api.backfillOne fetch a)) = false ->
      JS.truthy_str (fetch (Article.doi a)) = false).
Proof.
  unfold Api.backfillOne, Spec.sameButAbstract.
  destruct (JS.truthy_str (Article.abstract_ a)) eqn:Ea.
  - split; [by destruct a|]. split; [done|]. congruence.
  - destruct (JS.truthy_str (fetch (Article.doi a))) eqn:Ef.
    + split; [by destruct a|]. split; [done|]. simpl. congruence.
    + split; [by destruct a|]. done.
Qed.

Lemma backfill_keeps_abstracts (fetch : string -> option string) (l : list Article.t) :
  (length (List.filter (fun a => JS.truthy_str (Article.abstract_ a)) l)
   <= length (List.filter (fun a => JS.truthy_str (Article.abstract_ a))
                (map (Api.backfillOne fetch) l)))%nat.
Proof.
  induction l as [|a l IH]; simpl; [lia|].
  destruct (backfillOne_same fetch a) as (_ & Hsame & _).
  destruct (JS.truthy_str (Article.abstract_ a)) eqn:Ea.
  - rewrite Hsame by done. rewrite Ea. simpl. lia.
  - destruct (JS.truthy_str (Article.abstract_ (Api.backfillOne fetch a))); simpl; lia.
Qed.

(** X16: backfillAbstracts changes nothing but abstracts: the batch keeps
    its length and its articles their other fields, an article that has an
    abstract is left as it is, and an article is without abstract afterwards
    only when the registry had none for it.  The number returned is the
    number of articles that gained an abstract. *)
Theorem backfillAbstracts_counts_gained (fetchAbstractFromCrossRef : string -> option string)
    (articles : list Article.t) :
  let filled := fst (Api.backfillAbstracts fetchAbstractFromCrossRef articles) in
  let articles' := snd (Api.backfillAbstracts fetchAbstractFromCrossRef articles) in
  let withAbstract l :=
    Z.of_nat (length (List.filter (fun a => JS.truthy_str (Article.abstract_ a)) l)) in
  filled = withAbstract articles' - withAbstract articles
  /\ 0 <= filled <= Z.of_nat (length articles) - withAbstract articles
  /\ Forall2
       (fun a a' =>
          Spec.sameButAbstract a' a
          /\ (JS.truthy_str (Article.abstract_ a) = true -> a' = a)
          /\ (JS.truthy_str (Article.abstract_ a') = false ->
              JS.truthy_str (fetchAbstractFromCrossRef (Article.doi a)) = false))
       articles articles'.
Proof.
  intros filled articles' withAbstract.
  assert (Forall2
            (fun a a' =>
               Spec.sameButAbstract a' a
               /\ (JS.truthy_str (Article.abstract_ a) = true -> a' = a)
               /\ (JS.truthy_str (Article.abstract_ a') = false ->
                   JS.truthy_str (fetchAbstractFromCrossRef (Article.doi a)) = false))
            articles (map (Api.backfillOne fetchAbstractFromCrossRef) articles)) as Hall.
  { induction articles as [|a l IH]; simpl; constructor; [apply backfillOne_same|exact IH]. }
  assert (map (Api.backfillOne fetchAbstractFromCrossRef) articles = articles'
          /\ filled = withAbstract articles' - withAbstract articles) as [Hmap Hcount].
  { subst filled articles' withAbstract. unfold Api.backfillAbstracts.
    pose proof (backfill_count fetchAbstractFromCrossRef articles 0) as Hc.
    destruct (List.filter _ articles) as [|m ms] eqn:Emiss; cbn [length Nat.eqb fst snd].
    - simpl in Hc. split; [|lia].
      rewrite <- (map_id articles) at 2. apply map_ext_in. intros a Ha.
      apply backfillOne_same.
      destruct (JS.truthy_str (Article.abstract_ a)) eqn:Ea; [done|].
      assert (In a (List.filter
                      (fun a => negb (JS.truthy_str (Article.abstract_ a))) articles)) as Hin
        by (apply filter_In; by rewrite Ea).
      by rewrite Emiss in Hin.
    - split; [done|]. rewrite Hc. lia. }
  split; [exact Hcount|]. rewrite <- Hmap in *. split; [|exact Hall].
  rewrite Hcount. subst withAbstract. cbv beta.
  pose proof (filter_length_le (fun a => JS.truthy_str (Article.abstract_ a))
                (map (Api.backfillOne fetchAbstractFromCrossRef) articles)) as Hle.
  rewrite length_map in Hle.
  pose proof (backfill_keeps_abstracts fetchAbstractFromCrossRef articles) as Hge.
  clear -Hle Hge. lia.
Qed.

(** *** The adapters *)

Lemma omap_In {A B : Type} (f : A -> option B) (l : list A) (b : B) :
  In b (omap f l) -> exists a, In a l /\ f a = Some b.
Proof.
  induction l as [|x l IH]; simpl; [done|].
  destruct (f x) as [y|] eqn:Ex; simpl.
  - intros [<-|H]; [exists x; by split; [left|]|].
    destruct (IH H) as (a & Ha & Hf). exists a. by split; [right|].
  - intros H. destruct (IH H) as (a & Ha & Hf). exists a. by split; [right|].
Qed.

Lemma omap_length_le {A B : Type} (f : A -> option B) (l : list A) :
  (length (omap f l) <= length l)%nat.
Proof.
  induction l as [|x l IH]; [done|]. cbn [omap list_omap length].
  destruct (f x); cbn [length]; fold (omap f l); lia.
Qed.

(** X17: neither adapter throws: a failed request gives the empty batch.
    Every article of a batch carries the name and the print ISSN of the
    journal asked for, also when the request was made with the electronic
    ISSN, and is unseen; so it passes the journal test of a filter without
    a journal selection whenever the journal is in the list. *)
Theorem adapters_tag_with_print_issn
    (requestOpenAlex : string -> string -> string -> Z -> option string ->
                       JS.outcome (list OpenAlexWork.t))
    (requestCrossRef : string -> string -> string -> Z -> option string ->
                       JS.outcome (list CrossRefWork.t))
    (clock : Clock.t) (journal : JournalConfig.t) (fromDate toDate : string) (rows : Z)
    (email : option string) :
  let tagged (batch : list Article.t) :=
    forall a, In a batch ->
      Article.journalIssn a = JournalConfig.issn journal
      /\ Article.journal a = JournalConfig.name journal
      /\ Article.state a = unseen
      /\ forall filter allJournals,
           FilterConfig.journals filter = [] -> In journal allJournals ->
           Utils.matches_journal (Utils.enabledIssns filter allJournals) a = true in
  (exists batch,
     Api.fetchFromOpenAlex requestOpenAlex clock journal fromDate toDate rows email
     = JS.Ok batch
     /\ tagged batch
     /\ (forall e, requestOpenAlex (Api.queryIssn journal) fromDate toDate rows
                     (Api.queryEmail email) = JS.Throw e -> batch = [])
     /\ (forall results, requestOpenAlex (Api.queryIssn journal) fromDate toDate rows
                           (Api.queryEmail email) = JS.Ok results ->
                         (length batch <= length results)%nat))
  /\ (exists batch,
        Api.fetchFromCrossRef requestCrossRef clock journal fromDate toDate rows email
        = JS.Ok batch
        /\ tagged batch
        /\ (forall e, requestCrossRef (Api.queryIssn journal) fromDate toDate rows
                        (Api.queryEmail email) = JS.Throw e -> batch = [])
        /\ (forall results, requestCrossRef (Api.queryIssn journal) fromDate toDate rows
                              (Api.queryEmail email) = JS.Ok results ->
                            (length batch <= length results)%nat)).
Proof.
  intros tagged.
  assert (forall a, Article.journalIssn a = JournalConfig.issn journal ->
                    forall filter allJournals,
                      FilterConfig.journals filter = [] -> In journal allJournals ->
                      Utils.matches_journal (Utils.enabledIssns filter allJournals) a = true)
    as Hpass.
  { intros a Ha filter allJournals Hj Hin. unfold Utils.matches_journal, Utils.enabledIssns.
    rewrite Hj. simpl. apply existsb_exists. exists (JournalConfig.issn journal).
    split; [by apply in_map|]. rewrite Ha. apply String.eqb_refl. }
  split.
  - unfold Api.fetchFromOpenAlex.
    destruct (requestOpenAlex _ _ _ _ _) as [results|e]; simpl.
    + eexists. split; [reflexivity|]. split; [|split; [done|]].
      * intros a Ha. apply omap_In in Ha as (work & _ & Hw).
        destruct (proj2 (adapters_fields clock (JournalConfig.name journal)
                           (JournalConfig.issn journal)) a (or_introl (ex_intro _ work Hw)))
          as (_ & Hst & _ & _ & _ & Hn & Hi & _).
        split; [done|]. split; [done|]. split; [done|]. by apply Hpass.
      * intros results' [= <-]. apply omap_length_le.
    + exists []. split; [done|]. split; [by intros a []|]. split; [done|]. done.
  - unfold Api.fetchFromCrossRef.
    destruct (requestCrossRef _ _ _ _ _) as [results|e]; simpl.
    + eexists. split; [reflexivity|]. split; [|split; [done|]].
      * intros a Ha. apply omap_In in Ha as (work & _ & Hw).
        destruct (proj2 (adapters_fields clock (JournalConfig.name journal)
                           (JournalConfig.issn journal)) a (or_intror (ex_intro _ work Hw)))
          as (_ & Hst & _ & _ & _ & Hn & Hi & _).
        split; [done|]. split; [done|]. split; [done|]. by apply Hpass.
      * intros results' [= <-]. apply omap_length_le.
    + exists []. split; [done|]. split; [by intros a []|]. split; [done|]. done.
Qed.

(** ** views/DiscoveryView.ts: saving a search result *)

Lemma saveResult_data (saveArticleNote : Article.t -> JS.outcome string)
    (clock : Clock.t) (data : JournalMonitorData.t) (article : Article.t) (path : string) :
  saveArticleNote article = JS.Ok path ->
  let data' := fst (DiscoveryView.saveResult saveArticleNote clock data article) in
  JournalMonitorData.articles data'
  = JS.assign (Article.doi article)
      (Article.set_savedPath (Some path)
         (Article.set_savedAt (Some (Clock.nowISO clock)) (Article.set_state saved article)))
      (JournalMonitorData.articles data)
  /\ JournalMonitorData.statistics data'
     = Store.set_totalSaved
         (Statistics.totalSaved (JournalMonitorData.statistics data) + 1)
         (JournalMonitorData.statistics data).
Proof. intros Hw. unfold DiscoveryView.saveResult. rewrite Hw. simpl. by destruct article. Qed.

(** X18: saveResult counts a saved search result in totalSaved only: the
    counters of the journals stay as they are, so statistics whose totals
    agreed with the sums over the journals do not agree any more.  The
    collection gets the saved record under its identifier (an identifier
    other than [__proto__], under which an assignment makes no property)
    and stays keyed; when the note writer fails, the data are not
    touched. *)
Theorem saveResult_counts_total_only (saveArticleNote : Article.t -> JS.outcome string)
    (clock : Clock.t) (data : JournalMonitorData.t) (article : Article.t) :
  let data' := fst (DiscoveryView.saveResult saveArticleNote clock data article) in
  let s := JournalMonitorData.statistics data in
  let s' := JournalMonitorData.statistics data' in
  (forall path,
     saveArticleNote article = JS.Ok path ->
     Statistics.totalSaved s' = Statistics.totalSaved s + 1
     /\ Statistics.byJournal s' = Statistics.byJournal s
     /\ Statistics.totalFetched s' = Statistics.totalFetched s
     /\ Statistics.totalSkipped s' = Statistics.totalSkipped s
     /\ (Inv.consistent s -> ~ Inv.consistent s')
     /\ (Article.doi article <> "__proto__" ->
         JournalMonitorData.articles data'
         = <[Article.doi article :=
               Article.set_savedPath (Some path)
                 (Article.set_savedAt (Some (Clock.nowISO clock))
                    (Article.set_state saved article))]>
             (JournalMonitorData.articles data))
     /\ (Inv.keyed (JournalMonitorData.articles data) ->
         Inv.keyed (JournalMonitorData.articles data')))
  /\ (forall e, saveArticleNote article = JS.Throw e -> data' = data).
Proof.
  intros data' s s'. split.
  - intros path Hw.
    destruct (saveResult_data saveArticleNote clock data article path Hw) as [Harts Hstats].
    fold data' in Harts, Hstats. fold s s' in Hstats.
    set (saved_a := Article.set_savedPath (Some path)
                      (Article.set_savedAt (Some (Clock.nowISO clock))
                         (Article.set_state saved article))) in *.
    rewrite Hstats. split; [done|]. split; [done|]. split; [done|].
    split; [done|]. split; [|split].
    + intros (_ & Hs & _) (_ & Hs' & _). simpl in Hs'. lia.
    + intros Hkey. rewrite Harts. by apply assign_insert.
    + intros Hk k a. rewrite Harts. unfold JS.assign.
      assert (forall k a,
                <[Article.doi article := saved_a]> (JournalMonitorData.articles data) !! k
                = Some a -> Article.doi a = k) as Hins.
      { intros k0 a0. destruct (decide (k0 = Article.doi article)) as [->|Hne].
        - rewrite lookup_insert_eq. intros [= <-]. subst saved_a. by destruct article.
        - rewrite lookup_insert_ne by done. apply Hk. }
      destruct (JournalMonitorData.articles data !! Article.doi article); [apply Hins|].
      destruct (String.eqb _ _); [apply Hk|apply Hins].
  - intros e Hw. subst data'. unfold DiscoveryView.saveResult. by rewrite Hw.
Qed.

(** A search result whose identifier is [__proto__] is counted and not
    stored. *)
Example saveResult_proto_identifier :
  let article :=
    Article.mk "__proto__" "T" [] "J" "1" None None None "2024-03-01" 2024 None None "u" None
      unseen "t" None None None in
  let data' := fst (DiscoveryView.saveResult Sample.writer Sample.clock Sample.freshData article) in
  Statistics.totalSaved (JournalMonitorData.statistics data') = 1
  /\ JournalMonitorData.articles data' = JournalMonitorData.articles Sample.freshData.
Proof. by split. Qed.

Lemma saveResult_counts_total_only_witness :
  Statistics.totalSaved
    (JournalMonitorData.statistics
       (fst (DiscoveryView.saveResult Sample.writer Sample.clock Sample.freshData
               Sample.forest)))
  = 1
  /\ Statistics.byJournal
       (JournalMonitorData.statistics
          (fst (DiscoveryView.saveResult Sample.writer Sample.clock Sample.freshData
                  Sample.forest)))
     = Statistics.byJournal (JournalMonitorData.statistics Sample.freshData)
  /\ Article.state
     <$> JournalMonitorData.articles
           (fst (DiscoveryView.saveResult Sample.writer Sample.clock Sample.freshData
                   Sample.forest)) !! "10.1000/j.1"
     = Some saved.
Proof.
  destruct (proj1 (saveResult_counts_total_only Sample.writer Sample.clock Sample.freshData
                     Sample.forest) "Articles/Forest.md" eq_refl)
    as (H1 & H2 & _ & _ & _ & H3 & _).
  split; [exact H1|]. split; [exact H2|].
  rewrite H3 by discriminate.
  change (Article.doi Sample.forest) with "10.1000/j.1". by rewrite lookup_insert_eq.
Defined.

(** ** views/FilterModal.ts: the journal boxes and the keyword field *)

(** X19: with the list of journals that the views pass to filterArticles
    (the enabled ones), the buttons 'Select All' and 'None' give the same
    list of articles: an empty selection stands for every enabled journal. *)
Theorem selectAll_same_as_none (getTime : string -> option Z)
    (localeCompare : string -> string -> Z) (settings : JournalMonitorSettings.t)
    (filter : FilterConfig.t) (articles : list Article.t) :
  let enabled := List.filter JournalConfig.enabled (JournalMonitorSettings.journals settings) in
  Utils.filterArticles getTime localeCompare articles
    (FilterConfig.set_journals (FilterModal.selectAll settings) filter) enabled
  = Utils.filterArticles getTime localeCompare articles
      (FilterConfig.set_journals FilterModal.selectNone filter) enabled.
Proof.
  intros enabled. subst enabled. rewrite !filterArticles_factor.
  assert (forall js,
            Inv.comparator getTime localeCompare (FilterConfig.set_journals js filter)
            = Inv.comparator getTime localeCompare filter) as Hcmp by done.
  rewrite !Hcmp. f_equal. apply filter_ext. intros a. unfold Inv.kept.
  assert (Utils.enabledIssns
            (FilterConfig.set_journals (FilterModal.selectAll settings) filter)
            (List.filter JournalConfig.enabled (JournalMonitorSettings.journals settings))
          = Utils.enabledIssns (FilterConfig.set_journals FilterModal.selectNone filter)
              (List.filter JournalConfig.enabled (JournalMonitorSettings.journals settings)))
    as Hissns.
  { unfold Utils.enabledIssns, FilterModal.selectAll, FilterModal.selectNone. simpl.
    by destruct (map JournalConfig.issn _). }
  by rewrite Hissns.
Qed.

Lemma toggleJournal_In (checked : bool) (issn : string) (journals : list string) (i : string) :
  In i (FilterModal.toggleJournal checked issn journals)
  <-> if checked then i = issn \/ In i journals else i <> issn /\ In i journals.
Proof.
  unfold FilterModal.toggleJournal. destruct checked.
  - destruct (existsb (String.eqb issn) journals) eqn:Ex; simpl.
    + apply existsb_eqb_In in Ex. split; [by right|]. by intros [->|H].
    + rewrite in_app_iff. simpl. naive_solver.
  - rewrite filter_In. split.
    + intros [Hi Hne]. split; [|done]. intros ->. by rewrite String.eqb_refl in Hne.
    + intros [Hne Hi]. split; [done|]. by apply negb_true_iff, String.eqb_neq.
Qed.

(** X20: the change handler of a journal box.  Ticking puts the journal
    into the selection unless it is there, unticking takes out every
    occurrence; a selection without duplicates stays so.  Unticking the only
    journal selected leaves the empty selection, which filterArticles reads
    as every journal of the list, and for which every box is ticked when the
    dialog opens. *)
Theorem toggleJournal_selection (checked : bool) (issn : string) (journals : list string) :
  (forall i, In i (FilterModal.toggleJournal checked issn journals)
             <-> if checked then i = issn \/ In i journals else i <> issn /\ In i journals)
  /\ (List.NoDup journals -> List.NoDup (FilterModal.toggleJournal checked issn journals))
  /\ ((forall i, In i journals -> i = issn) ->
      FilterModal.toggleJournal false issn journals = []
      /\ (forall other, FilterModal.isChecked (FilterModal.toggleJournal false issn journals)
                          other = true)
      /\ forall filter allJournals,
           Utils.enabledIssns
             (FilterConfig.set_journals (FilterModal.toggleJournal false issn journals) filter)
             allJournals
           = map JournalConfig.issn allJournals).
Proof.
  split; [intros i; apply toggleJournal_In|]. split.
  - intros Hnd. unfold FilterModal.toggleJournal. destruct checked.
    + destruct (existsb (String.eqb issn) journals) eqn:Ex; simpl; [done|].
      apply NoDup_ListNoDup, NoDup_app. split; [by apply NoDup_ListNoDup|]. split.
      * intros i Hi Hi'. apply list_elem_of_In in Hi, Hi'. destruct Hi' as [<-|[]].
        apply existsb_eqb_In in Hi. congruence.
      * apply NoDup_singleton.
    + by apply List.NoDup_filter.
  - intros Hall.
    assert (FilterModal.toggleJournal false issn journals = []) as ->.
    { unfold FilterModal.toggleJournal. clear -Hall.
      induction journals as [|j js IH]; simpl; [done|].
      rewrite (Hall j) by (by left). rewrite String.eqb_refl. simpl.
      apply IH. intros i Hi. apply Hall. by right. }
    by repeat split.
Qed.

Lemma toggleJournal_selection_witness :
  FilterModal.toggleJournal false "0906-7590" ["0906-7590"] = []
  /\ FilterModal.isChecked (FilterModal.toggleJournal false "0906-7590" ["0906-7590"])
       "0030-1299" = true.
Proof.
  destruct (proj2 (proj2 (toggleJournal_selection false "0906-7590" ["0906-7590"])))
    as (H1 & H2 & _).
  - intros i [<-|[]]. reflexivity.
  - split; [exact H1|exact (H2 "0030-1299")].
Defined.

(** *** The keyword field *)

Lemma splitOn_nonempty (sep : ascii) (s : string) : JS.splitOn sep s <> [].
Proof.
  destruct s as [|c s]; simpl; [done|].
  destruct (Ascii.eqb c sep); [done|]. by destruct (JS.splitOn sep s).
Qed.

Lemma splitOn_no_sep (sep : ascii) (k : string) :
  ~ In sep (list_ascii_of_string k) -> JS.splitOn sep k = [k].
Proof.
  induction k as [|c k IH]; simpl; [done|]. intros Hno.
  destruct (Ascii.eqb_spec c sep) as [->|Hc]; [destruct Hno; by left|].
  rewrite IH; [done|]. intros H. apply Hno. by right.
Qed.

Lemma splitOn_app (sep : ascii) (k rest : string) :
  ~ In sep (list_ascii_of_string k) ->
  JS.splitOn sep (k +:+ String sep rest) = k :: JS.splitOn sep rest.
Proof.
  induction k as [|c k IH]; intros Hno.
  - rewrite append_nil_l. simpl. by rewrite Ascii.eqb_refl.
  - rewrite append_cons. simpl. simpl in Hno.
    destruct (Ascii.eqb_spec c sep) as [->|Hc]; [destruct Hno; by left|].
    rewrite IH; [done|]. intros H. apply Hno. by right.
Qed.

Lemma splitOn_pieces (sep : ascii) (s piece : string) :
  In piece (JS.splitOn sep s) -> ~ In sep (list_ascii_of_string piece).
Proof.
  revert piece. induction s as [|c s IH]; intros piece; simpl.
  - intros [<-|[]]. simpl. tauto.
  - destruct (Ascii.eqb_spec c sep) as [->|Hc].
    + intros [<-|H]; [simpl; tauto|]. by apply IH.
    + destruct (JS.splitOn sep s) as [|p ps] eqn:Es.
      * intros [<-|[]]. simpl. by intros [?|[]].
      * intros [<-|H].
        -- simpl. intros [?|H]; [done|]. revert H. apply IH. by left.
        -- apply IH. by right.
Qed.

Lemma trimStart_units (c : ascii) (s : string) :
  In c (list_ascii_of_string (JS.trimStart s)) -> In c (list_ascii_of_string s).
Proof.
  induction s as [|d s IH]; simpl; [done|].
  destruct (JS.isSpace d); [|done]. intros H. right. by apply IH.
Qed.

Lemma trimEnd_units (c : ascii) (s : string) :
  In c (list_ascii_of_string (JS.trimEnd s)) -> In c (list_ascii_of_string s).
Proof.
  induction s as [|d s IH]; simpl; [done|].
  destruct (JS.trimEnd s) as [|e t].
  - destruct (JS.isSpace d); simpl; [done|]. intros [?|[]]. by left.
  - intros [?|H]; [by left|]. right. by apply IH.
Qed.

Lemma trimStart_head (s : string) :
  JS.trimStart s = ""
  \/ exists c t, JS.trimStart s = String c t /\ JS.isSpace c = false.
Proof.
  induction s as [|c s IH]; simpl; [by left|].
  destruct (JS.isSpace c) eqn:Ec; [done|]. right. by exists c, s.
Qed.

Lemma trimEnd_cons (c : ascii) (t : string) :
  JS.isSpace c = false -> JS.trimEnd (String c t) = String c (JS.trimEnd t).
Proof. intros Hc. simpl. rewrite Hc. by destruct (JS.trimEnd t). Qed.

Lemma trimEnd_idem (s : string) : JS.trimEnd (JS.trimEnd s) = JS.trimEnd s.
Proof.
  induction s as [|c s IH]; [done|].
  cbn [JS.trimEnd]. destruct (JS.trimEnd s) as [|e t] eqn:Et.
  - destruct (JS.isSpace c) eqn:Ec; [done|]. simpl. by rewrite Ec.
  - cbn [JS.trimEnd] in IH |- *. fold JS.trimEnd in IH |- *.
    change (JS.trimEnd (String c (String e t)))
      with (match JS.trimEnd (String e t) with
            | "" => if JS.isSpace c then "" else String c ""
            | String a b => String c (String a b)
            end).
    by rewrite IH.
Qed.

Lemma trim_idem (s : string) : JS.trim (JS.trim s) = JS.trim s.
Proof.
  unfold JS.trim. destruct (trimStart_head s) as [->|(c & t & -> & Hc)]; [done|].
  rewrite trimEnd_cons by done. simpl JS.trimStart. rewrite Hc.
  rewrite trimEnd_cons by done. by rewrite trimEnd_idem.
Qed.

Lemma splitOn_join (k : string) (ks : list string) :
  (forall x, In x (k :: ks) -> ~ In ","%char (list_ascii_of_string x)) ->
  JS.splitOn "," (JS.join ", " (k :: ks)) = k :: map (String " ") ks.
Proof.
  revert k. induction ks as [|k2 ks IH]; intros k Hno.
  - simpl. apply splitOn_no_sep. apply Hno. by left.
  - change (JS.join ", " (k :: k2 :: ks))
      with (k +:+ String "," (String " " (JS.join ", " (k2 :: ks)))).
    rewrite splitOn_app by (apply Hno; by left).
    cbn [JS.splitOn]. change (Ascii.eqb " " ",") with false. cbv iota.
    rewrite IH by (intros x Hx; apply Hno; by right). done.
Qed.

Lemma parseKeywords_join (ks : list string) :
  (forall k, In k ks ->
             k <> "" /\ JS.trim k = k /\ ~ In ","%char (list_ascii_of_string k)) ->
  FilterModal.parseKeywords (FilterModal.showKeywords ks) = ks.
Proof.
  intros Hks. unfold FilterModal.parseKeywords, FilterModal.showKeywords.
  destruct ks as [|k ks]; [done|].
  rewrite splitOn_join by (intros x Hx; by apply Hks).
  rewrite map_cons, map_map.
  destruct (Hks k (or_introl eq_refl)) as (Hk & -> & _).
  rewrite (map_ext_in _ id).
  - rewrite map_id. apply filter_all_true. intros x Hx.
    destruct (Hks x Hx) as (Hne & _). by destruct x.
  - intros x Hx. destruct (Hks x (or_intror Hx)) as (_ & Hfix & _).
    unfold id. rewrite <- Hfix at 2. reflexivity.
Qed.

Lemma parseKeywords_kept (value k : string) :
  In k (FilterModal.parseKeywords value) ->
  k <> "" /\ JS.trim k = k /\ ~ In ","%char (list_ascii_of_string k).
Proof.
  unfold FilterModal.parseKeywords. rewrite filter_In, in_map_iff.
  intros [(piece & <- & Hpiece) Hne]. split; [by destruct (JS.trim piece)|].
  split; [apply trim_idem|]. intros Hin.
  apply (splitOn_pieces _ _ _ Hpiece). unfold JS.trim in Hin.
  by apply trimStart_units, trimEnd_units.
Qed.

(** X21: the keyword field.  What is read from the field are keywords
    that are not empty, have no white space at either end and hold no
    comma; a list of such keywords is shown and read back as itself, so
    reading the field, showing the result and reading again changes
    nothing. *)
Theorem parseKeywords_round_trip :
  (forall value k,
     In k (FilterModal.parseKeywords value) ->
     k <> "" /\ JS.trim k = k /\ ~ In ","%char (list_ascii_of_string k))
  /\ (forall ks,
        (forall k, In k ks ->
                   k <> "" /\ JS.trim k = k /\ ~ In ","%char (list_ascii_of_string k)) ->
        FilterModal.parseKeywords (FilterModal.showKeywords ks) = ks)
  /\ (forall value,
        FilterModal.parseKeywords (FilterModal.showKeywords (FilterModal.parseKeywords value))
        = FilterModal.parseKeywords value).
Proof.
  split; [apply parseKeywords_kept|]. split; [apply parseKeywords_join|].
  intros value. apply parseKeywords_join. intros k. apply parseKeywords_kept.
Qed.

Lemma parseKeywords_round_trip_witness :
  FilterModal.parseKeywords (FilterModal.showKeywords ["lidar"; "forest biomass"])
  = ["lidar"; "forest biomass"].
Proof.
  apply (proj1 (proj2 parseKeywords_round_trip)).
  intros k [<-|[<-|[]]]; (split; [done|]; split; [reflexivity|]);
    simpl; intros H; repeat destruct H as [H|H]; try discriminate H; exact H.
Defined.

Example parseKeywords_sample :
  FilterModal.parseKeywords " Lidar ,, forest  biomass,  ,x" = ["Lidar"; "forest  biomass"; "x"].
Proof. reflexivity. Qed.

(** ** utils.ts: the hash loop *)

Lemma toInt32_range (z : Z) : - 2 ^ 31 <= Utils.toInt32 z < 2 ^ 31.
Proof.
  unfold Utils.toInt32. pose proof (Z.mod_pos_bound (z + 2 ^ 31) (2 ^ 32)). lia.
Qed.

Lemma toInt32_small (z : Z) : - 2 ^ 31 <= z < 2 ^ 31 -> Utils.toInt32 z = z.
Proof. intros Hz. unfold Utils.toInt32. rewrite Z.mod_small; lia. Qed.

Lemma toInt32_add_l (a b : Z) : Utils.toInt32 (Utils.toInt32 a + b) = Utils.toInt32 (a + b).
Proof.
  unfold Utils.toInt32. f_equal.
  replace ((a + 2 ^ 31) mod 2 ^ 32 - 2 ^ 31 + b + 2 ^ 31)
    with ((a + 2 ^ 31) mod 2 ^ 32 + b) by lia.
  rewrite Zplus_mod_idemp_l. f_equal. lia.
Qed.

Lemma toInt32_mul_r (k a : Z) : Utils.toInt32 (k * Utils.toInt32 a) = Utils.toInt32 (k * a).
Proof.
  unfold Utils.toInt32. f_equal.
  replace (k * ((a + 2 ^ 31) mod 2 ^ 32 - 2 ^ 31) + 2 ^ 31)
    with (k * ((a + 2 ^ 31) mod 2 ^ 32) + (2 ^ 31 - k * 2 ^ 31)) by lia.
  rewrite <- Zplus_mod_idemp_l, Zmult_mod_idemp_r, Zplus_mod_idemp_l. f_equal. lia.
Qed.

Lemma hash_step_poly (h : Z) (c : ascii) :
  - 2 ^ 31 <= h < 2 ^ 31 ->
  Utils.hash_step h c = Utils.toInt32 (31 * h + Z.of_nat (nat_of_ascii c)).
Proof.
  intros Hh. unfold Utils.hash_step. cbv zeta. rewrite Z.land_diag.
  rewrite (toInt32_small h) by done. rewrite Z.shiftl_mul_pow2 by lia.
  replace (Utils.toInt32 (h * 2 ^ 5) - h + Z.of_nat (nat_of_ascii c))
    with (Utils.toInt32 (h * 2 ^ 5) + (Z.of_nat (nat_of_ascii c) - h)) by lia.
  rewrite toInt32_add_l. f_equal. lia.
Qed.

Lemma hash_loop_poly (s : list ascii) (h p : Z) :
  h = Utils.toInt32 p ->
  fold_left Utils.hash_step s h
  = Utils.toInt32 (fold_left (fun acc c => 31 * acc + Z.of_nat (nat_of_ascii c)) s p).
Proof.
  revert h p. induction s as [|c s IH]; intros h p Hh; simpl; [done|].
  apply IH. rewrite hash_step_poly by (rewrite Hh; apply toInt32_range).
  rewrite Hh. rewrite <- (toInt32_add_l (31 * Utils.toInt32 p)), toInt32_mul_r.
  by rewrite toInt32_add_l.
Qed.

(** X22: the loop of hashFilterConfig computes the polynomial hash with
    base 31 of the code units, reduced to a signed 32-bit integer: one round
    on a 32-bit value [h] gives ToInt32(31 h + c), and the value after any
    text is ToInt32 of the sum of c_i 31^(n-1-i).  The field
    searchInAbstracts does not enter the hash. *)
Theorem hashFilterConfig_polynomial :
  (forall h c, - 2 ^ 31 <= h < 2 ^ 31 ->
               Utils.hash_step h c = Utils.toInt32 (31 * h + Z.of_nat (nat_of_ascii c)))
  /\ (forall s,
        - 2 ^ 31 <= fold_left Utils.hash_step s 0 < 2 ^ 31
        /\ fold_left Utils.hash_step s 0
           = Utils.toInt32
               (fold_left (fun acc c => 31 * acc + Z.of_nat (nat_of_ascii c)) s 0))
  /\ (forall filter b,
        Utils.hashFilterConfig
          (FilterConfig.mk (FilterConfig.dateRange filter) (FilterConfig.customDateFrom filter)
             (FilterConfig.customDateTo filter) (FilterConfig.journals filter)
             (FilterConfig.keywords filter) b (FilterConfig.showState filter)
             (FilterConfig.sortBy filter))
        = Utils.hashFilterConfig filter).
Proof.
  split; [apply hash_step_poly|]. split; [|done].
  intros s. rewrite (hash_loop_poly s 0 0) by done. split; [apply toInt32_range|done].
Qed.

Lemma hashFilterConfig_polynomial_witness :
  Utils.hash_step 2147483647 "a" = Utils.toInt32 (31 * 2147483647 + 97).
Proof. apply (proj1 hashFilterConfig_polynomial). lia. Defined.

(** ** api.ts: dates from date parts *)

Lemma year_four_digits (year : Z) :
  1000 <= year <= 9999 ->
  exists a b c d,
    JS.numToString year = String a (String b (String c (String d "")))
    /\ Spec.isDigit a = true /\ Spec.isDigit b = true
    /\ Spec.isDigit c = true /\ Spec.isDigit d = true.
Proof.
  intros Hy.
  assert (forallb
            (fun n => match JS.numToString (Z.of_nat n + 1000) with
                      | String a (String b (String c (String d ""))) =>
                          Spec.isDigit a && Spec.isDigit b && Spec.isDigit c && Spec.isDigit d
                      | _ => false
                      end) (seq 0 (90 * 100)) = true) as Hall by (vm_compute; reflexivity).
  rewrite forallb_forall in Hall.
  specialize (Hall (Z.to_nat (year - 1000))).
  rewrite in_seq in Hall. specialize (Hall ltac:(lia)).
  replace (Z.of_nat (Z.to_nat (year - 1000)) + 1000) with year in Hall by lia.
  destruct (JS.numToString year) as [|a [|b [|c [|d [|e s]]]]]; try discriminate Hall.
  exists a, b, c, d. split; [done|].
  apply andb_prop in Hall as [Hall Hd]. apply andb_prop in Hall as [Hall Hc].
  apply andb_prop in Hall as [Ha Hb]. done.
Qed.

Lemma twoDigits_digits (part : option Z) :
  (forall x, part = Some x -> 0 <= x <= 99) ->
  exists a b,
    Api.twoDigits part = String a (String b "")
    /\ Spec.isDigit a = true /\ Spec.isDigit b = true.
Proof.
  intros Hp. destruct part as [x|]; [|by exists "0"%char, "1"%char].
  specialize (Hp x eq_refl).
  assert (forallb
            (fun n => match Api.twoDigits (Some (Z.of_nat n)) with
                      | String a (String b "") => Spec.isDigit a && Spec.isDigit b
                      | _ => false
                      end) (seq 0 100) = true) as Hall by (vm_compute; reflexivity).
  rewrite forallb_forall in Hall.
  specialize (Hall (Z.to_nat x)).
  rewrite in_seq in Hall. specialize (Hall ltac:(lia)).
  replace (Z.of_nat (Z.to_nat x)) with x in Hall by lia.
  destruct (Api.twoDigits (Some x)) as [|a [|b [|c s]]]; try discriminate Hall.
  exists a, b. split; [done|]. by apply andb_prop in Hall.
Qed.

(** X23: parseDate on date parts.  For a year of four digits and a month
    and a day below 100, the date has the form YYYY-MM-DD; a month or a day
    that is missing or 0 reads 01.  Without a date string and without date
    parts the date is today's. *)
Theorem parseDate_from_parts (today : string) :
  (forall parts rest year,
     parts !! 0%nat = Some year -> 1000 <= year <= 9999 ->
     (forall i x, (1 <= i)%nat -> parts !! i = Some x -> 0 <= x <= 99) ->
     Spec.isIsoDay (Api.parseDate today None (Some (parts :: rest))) = true)
  /\ (forall year,
        Api.parseDate today None (Some [[year]])
        = JS.numToString year +:+ "-01-01"
        /\ Api.parseDate today None (Some [[year; 0; 0]])
           = JS.numToString year +:+ "-01-01")
  /\ Api.parseDate today None None = today
  /\ Api.parseDate today None (Some []) = today
  /\ Api.parseDate today (Some "") None = today.
Proof.
  split; [|by repeat split].
  intros parts rest year Hyear Hy Hparts. unfold Api.parseDate. simpl. rewrite Hyear.
  destruct (year_four_digits year Hy) as (a & b & c & d & -> & Ha & Hb & Hc & Hd).
  destruct (twoDigits_digits (parts !! 1%nat)) as (m1 & m2 & -> & Hm1 & Hm2);
    [intros x; apply Hparts; lia|].
  destruct (twoDigits_digits (parts !! 2%nat)) as (d1 & d2 & -> & Hd1 & Hd2);
    [intros x; apply Hparts; lia|].
  unfold Spec.isIsoDay. simpl. by rewrite Ha, Hb, Hc, Hd, Hm1, Hm2, Hd1, Hd2.
Qed.

Lemma parseDate_from_parts_witness :
  Spec.isIsoDay (Api.parseDate "2024-03-02" None (Some [[2024; 3]])) = true.
Proof.
  apply (proj1 (parseDate_from_parts "2024-03-02") [2024; 3] [] 2024 eq_refl).
  - lia.
  - intros [|[|[|i]]] x Hi Hx; try discriminate Hx; [lia|]. injection Hx as <-. lia.
Defined.

Example parseDate_sample :
  Api.parseDate "2024-03-02" None (Some [[2024; 3]]) = "2024-03-01"
  /\ Api.parseDate "2024-03-02" None (Some [[2024; 11; 7]]) = "2024-11-07"
  /\ Api.parseDate "2024-03-02" (Some "2024-02-29T12:00:00Z") (Some [[2023]]) = "2024-02-29".
Proof. by repeat split. Qed.

(** ** utils.ts: file names and YAML strings *)

Lemma units_app (c : ascii) (s t : string) :
  In c (list_ascii_of_string (s +:+ t))
  <-> In c (list_ascii_of_string s) \/ In c (list_ascii_of_string t).
Proof.
  induction s as [|d s IH]; [rewrite append_nil_l; simpl; tauto|].
  rewrite append_cons. simpl. rewrite IH. tauto.
Qed.

Lemma keepUnits_units (keep : ascii -> bool) (c : ascii) (s : string) :
  In c (list_ascii_of_string (JS.keepUnits keep s))
  <-> In c (list_ascii_of_string s) /\ keep c = true.
Proof.
  induction s as [|d s IH]; simpl; [tauto|].
  destruct (keep d) eqn:Ed; simpl; rewrite IH; [|split; [tauto|]].
  - split; [|tauto]. intros [<-|H]; [by split; [left|]|]. split; [right|]; tauto.
  - intros [[<-|H] Hc]; [congruence|tauto].
Qed.

Lemma substring0_units (n : nat) (c : ascii) (s : string) :
  In c (list_ascii_of_string (JS.substring0 n s)) -> In c (list_ascii_of_string s).
Proof.
  revert n. induction s as [|d s IH]; intros [|n]; simpl; try tauto.
  intros [H|H]; [by left|]. right. by eapply IH.
Qed.

Lemma substring0_length (n : nat) (s : string) :
  (String.length (JS.substring0 n s) <= n)%nat.
Proof.
  revert s. induction n as [|n IH]; intros [|d s]; simpl; try lia.
  specialize (IH s). lia.
Qed.

Lemma splitSpaces_units (inRun : bool) (s piece : string) (c : ascii) :
  In piece (JS.splitSpaces inRun s) -> In c (list_ascii_of_string piece) ->
  In c (list_ascii_of_string s) /\ JS.isSpace c = false.
Proof.
  revert inRun piece. induction s as [|d s IH]; intros inRun piece; simpl.
  - by intros [<-|[]] [].
  - destruct (JS.isSpace d) eqn:Ed.
    + destruct inRun.
      * intros Hp Hc. destruct (IH _ _ Hp Hc). split; [by right|done].
      * intros [<-|Hp] Hc; [destruct Hc|]. destruct (IH _ _ Hp Hc). split; [by right|done].
    + pose proof (IH false) as IHf.
      destruct (JS.splitSpaces false s) as [|p ps] eqn:Es.
      * intros [<-|[]]. simpl. by intros [<-|[]]; split; [left|].
      * intros [<-|Hp] Hc.
        -- simpl in Hc. destruct Hc as [<-|Hc]; [by split; [left|]|].
           destruct (IHf p (or_introl eq_refl) Hc). split; [by right|done].
        -- destruct (IHf piece (or_intror Hp) Hc). split; [by right|done].
Qed.

Lemma join_units (sep : string) (l : list string) (c : ascii) :
  In c (list_ascii_of_string (JS.join sep l)) ->
  In c (list_ascii_of_string sep) \/ exists x, In x l /\ In c (list_ascii_of_string x).
Proof.
  induction l as [|x l IH]; [done|].
  destruct l as [|y l].
  - simpl. intros H. right. exists x. by split; [left|].
  - change (JS.join sep (x :: y :: l)) with (x +:+ sep +:+ JS.join sep (y :: l)).
    rewrite !units_app. intros [H|[H|H]].
    + right. exists x. by split; [left|].
    + by left.
    + destruct (IH H) as [Hs|(z & Hz & Hc)]; [by left|]. right. exists z. by split; [right|].
Qed.

Lemma firstn_In {A : Type} (n : nat) (l : list A) (x : A) : In x (firstn n l) -> In x l.
Proof.
  revert n. induction l as [|y l IH]; intros [|n]; simpl; try tauto.
  intros [H|H]; [by left|]. right. by eapply IH.
Qed.

Lemma digits10_nonempty (fuel : nat) (n : Z) (acc : string) :
  acc <> "" -> JS.digits10 fuel n acc <> "".
Proof.
  revert n acc. induction fuel as [|fuel IH]; intros n acc Hacc; simpl; [done|].
  destruct (n / 10 =? 0); [done|]. by apply IH.
Qed.

(** X24: the file name that generateFilename makes for a note holds only
    letters, digits, underscores, hyphens and white space (so no path
    separator, dot or colon), has at most 100 code units and is never
    empty; the part made of the title words holds no white space. *)
Theorem generateFilename_safe (article : Article.t) :
  (forall c, In c (list_ascii_of_string (Utils.generateFilename article)) ->
             Utils.fileUnit c = true)
  /\ (String.length (Utils.generateFilename article) <= 100)%nat
  /\ Utils.generateFilename article <> ""
  /\ (forall c,
        In c (list_ascii_of_string
                (JS.join "-"
                   (JS.slice0 5
                      (JS.splitSpaces false
                         (JS.keepUnits Utils.fileUnit (Article.title article)))))) ->
        JS.isSpace c = false).
Proof.
  assert (forall c,
            In c (list_ascii_of_string
                    (JS.join "-"
                       (JS.slice0 5
                          (JS.splitSpaces false
                             (JS.keepUnits Utils.fileUnit (Article.title article)))))) ->
            Utils.fileUnit c = true /\ JS.isSpace c = false) as Htitle.
  { intros c Hc. apply join_units in Hc as [Hc|(x & Hx & Hc)].
    - simpl in Hc. by destruct Hc as [<-|[]].
    - apply firstn_In in Hx. destruct (splitSpaces_units _ _ _ _ Hx Hc) as [Hin Hsp].
      apply keepUnits_units in Hin as [_ Hin]. done. }
  split; [|split; [apply substring0_length|split; [|intros c Hc; by apply Htitle]]].
  - intros c Hc. unfold Utils.generateFilename in Hc. cbv zeta in Hc.
    apply substring0_units in Hc. rewrite !units_app in Hc.
    destruct Hc as [Hc|[Hc|[Hc|Hc]]].
    + by apply keepUnits_units in Hc as [_ Hc].
    + by apply keepUnits_units in Hc as [_ Hc].
    + simpl in Hc. by destruct Hc as [<-|[]].
    + by apply Htitle.
  - unfold Utils.generateFilename. cbv zeta.
    destruct (JS.keepUnits Utils.fileUnit (Utils.firstAuthorRaw article)) as [|a s];
      [|by rewrite append_cons].
    rewrite append_nil_l.
    destruct (JS.keepUnits Utils.fileUnit (JS.numToString (Article.year article))) as [|a s];
      [|by rewrite append_cons].
    by rewrite append_nil_l.
Qed.

Example generateFilename_sample :
  Utils.generateFilename Sample.forest = "Doe2024-Forest"
  /\ Utils.generateFilename
       (Article.set_abstract None
          (Article.mk "10.1/x" "Trees: a/b  test of the long, long title here" []
             "J" "1" None None None "2024-03-01" 2024 None None "u" None unseen "t"
             None None None))
     = "Unknown2024-Trees-ab-test-of-the".
Proof. by split. Qed.

Lemma escapeQuotes_units (c : ascii) (s : string) :
  In c (list_ascii_of_string (Utils.escapeQuotes s)) ->
  c = Utils.backslash \/ In c (list_ascii_of_string s).
Proof.
  induction s as [|d s IH]; simpl; [tauto|].
  destruct (Ascii.eqb_spec d Utils.dquote) as [->|Hd]; simpl.
  - intros [<-|[<-|H]]; [by left|right; by left|]. destruct (IH H); [by left|right; by right].
  - intros [<-|H]; [right; by left|]. destruct (IH H); [by left|right; by right].
Qed.

Lemma newlinesToSpaces_app (s t : string) :
  Utils.newlinesToSpaces (s +:+ t) = Utils.newlinesToSpaces s +:+ Utils.newlinesToSpaces t.
Proof. induction s as [|c s IH]; [done|]. rewrite append_cons. simpl. by rewrite IH. Qed.

Lemma newlinesToSpaces_split (s pre post : string) (c : ascii) :
  Utils.newlinesToSpaces s = pre +:+ String c post ->
  exists pre0 c0 post0,
    s = pre0 +:+ String c0 post0
    /\ pre = Utils.newlinesToSpaces pre0
    /\ c = (if Ascii.eqb c0 "010" then " "%char else c0)
    /\ post = Utils.newlinesToSpaces post0.
Proof.
  revert pre. induction s as [|d s IH]; intros pre; simpl.
  - destruct pre; [|rewrite append_cons]; discriminate.
  - destruct pre as [|e pre].
    + rewrite append_nil_l. intros [= <- <-]. by exists "", d, s.
    + rewrite append_cons. intros [= <- H].
      destruct (IH pre H) as (pre0 & c0 & post0 & -> & -> & -> & ->).
      by exists (String d pre0), c0, post0.
Qed.

Lemma escapeQuotes_quote (s pre post : string) :
  Utils.escapeQuotes s = pre +:+ String Utils.dquote post ->
  exists pre', pre = pre' +:+ String Utils.backslash "".
Proof.
  revert pre. induction s as [|d s IH]; intros pre; simpl.
  - destruct pre; [|rewrite append_cons]; discriminate.
  - destruct (Ascii.eqb_spec d Utils.dquote) as [->|Hd].
    + destruct pre as [|e pre]; [rewrite append_nil_l; discriminate|].
      rewrite append_cons. intros [= <- H].
      destruct pre as [|e pre].
      * by exists "".
      * rewrite append_cons in H. injection H as <- H.
        destruct (IH pre H) as (pre' & ->).
        exists (String Utils.backslash (String Utils.dquote pre')). by rewrite !append_cons.
    + destruct pre as [|e pre].
      * rewrite append_nil_l. intros [= -> _]. done.
      * rewrite append_cons. intros [= <- H].
        destruct (IH pre H) as (pre' & ->). exists (String d pre'). by rewrite append_cons.
Qed.

Lemma escapeYaml_fixed (s : string) :
  (forall c, In c (list_ascii_of_string s) -> c <> Utils.dquote /\ c <> "010"%char) ->
  Utils.escapeYaml s = s.
Proof.
  unfold Utils.escapeYaml. induction s as [|d s IH]; intros H; simpl; [done|].
  destruct (H d (or_introl eq_refl)) as [Hq Hn].
  destruct (Ascii.eqb_spec d Utils.dquote) as [->|_]; [done|]. simpl.
  destruct (Ascii.eqb_spec d "010") as [->|_]; [done|]. f_equal.
  apply IH. intros c Hc. apply H. by right.
Qed.

(** X25: a string that escapeYaml returns holds no line feed, and each of
    its double quotes follows a backslash.  A string without double quote
    and line feed is returned as it is: a backslash is not doubled. *)
Theorem escapeYaml_quotes_and_lines (str : string) :
  ~ In "010"%char (list_ascii_of_string (Utils.escapeYaml str))
  /\ (forall pre post,
        Utils.escapeYaml str = pre +:+ String Utils.dquote post ->
        exists pre', pre = pre' +:+ String Utils.backslash "")
  /\ ((forall c, In c (list_ascii_of_string str) -> c <> Utils.dquote /\ c <> "010"%char) ->
      Utils.escapeYaml str = str).
Proof.
  split; [|split; [|apply escapeYaml_fixed]].
  - unfold Utils.escapeYaml. generalize (Utils.escapeQuotes str). intros s.
    induction s as [|d s IH]; simpl; [tauto|].
    intros [H|H]; [|tauto]. by destruct (Ascii.eqb_spec d "010") as [->|Hd].
  - intros pre post H. unfold Utils.escapeYaml in H.
    apply newlinesToSpaces_split in H as (pre0 & c0 & post0 & Hs & -> & Hc & ->).
    assert (c0 = Utils.dquote) as ->.
    { destruct (Ascii.eqb_spec c0 "010") as [->|_]; [discriminate Hc|done]. }
    apply escapeQuotes_quote in Hs as (pre' & ->).
    exists (Utils.newlinesToSpaces pre'). by rewrite newlinesToSpaces_app.
Qed.

Lemma escapeYaml_quotes_and_lines_witness :
  exists pre', "say " +:+ String Utils.backslash "" = pre' +:+ String Utils.backslash "".
Proof.
  apply (proj1 (proj2 (escapeYaml_quotes_and_lines
                         ("say " +:+ String Utils.dquote "hi")))
           ("say " +:+ String Utils.backslash "") "hi").
  reflexivity.
Defined.

(** ** views/BrowseView.ts: closing and opening again *)

(** X26: closing a view stores its index (and, when the current article
    has an identifier, that identifier) and nothing else; a view that is
    then made from the stored data, and shows the same articles, starts at
    the index at which the first one was closed. *)
Theorem reopen_restores_position (getTime : string -> option Z)
    (localeCompare : string -> string -> Z) (values : list Article.t) (v : BrowseView.t) :
  Inv.inBounds v ->
  Utils.filterArticles getTime localeCompare values
    (JournalMonitorSettings.currentFilter (BrowseView.settings v))
    (List.filter JournalConfig.enabled (JournalMonitorSettings.journals (BrowseView.settings v)))
  = BrowseView.articles v ->
  let closed := BrowseView.data (BrowseView.onClose v) in
  let v' := BrowseView.create getTime localeCompare values (BrowseView.settings v) closed in
  BrowseView.currentIndex v' = BrowseView.currentIndex v
  /\ BrowseView.articles v' = BrowseView.articles v
  /\ BrowsePosition.scrollIndex (JournalMonitorData.browsePosition closed)
     = BrowseView.currentIndex v
  /\ (forall a, BrowseView.articles v !! BrowseView.currentIndex v = Some a ->
                Article.doi a <> "" ->
                BrowsePosition.currentDoi (JournalMonitorData.browsePosition closed)
                = Some (Article.doi a))
  /\ JournalMonitorData.articles closed = JournalMonitorData.articles (BrowseView.data v)
  /\ JournalMonitorData.statistics closed = JournalMonitorData.statistics (BrowseView.data v).
Proof.
  intros Hb Hshown closed v'.
  assert (BrowsePosition.scrollIndex (JournalMonitorData.browsePosition closed)
          = BrowseView.currentIndex v) as Hindex.
  { subst closed. unfold BrowseView.onClose, BrowseView.savePosition. simpl.
    by destruct (0 <? length (BrowseView.articles v))%nat. }
  assert (BrowseView.articles v' = BrowseView.articles v) as Harts.
  { subst v'. unfold BrowseView.create. cbn [BrowseView.articles]. exact Hshown. }
  split; [|split; [exact Harts|split; [exact Hindex|split; [|by split]]]].
  - subst v'. unfold BrowseView.create. cbn [BrowseView.currentIndex].
    rewrite Hshown, Hindex.
    destruct Hb as [Hlt|[Hnil H0]].
    + destruct (Nat.leb_spec (length (BrowseView.articles v)) (BrowseView.currentIndex v));
        [lia|done].
    + rewrite Hnil, H0. done.
  - intros a Ha Hdoi. subst closed. unfold BrowseView.onClose, BrowseView.savePosition. simpl.
    destruct (BrowseView.articles v) as [|x l] eqn:El; [by rewrite lookup_nil in Ha|].
    simpl. rewrite Ha. simpl. by destruct (Article.doi a).
Qed.

Lemma reopen_restores_position_witness :
  let v := fst (BrowseView.nextArticle Sample.laterClock
                  (BrowseView.create Sample.getTime Sample.localeCompare
                     [Sample.forest; Sample.grove] Sample.settingsAll Sample.freshData)) in
  BrowseView.currentIndex
    (BrowseView.create Sample.getTime Sample.localeCompare (BrowseView.articles v)
       (BrowseView.settings v) (BrowseView.data (BrowseView.onClose v)))
  = 1%nat.
Proof.
  intros v.
  destruct (reopen_restores_position Sample.getTime Sample.localeCompare
              (BrowseView.articles v) v) as (H & _).
  - left. vm_compute. lia.
  - vm_compute. reflexivity.
  - rewrite H. vm_compute. reflexivity.
Defined.

(** ** api.ts: a registry record, end to end *)

Example crossRefToArticle_sample :
  (fun a => (Article.doi a, Article.title a, Article.authors a, Article.date a,
             Article.year a, Article.abstract_ a, Article.url a))
  <$> Api.crossRefToArticle Sample.clock Sample.crossRefWork "Ecography" "0906-7590"
  = Some ("10.1000/j.9", "Canopy height", ["Doe, Jane"; "Unknown"], "2024-03-01", 2024,
          Some "Tall trees.", "https://doi.org/10.1000/j.9").
Proof. reflexivity. Qed.
